(** * Document processing pipeline (ai_services.py): OCR extraction,
    rule-based analysis and the orchestration of both.

  The development follows the three classes of [ai_services.py]:
  [OCRService], [NLPService] and [DocumentProcessor].  Python values are
  embedded as follows.

  - [str] is [string]; a character stands for the code point of the same
    number, so the texts covered are those over code points below 256.
    [str.lower], [str.isspace], and the [re] classes [\d], [\w] are the
    restrictions of the Unicode ones to that range.
  - [int] is [Z]; [float] is the IEEE binary64 model [spec_float] of the
    core library, with the operations of [SpecFloat] at precision 53.
  - [dict] is an association list in insertion order, [list] is [list].
  - the collaborators (file system, OCR engine, chat backend, JSON decoder,
    clock) are fields of a [World]; a call that can raise returns a
    [result]; calls to the backend and readings of the clock are recorded
    in the state threaded by the monad [M].
  - logging has no effect on any returned value and is left out. *)

From Stdlib Require Import List String Ascii ZArith NArith Bool Lia Arith.
From Stdlib Require Import Permutation.
From Stdlib Require Floats.SpecFloat.
Import ListNotations.
Local Open Scope string_scope.
Set Warnings "-register-all".

(* ================================================================== *)
(** * Python string primitives *)
(* ================================================================== *)

Module PyStr.

Definition code (c : ascii) : N := N_of_ascii c.

Definition between (lo hi : N) (c : ascii) : bool :=
  (lo <=? code c)%N && (code c <=? hi)%N.

(** [str.isspace] on one character. *)
Definition isspace (c : ascii) : bool :=
  between 9 13 c || between 28 32 c || (code c =? 133)%N || (code c =? 160)%N.

(** [str.lower] on one character: A-Z and the upper-case letters of the
    Latin-1 block move up by 32. *)
Definition lower_char (c : ascii) : ascii :=
  if between 65 90 c || between 192 214 c || between 216 222 c
  then ascii_of_N (code c + 32)
  else c.

(** [s.lower()] *)
Fixpoint lower (s : string) : string :=
  match s with
  | EmptyString => EmptyString
  | String c s' => String (lower_char c) (lower s')
  end.

(** [s.startswith(p)] *)
Fixpoint startswith (p s : string) : bool :=
  match p, s with
  | EmptyString, _ => true
  | String a p', String b s' => Ascii.eqb a b && startswith p' s'
  | String _ _, EmptyString => false
  end.

(** [needle in hay] *)
Fixpoint contains (needle hay : string) : bool :=
  startswith needle hay ||
  match hay with
  | EmptyString => false
  | String _ hay' => contains needle hay'
  end.

(** [s[:n]] *)
Fixpoint take (n : nat) (s : string) : string :=
  match n, s with
  | S n', String c s' => String c (take n' s')
  | _, _ => EmptyString
  end.

(** [s.lstrip()], [s.rstrip()], [s.strip()] *)
Fixpoint lstrip (s : string) : string :=
  match s with
  | String c s' => if isspace c then lstrip s' else s
  | EmptyString => EmptyString
  end.

Fixpoint rstrip (s : string) : string :=
  match s with
  | EmptyString => EmptyString
  | String c s' =>
      match rstrip s' with
      | EmptyString => if isspace c then EmptyString else String c EmptyString
      | r => String c r
      end
  end.

Definition strip (s : string) : string := rstrip (lstrip s).

(** Truth value of a string: non-empty. *)
Definition truthy (s : string) : bool :=
  match s with EmptyString => false | _ => true end.

(** [s.split()]: maximal runs of non-space characters.  [cur] holds the
    run being read, in reverse. *)
Definition rev_string (l : list ascii) : string :=
  string_of_list_ascii (rev l).

Definition flush (cur : list ascii) (acc : list string) : list string :=
  match cur with
  | [] => acc
  | _ => rev_string cur :: acc
  end.

Fixpoint split_ws_aux (s : string) (cur : list ascii) : list string :=
  match s with
  | EmptyString => flush cur []
  | String c s' =>
      if isspace c then flush cur (split_ws_aux s' [])
      else split_ws_aux s' (c :: cur)
  end.

Definition split_ws (s : string) : list string := split_ws_aux s [].

(** [s.split(sep)] for a one-character separator: always at least one
    segment, empty segments kept. *)
Fixpoint split_on_aux (sep : ascii) (s : string) (cur : list ascii)
  : list string :=
  match s with
  | EmptyString => [rev_string cur]
  | String c s' =>
      if Ascii.eqb c sep then rev_string cur :: split_on_aux sep s' []
      else split_on_aux sep s' (c :: cur)
  end.

Definition split_on (sep : ascii) (s : string) : list string :=
  split_on_aux sep s [].

(** [sep.join(parts)] *)
Fixpoint join (sep : string) (parts : list string) : string :=
  match parts with
  | [] => EmptyString
  | [p] => p
  | p :: rest => p ++ sep ++ join sep rest
  end.

Definition len (s : string) : Z := Z.of_nat (String.length s).

End PyStr.

(* ================================================================== *)
(** * The fragment of Python's [re] used by the entity patterns *)
(* ================================================================== *)

(** The three patterns of [_extract_entities_regex] are built from
    one-character atoms (a literal, a bracket class, [\d]), greedy
    quantifiers on such atoms, the assertion [\b], concatenation and
    alternation.  The matcher below is the backtracking matcher of [re]
    on that fragment: alternatives are tried left to right, a quantifier
    takes as many characters as it can and gives them back one at a time. *)

Module Re.

Import PyStr.

Inductive item : Type :=
| CChar (c : ascii)
| CRange (lo hi : ascii)
| CDigit.

Definition charset : Type := list item.

(** [\d] *)
Definition isdigit (c : ascii) : bool := between 48 57 c.

(** [\w]: alphanumeric or underscore. *)
Definition isword (c : ascii) : bool :=
  between 48 57 c || between 65 90 c || between 97 122 c || (code c =? 95)%N
  || (code c =? 170)%N || between 178 179 c || (code c =? 181)%N
  || between 185 186 c || between 188 190 c || between 192 214 c
  || between 216 246 c || between 248 255 c.

Definition item_mem (c : ascii) (i : item) : bool :=
  match i with
  | CChar a => Ascii.eqb c a
  | CRange lo hi => between (code lo) (code hi) c
  | CDigit => isdigit c
  end.

Definition mem (c : ascii) (cs : charset) : bool := existsb (item_mem c) cs.

Inductive regex : Type :=
| RSet (cs : charset)                              (* one character *)
| RRep (cs : charset) (lo : nat) (hi : option nat) (* greedy {lo,hi} *)
| RWordB                                           (* \b *)
| RSeq (r1 r2 : regex)
| RAlt (r1 r2 : regex).

(** A continuation receives the character before the current position,
    the rest of the subject and the number of characters consumed. *)
Definition cont : Type := option ascii -> string -> nat -> option nat.

Definition isword_opt (o : option ascii) : bool :=
  match o with Some c => isword c | None => false end.

Definition head (s : string) : option ascii :=
  match s with String c _ => Some c | EmptyString => None end.

Definition at_boundary (prev : option ascii) (s : string) : bool :=
  xorb (isword_opt prev) (isword_opt (head s)).

Definition may_take (hi : option nat) : bool :=
  match hi with Some 0 => false | _ => true end.

Definition dec_hi (hi : option nat) : option nat :=
  match hi with Some h => Some (pred h) | None => None end.

Fixpoint rep_greedy (cs : charset) (lo : nat) (hi : option nat)
  (prev : option ascii) (s : string) (n : nat) (k : cont) {struct s}
  : option nat :=
  let stop := if Nat.eqb lo 0 then k prev s n else None in
  match s with
  | String c s' =>
      if may_take hi && mem c cs then
        match rep_greedy cs (pred lo) (dec_hi hi) (Some c) s' (S n) k with
        | Some r => Some r
        | None => stop
        end
      else stop
  | EmptyString => stop
  end.

Fixpoint run (r : regex) (prev : option ascii) (s : string) (n : nat)
  (k : cont) {struct r} : option nat :=
  match r with
  | RSet cs =>
      match s with
      | String c s' => if mem c cs then k (Some c) s' (S n) else None
      | EmptyString => None
      end
  | RRep cs lo hi => rep_greedy cs lo hi prev s n k
  | RWordB => if at_boundary prev s then k prev s n else None
  | RSeq r1 r2 => run r1 prev s n (fun p' s' n' => run r2 p' s' n' k)
  | RAlt r1 r2 =>
      match run r1 prev s n k with
      | Some m => Some m
      | None => run r2 prev s n k
      end
  end.

(** Length of the match starting at the current position, if any. *)
Definition match_here (r : regex) (prev : option ascii) (s : string)
  : option nat :=
  run r prev s 0 (fun _ _ n => Some n).

(** [re.findall(r, s)] for a pattern without groups: the matches found by
    scanning from left to right, each search starting where the previous
    match ended.  [skip] counts the characters of the last match still to be
    passed.  After an empty match the scan moves on by one character. *)
Fixpoint scan (r : regex) (prev : option ascii) (s : string) (skip : nat)
  {struct s} : list string :=
  match skip with
  | S j =>
      match s with
      | String c s' => scan r (Some c) s' j
      | EmptyString => []
      end
  | O =>
      match match_here r prev s with
      | Some m =>
          take m s ::
          match s with
          | String c s' => scan r (Some c) s' (pred m)
          | EmptyString => []
          end
      | None =>
          match s with
          | String c s' => scan r (Some c) s' 0
          | EmptyString => []
          end
      end
  end.

Definition findall (r : regex) (s : string) : list string := scan r None s 0.

(** Pattern syntax. *)
Definition lit (c : ascii) : regex := RSet [CChar c].
Definition plus (cs : charset) : regex := RRep cs 1 None.
Definition star (cs : charset) : regex := RRep cs 0 None.
Definition opt (cs : charset) : regex := RRep cs 0 (Some 1).
Definition rep (cs : charset) (lo hi : nat) : regex := RRep cs lo (Some hi).
Definition at_least (cs : charset) (lo : nat) : regex := RRep cs lo None.

Fixpoint seq (rs : list regex) : regex :=
  match rs with
  | [] => RRep [] 0 (Some 0)
  | [r] => r
  | r :: rest => RSeq r (seq rest)
  end.

End Re.

(* ================================================================== *)
(** * Python values, exceptions and the effect monad *)
(* ================================================================== *)

Module Py.

(** An exception is represented by its message [str(e)]; every exception
    of the model is an instance of [Exception]. *)
Definition exn : Type := string.

Inductive result (A : Type) : Type :=
| Ok (a : A)
| Raise (e : exn).

Arguments Ok {A} a.
Arguments Raise {A} e.

Inductive pyval : Type :=
| PNone
| PBool (b : bool)
| PInt (z : Z)
| PFloat (f : SpecFloat.spec_float)
| PStr (s : string)
| PList (l : list pyval)
| PDict (d : list (string * pyval)).

Definition dict : Type := list (string * pyval).

(** [d.get(k)] as an option. *)
Fixpoint lookup (k : string) (d : dict) : option pyval :=
  match d with
  | [] => None
  | (k', v) :: d' => if String.eqb k k' then Some v else lookup k d'
  end.

(** [d[k] = v]: an existing key keeps its place, a new key goes last. *)
Fixpoint store (k : string) (v : pyval) (d : dict) : dict :=
  match d with
  | [] => [(k, v)]
  | (k', v') :: d' =>
      if String.eqb k k' then (k, v) :: d' else (k', v') :: store k v d'
  end.

(** [d.get(k, default)] *)
Definition get_default (k : string) (default : pyval) (d : dict) : pyval :=
  match lookup k d with Some v => v | None => default end.

(** [d[k].append(x)] for a key holding a list. *)
Definition append_to (k : string) (x : pyval) (d : dict) : dict :=
  match lookup k d with
  | Some (PList l) => store k (PList (l ++ [x])) d
  | _ => d
  end.

(** Truth value of an object. *)
Definition truth (v : pyval) : bool :=
  match v with
  | PNone => false
  | PBool b => b
  | PInt z => negb (z =? 0)%Z
  | PFloat f =>
      match f with SpecFloat.S754_zero _ => false | _ => true end
  | PStr s => PyStr.truthy s
  | PList l => match l with [] => false | _ => true end
  | PDict d => match d with [] => false | _ => true end
  end.

(** [type(v).__name__], as it appears in an [AttributeError]. *)
Definition type_name (v : pyval) : string :=
  match v with
  | PNone => "NoneType"
  | PBool _ => "bool"
  | PInt _ => "int"
  | PFloat _ => "float"
  | PStr _ => "str"
  | PList _ => "list"
  | PDict _ => "dict"
  end.

Definition strings (l : list string) : pyval := PList (map PStr l).

(** ** State and exceptions

    [M S A] is a computation over a state [S] that returns an [A] or
    raises; the state reached when an exception is raised is kept, as the
    effects performed before a Python exception are. *)

Definition M (S A : Type) : Type := S -> result A * S.

Definition ret {S A} (a : A) : M S A := fun s => (Ok a, s).

Definition bind {S A B} (m : M S A) (f : A -> M S B) : M S B :=
  fun s =>
    match m s with
    | (Ok a, s') => f a s'
    | (Raise e, s') => (Raise e, s')
    end.

Definition raise {S A} (e : exn) : M S A := fun s => (Raise e, s).

(** [try: m  except Exception as e: h e] *)
Definition try_except {S A} (m : M S A) (h : exn -> M S A) : M S A :=
  fun s =>
    match m s with
    | (Ok a, s') => (Ok a, s')
    | (Raise e, s') => h e s'
    end.

Definition of_result {S A} (r : result A) : M S A := fun s => (r, s).

Definition gets {S A} (f : S -> A) : M S A := fun s => (Ok (f s), s).

Definition modify {S} (f : S -> S) : M S unit := fun s => (Ok tt, f s).

End Py.

Declare Scope py_scope.
Delimit Scope py_scope with py.
Notation "x <- m ;; k" := (Py.bind m (fun x => k))
  (at level 61, m at next level, right associativity) : py_scope.
Notation "m ;;; k" := (Py.bind m (fun _ => k))
  (at level 61, right associativity) : py_scope.

(* ================================================================== *)
(** * Python floats *)
(* ================================================================== *)

Module PyFloat.

Import SpecFloat Py.

Definition prec : Z := 53.
Definition emax : Z := 1024.

(** The float of an integer held exactly as mantissa with exponent 0. *)
Definition of_int (z : Z) : spec_float :=
  match z with
  | Z0 => S754_zero false
  | Zpos p => S754_finite false p 0
  | Zneg p => S754_finite true p 0
  end.

(** A quotient of integers rounds to a finite float exactly when its
    magnitude is below [2^1024 - 2^970], half an ulp above the largest
    float. *)
Definition overflow_bound : Z := 2 ^ 1024 - 2 ^ 970.

(** [a / b] on integers: the correctly rounded quotient. *)
Definition truediv (a b : Z) : result spec_float :=
  if (b =? 0)%Z then Raise "division by zero"
  else if (Z.abs b * overflow_bound <=? Z.abs a)%Z
       then Raise "integer division result too large for a float"
       else Ok (SFdiv prec emax (of_int a) (of_int b)).

(** [n / d] rounded to the nearest integer, ties to even ([0 < d]). *)
Definition round_half_even (n d : Z) : Z :=
  let q := (n / d)%Z in
  let r := (n mod d)%Z in
  if (2 * r <? d)%Z then q
  else if (d <? 2 * r)%Z then (q + 1)%Z
  else if Z.even q then q else (q + 1)%Z.

(** The magnitude of a finite float in hundredths, rounded half to even
    on its exact value. *)
Definition hundredths (m : positive) (e : Z) : Z :=
  match e with
  | Zneg p => round_half_even (100 * Zpos m) (2 ^ Zpos p)
  | _ => (100 * Zpos m * 2 ^ e)%Z
  end.

(** [round(x, 2)] on a float: the float nearest to the decimal with two
    places that is nearest to the exact value of [x].  With two places
    the result is never out of range, so the call does not raise. *)
Definition round2 (x : spec_float) : spec_float :=
  match x with
  | S754_finite s m e =>
      match hundredths m e with
      | Zpos h => SFdiv prec emax (S754_finite s h 0) (of_int 100)
      | _ => S754_zero s
      end
  | _ => x
  end.

(** [round(v, 2)] on a number: an [int] is returned as it is. *)
Definition py_round2 (v : pyval) : result pyval :=
  match v with
  | PInt z => Ok (PInt z)
  | PBool b => Ok (PInt (if b then 1 else 0))
  | PFloat f => Ok (PFloat (round2 f))
  | _ => Raise ("type " ++ type_name v ++ " doesn't define __round__ method")
  end.

End PyFloat.

(* ================================================================== *)
(** * The collaborators *)
(* ================================================================== *)

Import Py.
Local Open Scope py_scope.

(** A decoded image: its colour mode and its pixels. *)
Record Image : Type := { mode : string; pixels : N }.

(** What lies outside the three classes.  Each field is the outcome of
    the library call named in its comment; the engine's confidences are
    integers, so that [int(conf)] is the identity on them.  The chat
    backend may answer the same prompt differently at each call: its first
    argument is the number of calls made before. *)
Record World : Type := {
  openai_api_key : option string;                (* settings.openai_api_key *)
  image_open : string -> result Image;           (* Image.open(path) *)
  image_convert : Image -> string -> result Image; (* image.convert(mode) *)
  image_to_data : Image -> string -> result (list Z);
                                 (* pytesseract.image_to_data(..)['conf'] *)
  image_to_string : Image -> string -> result string;
                                 (* pytesseract.image_to_string(..) *)
  read_text : string -> result string;
                                 (* open(path, 'r', encoding='utf-8').read() *)
  chat_create : nat -> string -> result (list (option string));
           (* client.chat.completions.create(..): the message contents of
              response.choices *)
  json_loads : string -> result pyval;           (* json.loads(s) *)
  clock : nat -> string          (* datetime.now().isoformat(), n-th reading *)
}.

(** The effects a run leaves behind: the prompts sent to the backend, in
    order, and the number of readings of the clock. *)
Record Trace : Type := { calls : list string; ticks : nat }.

Definition no_effects : Trace := {| calls := []; ticks := 0 |}.

(** The trace after one reading of the clock. *)
Definition tick (t : Trace) : Trace :=
  {| calls := calls t; ticks := S (ticks t) |}.

(** The iteration order of a [set] of strings is fixed within one
    interpreter (it follows the hashes of the strings) and is otherwise
    unknown.  [list_of_set l] is [list(set(l))]. *)
Class SetOrder : Type := {
  list_of_set : list string -> list string;
  list_of_set_NoDup : forall l, NoDup (list_of_set l);
  list_of_set_In : forall l x, In x (list_of_set l) <-> In x l
}.

(** One admissible order: first occurrences, in order of appearance. *)
Fixpoint first_occurrences (l : list string) (seen : list string)
  : list string :=
  match l with
  | [] => []
  | x :: l' =>
      if existsb (String.eqb x) seen then first_occurrences l' seen
      else x :: first_occurrences l' (x :: seen)
  end.

(* ================================================================== *)
(** * class OCRService *)
(* ================================================================== *)

Module OCRService.

Import PyStr PyFloat.

Definition tesseract_config : string := "--oem 3 --psm 6".

Definition sum (l : list Z) : Z := fold_left Z.add l 0%Z.

Definition positive_confidences (conf : list Z) : list Z :=
  filter (fun c => (0 <? c)%Z) conf.

(** [if image.mode != 'RGB': image = image.convert('RGB')] *)
Definition to_rgb (w : World) (image : Image) : result Image :=
  if negb (String.eqb (mode image) "RGB")
  then image_convert w image "RGB"
  else Ok image.

(** The body of the [try] of [extract_text]. *)
Definition extract_text_try (w : World) (image_path : string)
  : M Trace pyval :=
  image <- of_result (image_open w image_path) ;;
  image <- of_result (to_rgb w image) ;;
  conf <- of_result (image_to_data w image tesseract_config) ;;
  let confidences := positive_confidences conf in
  avg_confidence <-
    (match confidences with
     | _ :: _ =>
         q <- of_result
                (truediv (sum confidences) (Z.of_nat (List.length confidences))) ;;
         ret (PFloat q)
     | [] => ret (PInt 0)
     end) ;;
  text <- of_result (image_to_string w image tesseract_config) ;;
  confidence <- of_result (py_round2 avg_confidence) ;;
  ret (PDict [("text", PStr (strip text));
              ("confidence", confidence);
              ("word_count", PInt (Z.of_nat (List.length (split_ws text))));
              ("character_count", PInt (len text))]).

Definition extract_text (w : World) (image_path : string) : M Trace pyval :=
  try_except (extract_text_try w image_path)
    (fun e =>
       ret (PDict [("text", PStr EmptyString);
                   ("confidence", PInt 0);
                   ("word_count", PInt 0);
                   ("character_count", PInt 0);
                   ("error", PStr e)])).

End OCRService.

(* ================================================================== *)
(** * class NLPService *)
(* ================================================================== *)

Module NLPService.

Import PyStr Re.

(** ** Constant tables *)

Definition invoice_words : list string :=
  ["invoice"; "bill"; "payment"; "amount due"].
Definition contract_words : list string :=
  ["contract"; "agreement"; "terms"; "conditions"].
Definition report_words : list string :=
  ["report"; "analysis"; "findings"; "conclusion"].
Definition resume_words : list string :=
  ["resume"; "cv"; "curriculum vitae"; "experience"].

Definition positive_words : list string :=
  ["good"; "great"; "excellent"; "positive"; "success"; "happy"; "pleased"].
Definition negative_words : list string :=
  ["bad"; "terrible"; "negative"; "failure"; "unhappy"; "disappointed";
   "problem"].

Definition digit : charset := [CDigit].
Definition slash_or_dash : charset := [CChar "/"; CChar "-"].

(** [\b\d{1,2}[/-]\d{1,2}[/-]\d{2,4}\b|\b\d{4}[/-]\d{1,2}[/-]\d{1,2}\b] *)
Definition date_pattern : regex :=
  RAlt
    (seq [RWordB; rep digit 1 2; RSet slash_or_dash; rep digit 1 2;
          RSet slash_or_dash; rep digit 2 4; RWordB])
    (seq [RWordB; rep digit 4 4; RSet slash_or_dash; rep digit 1 2;
          RSet slash_or_dash; rep digit 1 2; RWordB]).

(** [\$[\d,]+\.?\d*|\b\d+\.\d{2}\b] *)
Definition amount_pattern : regex :=
  RAlt
    (seq [lit "$"; plus [CDigit; CChar ","]; opt [CChar "."]; star digit])
    (seq [RWordB; plus digit; lit "."; rep digit 2 2; RWordB]).

(** [\b[A-Za-z0-9._%+-]+@[A-Za-z0-9.-]+\.[A-Z|a-z]{2,}\b] *)
Definition email_pattern : regex :=
  seq [RWordB;
       plus [CRange "A" "Z"; CRange "a" "z"; CRange "0" "9"; CChar ".";
             CChar "_"; CChar "%"; CChar "+"; CChar "-"];
       lit "@";
       plus [CRange "A" "Z"; CRange "a" "z"; CRange "0" "9"; CChar ".";
             CChar "-"];
       lit ".";
       at_least [CRange "A" "Z"; CChar "|"; CRange "a" "z"] 2;
       RWordB].

(** ** The prompt of the remote analysis *)

Definition nl : string := String (ascii_of_nat 10) EmptyString.
Definition dq : string := String (ascii_of_nat 34) EmptyString.
Definition ind : string := "            ".

Definition quoted (s : string) : string := dq ++ s ++ dq.

Definition prompt_head : string :=
  nl ++ ind ++ "Analyze the following document and provide:"
  ++ nl ++ ind ++ "1. Document type (invoice, contract, report, etc.)"
  ++ nl ++ ind ++ "2. Key entities (names, dates, amounts, etc.)"
  ++ nl ++ ind ++ "3. Summary (2-3 sentences)"
  ++ nl ++ ind ++ "4. Sentiment score (-100 to 100)"
  ++ nl ++ ind
  ++ nl ++ ind ++ "Document text:"
  ++ nl ++ ind.

Definition prompt_tail : string :=
  "  # Limit to avoid token limits"
  ++ nl ++ ind
  ++ nl ++ ind ++ "Respond in JSON format:"
  ++ nl ++ ind ++ "{"
  ++ nl ++ ind ++ "    " ++ quoted "document_type" ++ ": " ++ quoted "string"
  ++ ","
  ++ nl ++ ind ++ "    " ++ quoted "key_entities" ++ ": {"
  ++ quoted "names" ++ ": [], " ++ quoted "dates" ++ ": [], "
  ++ quoted "amounts" ++ ": [], " ++ quoted "other" ++ ": []},"
  ++ nl ++ ind ++ "    " ++ quoted "summary" ++ ": " ++ quoted "string" ++ ","
  ++ nl ++ ind ++ "    " ++ quoted "sentiment_score" ++ ": number"
  ++ nl ++ ind ++ "}"
  ++ nl ++ ind.

Definition prompt (text : string) : string :=
  prompt_head ++ take 4000 text ++ prompt_tail.

(** ** The rule-based analysis *)

Definition any_in (words : list string) (text : string) : bool :=
  existsb (fun word => contains word text) words.

Definition _detect_document_type (text : string) : string :=
  let text_lower := lower text in
  if any_in invoice_words text_lower then "invoice"
  else if any_in contract_words text_lower then "contract"
  else if any_in report_words text_lower then "report"
  else if any_in resume_words text_lower then "resume"
  else "general_document".

Definition _generate_summary (text : string) : string :=
  let sentences := split_on "." text in
  if (3 <? List.length sentences)%nat
  then join ". " (firstn 2 sentences) ++ "."
  else if (200 <? String.length text)%nat then take 200 text ++ "..." else text.

(** [sum(1 for word in words if word in text)] *)
Definition count_in (words : list string) (text : string) : Z :=
  Z.of_nat (List.length (filter (fun word => contains word text) words)).

Definition _calculate_sentiment (text : string) : Z :=
  let text_lower := lower text in
  let positive_count := count_in positive_words text_lower in
  let negative_count := count_in negative_words text_lower in
  if (negative_count <? positive_count)%Z
  then Z.min 100 ((positive_count - negative_count) * 20)
  else if (positive_count <? negative_count)%Z
  then Z.max (-100) ((negative_count - positive_count) * -20)
  else 0%Z.

Section WithWorld.

Context {order : SetOrder} (w : World).

Definition _extract_entities_regex (text : string) : dict :=
  let entities := [("names", PList []); ("dates", PList []);
                   ("amounts", PList []); ("other", PList [])] in
  let entities :=
    store "dates" (strings (list_of_set (findall date_pattern text)))
      entities in
  let entities :=
    store "amounts" (strings (list_of_set (findall amount_pattern text)))
      entities in
  let entities :=
    store "other" (strings (list_of_set (findall email_pattern text)))
      entities in
  entities.

Definition _fallback_analysis (text : string) : pyval :=
  let document_type := _detect_document_type text in
  let key_entities := _extract_entities_regex text in
  let summary := _generate_summary text in
  let sentiment_score := _calculate_sentiment text in
  PDict [("document_type", PStr document_type);
         ("key_entities", PDict key_entities);
         ("summary", PStr summary);
         ("sentiment_score", PInt sentiment_score)].

(** [self.client]: present when the configured key is a non-empty string. *)
Definition client : option string :=
  match openai_api_key w with
  | Some key => if truthy key then Some key else None
  | None => None
  end.

(** [self.client.chat.completions.create(..)]: the call is recorded. *)
Definition create (user_prompt : string) : M Trace (list (option string)) :=
  fun t =>
    (chat_create w (List.length (calls t)) user_prompt,
     {| calls := calls t ++ [user_prompt]; ticks := ticks t |}).

(** [response.choices[0].message.content] *)
Definition first_content (choices : list (option string))
  : result (option string) :=
  match choices with
  | c :: _ => Ok c
  | [] => Raise "list index out of range"
  end.

(** [json.loads(content)] *)
Definition loads (content : option string) : result pyval :=
  match content with
  | Some s => json_loads w s
  | None =>
      Raise "the JSON object must be str, bytes or bytearray, not NoneType"
  end.

Definition analyze_document (text : string) : M Trace pyval :=
  match client with
  | None => ret (_fallback_analysis text)
  | Some _ =>
      try_except
        (response <- create (prompt text) ;;
         content <- of_result (first_content response) ;;
         result <- of_result (loads content) ;;
         ret result)
        (fun e => ret (_fallback_analysis text))
  end.

End WithWorld.

End NLPService.

(* ================================================================== *)
(** * class DocumentProcessor *)
(* ================================================================== *)

Module DocumentProcessor.

Import PyStr.

(** The local dictionary [result] of [process_document] (here [record]),
    mutated as the steps run, next to the effects of the run. *)
Record Frame : Type := { record : dict; effects : Trace }.

Definition lift {A} (m : M Trace A) : M Frame A :=
  fun f =>
    let (r, t) := m (effects f) in
    (r, {| record := record f; effects := t |}).

(** [result[k] = v] *)
Definition set_key (k : string) (v : pyval) : M Frame unit :=
  modify (fun f => {| record := store k v (record f); effects := effects f |}).

(** [result[k].append(x)] *)
Definition append (k : string) (x : pyval) : M Frame unit :=
  modify
    (fun f => {| record := append_to k x (record f); effects := effects f |}).

(** [obj.get(k, default)] *)
Definition py_get (obj : pyval) (k : string) (default : pyval)
  : result pyval :=
  match obj with
  | PDict d => Ok (get_default k default d)
  | _ => Raise ("'" ++ type_name obj ++ "' object has no attribute 'get'")
  end.

(** [obj[k]] for an item that is a string, as the items [text] and
    [error] of an extraction result are; the other cases do not arise. *)
Definition str_item (obj : pyval) (k : string) : result string :=
  match obj with
  | PDict d =>
      match lookup k d with
      | Some (PStr s) => Ok s
      | Some v => Raise ("'" ++ type_name v ++ "' object is not a string")
      | None => Raise ("'" ++ k ++ "'")
      end
  | _ => Raise ("'" ++ type_name obj ++ "' object is not subscriptable")
  end.

Section WithWorld.

Context {order : SetOrder} (w : World).

(** [datetime.now().isoformat()] *)
Definition now_isoformat : M Trace string :=
  fun t => (Ok (clock w (ticks t)), tick t).

(** Step 1.  [None] stands for the [return result] of line 241; otherwise
    the step yields [ocr_result] (when bound) and [text]. *)
Definition step_extract (file_path mime_type : string)
  : M Frame (option (option pyval * string)) :=
  if startswith "image/" mime_type then
    ocr_result <- lift (OCRService.extract_text w file_path) ;;
    set_key "ocr_result" ocr_result ;;;
    append "steps_completed" (PStr "ocr") ;;;
    error <- of_result (py_get ocr_result "error" PNone) ;;
    if truth error then
      message <- of_result (str_item ocr_result "error") ;;
      append "errors" (PStr ("OCR failed: " ++ message)) ;;;
      ret None
    else
      text <- of_result (str_item ocr_result "text") ;;
      ret (Some (Some ocr_result, text))
  else
    text <- of_result (read_text w file_path) ;;
    append "steps_completed" (PStr "text_extraction") ;;;
    ret (Some (None, text)).

(** Steps 2 and 3. *)
Definition step_analyze (mime_type : string) (ocr_result : option pyval)
  (text : string) : M Frame unit :=
  if truthy (strip text) then
    nlp_result <- lift (NLPService.analyze_document w text) ;;
    set_key "nlp_result" nlp_result ;;;
    append "steps_completed" (PStr "nlp_analysis") ;;;
    set_key "extracted_text" (PStr text) ;;;
    document_type <-
      of_result (py_get nlp_result "document_type" (PStr "unknown")) ;;
    set_key "document_type" document_type ;;;
    key_entities <- of_result (py_get nlp_result "key_entities" (PDict [])) ;;
    set_key "key_entities" key_entities ;;;
    summary <- of_result (py_get nlp_result "summary" (PStr EmptyString)) ;;
    set_key "summary" summary ;;;
    sentiment_score <-
      of_result (py_get nlp_result "sentiment_score" (PInt 0)) ;;
    set_key "sentiment_score" sentiment_score ;;;
    confidence_score <-
      (if startswith "image/" mime_type then
         match ocr_result with
         | Some o => of_result (py_get o "confidence" (PInt 100))
         | None =>
             raise
               "cannot access local variable 'ocr_result' where it is not associated with a value"
         end
       else ret (PInt 100)) ;;
    set_key "confidence_score" confidence_score ;;;
    completed_at <- lift now_isoformat ;;
    set_key "processing_completed_at" (PStr completed_at) ;;;
    set_key "status" (PStr "completed")
  else
    append "errors" (PStr "No text extracted from document").

(** The body of the [try]. *)
Definition steps (file_path mime_type : string) : M Frame unit :=
  extracted <- step_extract file_path mime_type ;;
  match extracted with
  | None => ret tt
  | Some (ocr_result, text) => step_analyze mime_type ocr_result text
  end.

(** The [except Exception as e] clause. *)
Definition on_exception (e : exn) : M Frame unit :=
  append "errors" (PStr e) ;;;
  set_key "status" (PStr "failed") ;;;
  completed_at <- lift now_isoformat ;;
  set_key "processing_completed_at" (PStr completed_at).

(** [process_document(self, file_path: str, mime_type: str)]: both
    arguments are strings, as the signature declares them. *)
Definition process_document (file_path mime_type : string)
  : M Trace pyval :=
  started_at <- now_isoformat ;;
  fun t =>
    let init :=
      {| record := [("file_path", PStr file_path);
                    ("mime_type", PStr mime_type);
                    ("processing_started_at", PStr started_at);
                    ("steps_completed", PList []);
                    ("errors", PList [])];
         effects := t |} in
    match try_except (steps file_path mime_type) on_exception init with
    | (Ok _, f) => (Ok (PDict (record f)), effects f)
    | (Raise e, f) => (Raise e, effects f)
    end.

End WithWorld.

End DocumentProcessor.

(* ================================================================== *)
(** * Notions used by the statements *)
(* ================================================================== *)

(** The classifier as the specification words it: a priority table of
    keyword sets, read from the top; the label of the first row one of
    whose keywords occurs in the text, else the default.  The table is
    written out here and is compared with the code by the theorem on
    [_detect_document_type]. *)
Fixpoint first_match (table : list (string * list string)) (default : string)
  (text : string) : string :=
  match table with
  | [] => default
  | (label, words) :: rest =>
      if existsb (fun keyword => PyStr.contains keyword text) words
      then label
      else first_match rest default text
  end.

Definition type_table : list (string * list string) :=
  [("invoice", ["invoice"; "bill"; "payment"; "amount due"]);
   ("contract", ["contract"; "agreement"; "terms"; "conditions"]);
   ("report", ["report"; "analysis"; "findings"; "conclusion"]);
   ("resume", ["resume"; "cv"; "curriculum vitae"; "experience"])].

(** The shape of an AnalysisResult: a dictionary with a string under
    [document_type], a dictionary under [key_entities], a string under
    [summary] and an integer under [sentiment_score]. *)
Definition is_analysis_result (v : pyval) : bool :=
  match v with
  | PDict d =>
      match lookup "document_type" d, lookup "key_entities" d,
            lookup "summary" d, lookup "sentiment_score" d with
      | Some (PStr _), Some (PDict _), Some (PStr _), Some (PInt _) => true
      | _, _, _, _ => false
      end
  | _ => false
  end.

(** The strings held by a list object. *)
Definition strings_of (v : option pyval) : option (list string) :=
  match v with
  | Some (PList l) =>
      fold_right
        (fun x acc =>
           match x, acc with
           | PStr s, Some r => Some (s :: r)
           | _, _ => None
           end)
        (Some []) l
  | _ => None
  end.

(** The image as the OCR engine receives it: opened, and converted when
    its mode is not RGB. *)
Definition decoded (w : World) (image_path : string) : result Image :=
  match image_open w image_path with
  | Ok image => OCRService.to_rgb w image
  | Raise e => Raise e
  end.

(** The outcome of the primary path of [analyze_document] when it is
    made as call number [n]. *)
Definition remote_reply (w : World) (n : nat) (text : string)
  : result pyval :=
  match chat_create w n (NLPService.prompt text) with
  | Raise e => Raise e
  | Ok choices =>
      match NLPService.first_content choices with
      | Raise e => Raise e
      | Ok content => NLPService.loads w content
      end
  end.

Definition remote_fails (w : World) (n : nat) (text : string) : bool :=
  match remote_reply w n text with
  | Raise _ => true
  | Ok _ => false
  end.

(** The rule-based path is the one taken from trace [t]. *)
Definition fallback_active (w : World) (t : Trace) (text : string) : Prop :=
  NLPService.client w = None
  \/ remote_fails w (List.length (calls t)) text = true.

(** Two worlds hold the same files and the same OCR engine. *)
Definition same_documents (w1 w2 : World) : Prop :=
  (forall p, image_open w1 p = image_open w2 p)
  /\ (forall i m, image_convert w1 i m = image_convert w2 i m)
  /\ (forall i c, image_to_data w1 i c = image_to_data w2 i c)
  /\ (forall i c, image_to_string w1 i c = image_to_string w2 i c)
  /\ (forall p, read_text w1 p = read_text w2 p).

(** The part of a record that comes from the analysis. *)
Definition analysis_of (r : dict) : list (option pyval) :=
  map (fun k => lookup k r)
    ["nlp_result"; "document_type"; "key_entities"; "summary";
     "sentiment_score"].

(** The record returned by a run, when the run returns a dictionary. *)
Definition returned (out : result pyval * Trace) : option dict :=
  match out with
  | (Ok (PDict d), _) => Some d
  | _ => None
  end.

(** ** Sample worlds *)

(** A world given by the answers of its collaborators: the configured
    key, the OCR outcome of every image, the content of every file, the
    reply of the backend and the JSON decoder. *)
Definition sample_world (key : option string)
  (ocr : result (list Z * string)) (file : result string)
  (reply : result (list (option string)))
  (decode : string -> result pyval) : World :=
  {| openai_api_key := key;
     image_open := fun _ =>
       match ocr with
       | Ok _ => Ok {| mode := "L"; pixels := 0 |}
       | Raise e => Raise e
       end;
     image_convert := fun i m => Ok {| mode := m; pixels := pixels i |};
     image_to_data := fun _ _ =>
       match ocr with Ok (c, _) => Ok c | Raise e => Raise e end;
     image_to_string := fun _ _ =>
       match ocr with Ok (_, s) => Ok s | Raise e => Raise e end;
     read_text := fun _ => file;
     chat_create := fun _ _ => reply;
     json_loads := decode;
     clock := fun n =>
       "2024-01-15T10:00:0" ++ String (ascii_of_nat (48 + n)) EmptyString |}.

Definition no_decoder : string -> result pyval :=
  fun _ => Raise "Expecting value: line 1 column 1 (char 0)".

(** No backend configured; every image is blank. *)
Definition blank_image_world : World :=
  sample_world None (Ok ([], "   ")) (Raise "No such file") (Raise "offline")
    no_decoder.

(** No backend configured; no image can be opened. *)
Definition broken_image_world : World :=
  sample_world None (Raise "cannot identify image file")
    (Raise "No such file") (Raise "offline") no_decoder.

(** No backend configured; every image reads [hi] followed by a newline,
    with token confidences 90, 95, -1, 0 and 96. *)
Definition scan_world : World :=
  sample_world None
    (Ok ([90; 95; -1; 0; 96]%Z, "hi" ++ NLPService.nl))
    (Raise "No such file") (Raise "offline") no_decoder.

Definition quarter_text : string :=
  "Great results this quarter, revenue $2.5M, date 2024-01-15".

(** No backend configured; every file holds [quarter_text]. *)
Definition text_file_world : World :=
  sample_world None (Raise "cannot identify image file") (Ok quarter_text)
    (Raise "offline") no_decoder.

(** A backend is configured and replies with the empty JSON object. *)
Definition empty_object_world : World :=
  sample_world (Some "sk-test") (Raise "cannot identify image file")
    (Ok quarter_text) (Ok [Some "{}"])
    (fun s => if String.eqb s "{}" then Ok (PDict []) else no_decoder s).

(** A backend is configured and unreachable. *)
Definition unreachable_world : World :=
  sample_world (Some "sk-test") (Raise "cannot identify image file")
    (Ok quarter_text) (Raise "Connection error.") no_decoder.

(** A trace with one earlier call and five readings of the clock. *)
Definition earlier : Trace :=
  {| calls := ["an earlier prompt"]; ticks := 5 |}.

(** The confidence in the words of the specification: the mean of the
    confidences above 0, rounded to two places, and 0 when there is
    none. *)
Definition mean_confidence (conf : list Z) : pyval :=
  match filter (fun c => (0 <? c)%Z) conf with
  | [] => PInt 0
  | positive =>
      PFloat
        (PyFloat.round2
           (SpecFloat.SFdiv PyFloat.prec PyFloat.emax
              (PyFloat.of_int (fold_left Z.add positive 0%Z))
              (PyFloat.of_int (Z.of_nat (List.length positive)))))
  end.

(** The dictionary of a failed extraction. *)
Definition failed_extraction (e : exn) : dict :=
  [("text", PStr EmptyString); ("confidence", PInt 0);
   ("word_count", PInt 0); ("character_count", PInt 0);
   ("error", PStr e)].

(** The value of [confidence_score]: line 266 of the source. *)
Definition confidence_of (mime_type : string) (ocr_result : option pyval)
  : result pyval :=
  if PyStr.startswith "image/" mime_type then
    match ocr_result with
    | Some o => DocumentProcessor.py_get o "confidence" (PInt 100)
    | None =>
        Raise
          "cannot access local variable 'ocr_result' where it is not associated with a value"
    end
  else Ok (PInt 100).

(** The record [process_document] starts from. *)
Definition initial_record (w : World) (file_path mime_type : string)
  (t : Trace) : dict :=
  [("file_path", PStr file_path);
   ("mime_type", PStr mime_type);
   ("processing_started_at", PStr (clock w (ticks t)));
   ("steps_completed", PList []);
   ("errors", PList [])].

(** The text that reaches the analysis, if any: the text field of an
    extraction without error, or the content of the file, when not
    blank. *)
Definition usable_text (w : World) (file_path mime_type : string)
  : option string :=
  if PyStr.startswith "image/" mime_type then
    match fst (OCRService.extract_text w file_path no_effects) with
    | Ok (PDict o) =>
        if truth (get_default "error" PNone o) then None
        else
          match DocumentProcessor.str_item (PDict o) "text" with
          | Ok s => if PyStr.truthy (PyStr.strip s) then Some s else None
          | Raise _ => None
          end
    | _ => None
    end
  else
    match read_text w file_path with
    | Ok s => if PyStr.truthy (PyStr.strip s) then Some s else None
    | Raise _ => None
    end.

(** The analysis part of the record of a run on the rule-based path, as
    a function of the text that reaches the analysis. *)
Definition pipeline_analysis {order : SetOrder} (text : option string)
  : list (option pyval) :=
  match text with
  | Some s =>
      match NLPService._fallback_analysis s with
      | PDict nlp =>
          [Some (PDict nlp);
           Some (get_default "document_type" (PStr "unknown") nlp);
           Some (get_default "key_entities" (PDict []) nlp);
           Some (get_default "summary" (PStr EmptyString) nlp);
           Some (get_default "sentiment_score" (PInt 0) nlp)]
      | _ => []
      end
  | None => [None; None; None; None; None]
  end.

(** What C1 states of a record: status failed, an error message that
    holds [No text extracted], and the step log [ocr]. *)
Definition failed_without_text (r : dict) : Prop :=
  lookup "status" r = Some (PStr "failed")
  /\ (exists errs m,
         lookup "errors" r = Some (PList errs)
         /\ In (PStr m) errs
         /\ PyStr.contains "No text extracted" m = true)
  /\ lookup "steps_completed" r = Some (PList [PStr "ocr"]).

(** The order of first occurrences is an admissible iteration order. *)
#[export] Instance first_occurrence_order : SetOrder.
Proof.
  refine {| list_of_set := fun l => first_occurrences l [] |}.
  - assert (G : forall l seen,
               NoDup (first_occurrences l seen)
               /\ forall x, In x (first_occurrences l seen) -> ~ In x seen).
    { induction l as [|a l IH]; intros seen; simpl.
      - split; [constructor | intros x []].
      - destruct (existsb (String.eqb a) seen) eqn:E.
        + apply IH.
        + destruct (IH (a :: seen)) as [N F]. split.
          * constructor; [|exact N].
            intros Hin. apply (F a Hin). now left.
          * intros x [<-|Hin] Hs.
            -- assert (existsb (String.eqb a) seen = true) as E'.
               { apply existsb_exists. exists a. split; [exact Hs|].
                 apply String.eqb_refl. }
               congruence.
            -- apply (F x Hin). now right. }
    intros l. apply G.
  - assert (G : forall l seen x,
               In x (first_occurrences l seen) <-> In x l /\ ~ In x seen).
    { induction l as [|a l IH]; intros seen x; simpl.
      - tauto.
      - destruct (existsb (String.eqb a) seen) eqn:E.
        + rewrite IH. apply existsb_exists in E. destruct E as [y [Hy Ey]].
          apply String.eqb_eq in Ey. subst y. split.
          * intros [H1 H2]. tauto.
          * intros [[<-|H1] H2]; [contradiction|tauto].
        + simpl. rewrite IH. simpl.
          assert (~ In a seen) as Na.
          { intros Hs.
            assert (existsb (String.eqb a) seen = true) as E'.
            { apply existsb_exists. exists a. split; [exact Hs|].
              apply String.eqb_refl. }
            congruence. }
          destruct (string_dec a x) as [->|Ne]; [tauto|]. tauto. }
    intros l x. rewrite G. simpl. tauto.
Defined.

(** The reverse of an admissible order is admissible: the iteration
    order of a set is not the same in every interpreter. *)
Definition reversed (order : SetOrder) : SetOrder.
Proof.
  refine {| list_of_set := fun l => rev (@list_of_set order l) |}.
  - intros l. apply NoDup_rev. apply list_of_set_NoDup.
  - intros l x. rewrite <- in_rev. apply list_of_set_In.
Defined.

Definition reverse_occurrence_order : SetOrder :=
  reversed first_occurrence_order.

(** ** Results compared across interpreters *)

(** Two list objects hold the same strings, each once, in some order. *)
Definition same_strings (v1 v2 : option pyval) : Prop :=
  match strings_of v1, strings_of v2 with
  | Some l1, Some l2 => NoDup l1 /\ NoDup l2 /\ Permutation l1 l2
  | _, _ => False
  end.

(** Two entity dictionaries have the same categories in the same order,
    and under each category the same strings. *)
Definition same_entities (v1 v2 : option pyval) : Prop :=
  match v1, v2 with
  | Some (PDict e1), Some (PDict e2) =>
      map fst e1 = map fst e2
      /\ forall k, In k (map fst e1) ->
                   same_strings (lookup k e1) (lookup k e2)
  | _, _ => False
  end.

(** Two analysis results have the same keys in the same order, equal
    values under every key but [key_entities], and the same entities. *)
Definition same_analysis (v1 v2 : pyval) : Prop :=
  match v1, v2 with
  | PDict a1, PDict a2 =>
      map fst a1 = map fst a2
      /\ (forall k, k <> "key_entities" -> lookup k a1 = lookup k a2)
      /\ same_entities (lookup "key_entities" a1) (lookup "key_entities" a2)
  | _, _ => False
  end.

(** The analysis parts of two records agree up to the order of the
    entity lists. *)
Definition same_analysis_fields (r1 r2 : dict) : Prop :=
  match lookup "nlp_result" r1, lookup "nlp_result" r2 with
  | Some v1, Some v2 =>
      same_analysis v1 v2
      /\ same_entities (lookup "key_entities" r1) (lookup "key_entities" r2)
  | None, None => lookup "key_entities" r1 = lookup "key_entities" r2
  | _, _ => False
  end
  /\ lookup "document_type" r1 = lookup "document_type" r2
  /\ lookup "summary" r1 = lookup "summary" r2
  /\ lookup "sentiment_score" r1 = lookup "sentiment_score" r2.

(** No entity pattern has two different matches in the text. *)
Definition single_matches (text : string) : Prop :=
  forall p x y,
    In p [NLPService.date_pattern; NLPService.amount_pattern;
          NLPService.email_pattern] ->
    In x (Re.findall p text) -> In y (Re.findall p text) -> x = y.

(** A text with two dates, and a world whose files hold it; in the
    second world a backend is configured and unreachable. *)
Definition two_dates : string := "1/2/2003 and 3/4/2005".

Definition two_dates_world : World :=
  sample_world None (Raise "cannot identify image file") (Ok two_dates)
    (Raise "offline") no_decoder.

Definition two_dates_unreachable_world : World :=
  sample_world (Some "sk-test") (Raise "cannot identify image file")
    (Ok two_dates) (Raise "Connection error.") no_decoder.

(* ================================================================== *)
(** * Further notions used by the statements *)
(* ================================================================== *)

(** A text is blank when all its characters are spaces. *)
Fixpoint blank (s : string) : bool :=
  match s with
  | EmptyString => true
  | String c s' => PyStr.isspace c && blank s'
  end.

(** Number of occurrences of a character. *)
Fixpoint count_char (c : ascii) (s : string) : nat :=
  match s with
  | EmptyString => 0
  | String a s' => (if Ascii.eqb a c then 1 else 0) + count_char c s'
  end.

(** The place of a label in the order of the classifier. *)
Definition priority (label : string) : nat :=
  if String.eqb label "invoice" then 0
  else if String.eqb label "contract" then 1
  else if String.eqb label "report" then 2
  else if String.eqb label "resume" then 3
  else 4.

(** ** The language of a pattern *)

(** The last character of [u], or [prev] when [u] is empty. *)
Fixpoint last_char (prev : option ascii) (u : string) : option ascii :=
  match u with
  | EmptyString => prev
  | String c u' => last_char (Some c) u'
  end.

(** All characters of [u] belong to the class. *)
Fixpoint all_in (cs : Re.charset) (u : string) : bool :=
  match u with
  | EmptyString => true
  | String c u' => Re.mem c cs && all_in cs u'
  end.

Definition within (hi : option nat) (n : nat) : Prop :=
  match hi with
  | Some h => n <= h
  | None => True
  end.

(** [lang r prev u rest]: the pattern [r] can match the text [u] when
    [u] comes after the character [prev] and before the text [rest]. *)
Fixpoint lang (r : Re.regex) (prev : option ascii) (u rest : string)
  : Prop :=
  match r with
  | Re.RSet cs => exists c, u = String c EmptyString /\ Re.mem c cs = true
  | Re.RRep cs lo hi =>
      all_in cs u = true /\ lo <= String.length u
      /\ within hi (String.length u)
  | Re.RWordB => u = EmptyString /\ Re.at_boundary prev rest = true
  | Re.RSeq r1 r2 =>
      exists u1 u2,
        u = u1 ++ u2
        /\ lang r1 prev u1 (u2 ++ rest)
        /\ lang r2 (last_char prev u1) u2 rest
  | Re.RAlt r1 r2 => lang r1 prev u rest \/ lang r2 prev u rest
  end.

(** The first character of a text satisfies [p]; the last one does. *)
Definition first_is (p : ascii -> bool) (u : string) : bool :=
  match u with
  | String c _ => p c
  | EmptyString => false
  end.

Definition last_is (p : ascii -> bool) (u : string) : bool :=
  match last_char None u with
  | Some c => p c
  | None => false
  end.

(** The least and the greatest length of a text of the language, and the
    characters a text of the language is made of. *)
Fixpoint min_len (r : Re.regex) : nat :=
  match r with
  | Re.RSet _ => 1
  | Re.RRep _ lo _ => lo
  | Re.RWordB => 0
  | Re.RSeq r1 r2 => min_len r1 + min_len r2
  | Re.RAlt r1 r2 => Nat.min (min_len r1) (min_len r2)
  end.

Fixpoint max_len (r : Re.regex) : option nat :=
  match r with
  | Re.RSet _ => Some 1
  | Re.RRep _ _ hi => hi
  | Re.RWordB => Some 0
  | Re.RSeq r1 r2 =>
      match max_len r1, max_len r2 with
      | Some a, Some b => Some (a + b)
      | _, _ => None
      end
  | Re.RAlt r1 r2 =>
      match max_len r1, max_len r2 with
      | Some a, Some b => Some (Nat.max a b)
      | _, _ => None
      end
  end.

Fixpoint alphabet (r : Re.regex) : Re.charset :=
  match r with
  | Re.RSet cs => cs
  | Re.RRep cs _ _ => cs
  | Re.RWordB => []
  | Re.RSeq r1 r2 => (alphabet r1 ++ alphabet r2)%list
  | Re.RAlt r1 r2 => (alphabet r1 ++ alphabet r2)%list
  end.

(** The character is a letter of the basic alphabet or a vertical bar. *)
Definition letter_or_bar (c : ascii) : bool :=
  Re.mem c [Re.CRange "A" "Z"; Re.CChar "|"; Re.CRange "a" "z"].

Definition dollar_or_digit (c : ascii) : bool :=
  Ascii.eqb c "$" || Re.isdigit c.

(** The classes of the address pattern. *)
Definition local_class : Re.charset :=
  [Re.CRange "A" "Z"; Re.CRange "a" "z"; Re.CRange "0" "9"; Re.CChar "."; Re.CChar "_";
   Re.CChar "%"; Re.CChar "+"; Re.CChar "-"].
Definition domain_class : Re.charset :=
  [Re.CRange "A" "Z"; Re.CRange "a" "z"; Re.CRange "0" "9"; Re.CChar "."; Re.CChar "-"].
Definition tld_class : Re.charset :=
  [Re.CRange "A" "Z"; Re.CChar "|"; Re.CRange "a" "z"].

(** The characters that occur in the matches of the three patterns. *)
Definition date_chars : Re.charset := [Re.CDigit; Re.CChar "/"; Re.CChar "-"].
Definition amount_chars : Re.charset :=
  [Re.CDigit; Re.CChar "$"; Re.CChar ","; Re.CChar "."].
Definition email_chars : Re.charset :=
  [Re.CRange "A" "Z"; Re.CRange "a" "z"; Re.CRange "0" "9"; Re.CChar "."; Re.CChar "_";
   Re.CChar "%"; Re.CChar "+"; Re.CChar "-"; Re.CChar "@"; Re.CChar "|"].

(** ** The records of a run *)

(** The record after the first step: with the OCR result and the step
    [ocr] for an image, with the step [text_extraction] for a file. *)
Definition after_extraction (init : dict) (ocr : option dict) : dict :=
  match ocr with
  | Some o =>
      append_to "steps_completed" (PStr "ocr")
        (store "ocr_result" (PDict o) init)
  | None => append_to "steps_completed" (PStr "text_extraction") init
  end.

(** The record after the analysis returned [nlp_result]. *)
Definition analyzed (base : dict) (nlp_result : pyval) (text : string)
  : dict :=
  store "extracted_text" (PStr text)
    (append_to "steps_completed" (PStr "nlp_analysis")
       (store "nlp_result" nlp_result base)).

(** The record of a completed run. *)
Definition completed_record (base : dict) (nlp : dict) (text : string)
  (confidence : pyval) (stamp : string) : dict :=
  store "status" (PStr "completed")
    (store "processing_completed_at" (PStr stamp)
       (store "confidence_score" confidence
          (store "sentiment_score"
             (get_default "sentiment_score" (PInt 0) nlp)
             (store "summary"
                (get_default "summary" (PStr EmptyString) nlp)
                (store "key_entities"
                   (get_default "key_entities" (PDict []) nlp)
                   (store "document_type"
                      (get_default "document_type" (PStr "unknown") nlp)
                      (analyzed base (PDict nlp) text))))))).

(** The record after the [except] clause. *)
Definition failed_record (base : dict) (e : exn) (stamp : string) : dict :=
  store "processing_completed_at" (PStr stamp)
    (store "status" (PStr "failed") (append_to "errors" (PStr e) base)).

Definition is_dict (v : pyval) : bool :=
  match v with PDict _ => true | _ => false end.

(** The outcome of the first step when it yields a text: the OCR result
    (for an image) and the text handed to the second step. *)
Definition extraction (w : World) (path mime : string)
  : option (option dict * string) :=
  if PyStr.startswith "image/" mime then
    match fst (OCRService.extract_text w path no_effects) with
    | Ok (PDict o) =>
        if truth (get_default "error" PNone o) then None
        else
          match DocumentProcessor.str_item (PDict o) "text" with
          | Ok s => Some (Some o, s)
          | Raise _ => None
          end
    | _ => None
    end
  else
    match read_text w path with
    | Ok s => Some (None, s)
    | Raise _ => None
    end.

(** The ways a run of [process_document] from trace [t] can end, with
    the record [r] and the trace [t'] it returns. *)
Inductive run_end {order : SetOrder} (w : World) (path mime : string)
  (t : Trace) (r : dict) (t' : Trace) : Prop :=
| Unreadable (e : exn) :
    PyStr.startswith "image/" mime = false ->
    read_text w path = Raise e ->
    r = failed_record (initial_record w path mime t) e
          (clock w (S (ticks t))) ->
    t' = tick (tick t) ->
    run_end w path mime t r t'
| OcrFailed (o : dict) (e : string) :
    PyStr.startswith "image/" mime = true ->
    fst (OCRService.extract_text w path no_effects) = Ok (PDict o) ->
    lookup "error" o = Some (PStr e) -> e <> EmptyString ->
    r = append_to "errors" (PStr ("OCR failed: " ++ e))
          (after_extraction (initial_record w path mime t) (Some o)) ->
    t' = tick t ->
    run_end w path mime t r t'
| Blank (ocr : option dict) (text : string) :
    extraction w path mime = Some (ocr, text) ->
    PyStr.truthy (PyStr.strip text) = false ->
    r = append_to "errors" (PStr "No text extracted from document")
          (after_extraction (initial_record w path mime t) ocr) ->
    t' = tick t ->
    run_end w path mime t r t'
| Completed (ocr : option dict) (text : string) (nlp : dict)
    (confidence : pyval) (ta : Trace) :
    extraction w path mime = Some (ocr, text) ->
    PyStr.truthy (PyStr.strip text) = true ->
    NLPService.analyze_document w text (tick t) = (Ok (PDict nlp), ta) ->
    confidence_of mime (option_map PDict ocr) = Ok confidence ->
    r = completed_record
          (after_extraction (initial_record w path mime t) ocr)
          nlp text confidence (clock w (ticks ta)) ->
    t' = tick ta ->
    run_end w path mime t r t'
| NotADict (ocr : option dict) (text : string) (v : pyval) (ta : Trace) :
    extraction w path mime = Some (ocr, text) ->
    PyStr.truthy (PyStr.strip text) = true ->
    NLPService.analyze_document w text (tick t) = (Ok v, ta) ->
    is_dict v = false ->
    r = failed_record
          (analyzed (after_extraction (initial_record w path mime t) ocr)
             v text)
          ("'" ++ type_name v ++ "' object has no attribute 'get'")
          (clock w (ticks ta)) ->
    t' = tick ta ->
    run_end w path mime t r t'.

(** The name of the first step for a category. *)
Definition first_step (mime : string) : string :=
  if PyStr.startswith "image/" mime then "ocr" else "text_extraction".

(** A backend is configured and replies with the empty JSON array. *)
Definition array_reply_world : World :=
  sample_world (Some "sk-test") (Raise "cannot identify image file")
    (Ok quarter_text) (Ok [Some "[]"])
    (fun s => if String.eqb s "[]" then Ok (PList []) else no_decoder s).

(** No backend configured; no file can be read. *)
Definition missing_file_world : World :=
  sample_world None (Raise "cannot identify image file")
    (Raise "[Errno 2] No such file or directory: 'q1.txt'")
    (Raise "offline") no_decoder.

(* ================================================================== *)
(** * main.py: the background task *)
(* ================================================================== *)

(** [process_document_task] runs the pipeline for a stored document and
    writes the outcome to the database.  The database session is a
    collaborator: the answer of each of its calls is a field of
    [Session], given the number of calls made on the session before.  A
    [Document] object is the dictionary of its attributes; a time
    [datetime.now()] is held as the string read from the clock.  The
    state of a task records the effects of the pipeline, the number of
    calls made on the session and, for each commit that succeeded, the
    attributes of the document at that time. *)

Module Main.

Import PyStr.

Record Session : Type := {
  query_first : nat -> Z -> result (option dict);
      (* db.query(Document).filter(Document.id == id).first() *)
  commit : nat -> result unit;                      (* db.commit() *)
  close : result unit                               (* db.close() *)
}.

Record TaskState : Type := {
  pipeline : Trace;
  db_calls : nat;
  commits : list dict
}.

Definition db_first (db : Session) (document_id : Z)
  : M TaskState (option dict) :=
  fun s =>
    (query_first db (db_calls s) document_id,
     {| pipeline := pipeline s; db_calls := S (db_calls s);
        commits := commits s |}).

Definition db_commit (db : Session) (document : dict) : M TaskState unit :=
  fun s =>
    match commit db (db_calls s) with
    | Ok u =>
        (Ok u,
         {| pipeline := pipeline s; db_calls := S (db_calls s);
            commits := commits s ++ [document] |})
    | Raise e =>
        (Raise e,
         {| pipeline := pipeline s; db_calls := S (db_calls s);
            commits := commits s |})
    end.

(** [obj[k]] *)
Definition py_index (obj : pyval) (k : string) : result pyval :=
  match obj with
  | PDict d =>
      match lookup k d with
      | Some v => Ok v
      | None => Raise ("'" ++ k ++ "'")
      end
  | _ => Raise ("'" ++ type_name obj ++ "' object is not subscriptable")
  end.

(** [v == s] for a string [s] *)
Definition eq_str (v : pyval) (s : string) : bool :=
  match v with
  | PStr x => String.eqb x s
  | _ => false
  end.

(** [try: m  finally: f] *)
Definition finally {S A} (m : M S A) (f : M S unit) : M S A :=
  fun s =>
    let (r, s') := m s in
    match f s' with
    | (Ok _, s'') => (r, s'')
    | (Raise e, s'') => (Raise e, s'')
    end.

Section WithWorld.

Context {order : SetOrder} (w : World).

(** [datetime.now()] *)
Definition now : M TaskState pyval :=
  fun s =>
    (Ok (PStr (clock w (ticks (pipeline s)))),
     {| pipeline := tick (pipeline s); db_calls := db_calls s;
        commits := commits s |}).

(** [processor.process_document(file_path, mime_type)] *)
Definition run_pipeline (file_path mime_type : string)
  : M TaskState pyval :=
  fun s =>
    let (r, t) :=
      DocumentProcessor.process_document w file_path mime_type (pipeline s)
    in
    (r, {| pipeline := t; db_calls := db_calls s; commits := commits s |}).

(** [document.<k> = result.get(<k>)] *)
Definition copy_field (result : pyval) (k : string) (document : dict)
  : M TaskState dict :=
  v <- of_result (DocumentProcessor.py_get result k PNone) ;;
  ret (store k v document).

(** The body of the [try]. *)
Definition process_document_task_try (db : Session) (document_id : Z)
  (file_path mime_type : string) : M TaskState unit :=
  document <- db_first db document_id ;;
  match document with
  | None => ret tt
  | Some document =>
      let document := store "status" (PStr "processing") document in
      started_at <- now ;;
      let document := store "processing_started_at" started_at document in
      db_commit db document ;;;
      result <- run_pipeline file_path mime_type ;;
      status <- of_result (py_index result "status") ;;
      document <-
        (if eq_str status "completed" then
           let document := store "status" (PStr "completed") document in
           completed_at <- now ;;
           let document :=
             store "processing_completed_at" completed_at document in
           document <- copy_field result "extracted_text" document ;;
           document <- copy_field result "structured_data" document ;;
           document <- copy_field result "confidence_score" document ;;
           document <- copy_field result "document_type" document ;;
           document <- copy_field result "key_entities" document ;;
           document <- copy_field result "summary" document ;;
           document <- copy_field result "sentiment_score" document ;;
           ret document
         else
           let document := store "status" (PStr "failed") document in
           completed_at <- now ;;
           ret (store "processing_completed_at" completed_at document)) ;;
      db_commit db document
  end.

(** The [except Exception as e] clause, with its own [try]. *)
Definition mark_failed (db : Session) (document_id : Z)
  : M TaskState unit :=
  try_except
    (document <- db_first db document_id ;;
     match document with
     | Some document =>
         let document := store "status" (PStr "failed") document in
         completed_at <- now ;;
         let document :=
           store "processing_completed_at" completed_at document in
         db_commit db document
     | None => ret tt
     end)
    (fun update_error => ret tt).

Definition process_document_task (get_db : result Session)
  (document_id : Z) (file_path mime_type : string) : M TaskState unit :=
  db <- of_result get_db ;;
  finally
    (try_except
       (process_document_task_try db document_id file_path mime_type)
       (fun e => mark_failed db document_id))
    (of_result (close db)).

End WithWorld.

End Main.

(** A session whose calls all succeed and which holds one document. *)
Definition sample_session (document : dict) : Main.Session :=
  {| Main.query_first := fun _ _ => Ok (Some document);
     Main.commit := fun _ => Ok tt;
     Main.close := Ok tt |}.

Definition pending_document : dict :=
  [("id", PInt 7); ("filename", PStr "q1.txt");
   ("status", PStr "pending")].

Definition fresh_task : Main.TaskState :=
  {| Main.pipeline := no_effects; Main.db_calls := 0; Main.commits := [] |}.

(** A text with one match of each entity pattern. *)
Definition sample_entities : string :=
  "Contact a@b.com on 2024-01-15 for $1,250.00".

(* ================================================================== *)
(** * Properties of the string primitives *)
(* ================================================================== *)

Section StringFacts.

Import PyStr.

Lemma startswith_lower (p s : string) :
  startswith p s = true -> startswith (lower p) (lower s) = true.
Proof.
  revert s. induction p as [|a p IH]; intros [|b s]; simpl; try easy.
  intros H. apply andb_true_iff in H. destruct H as [Hab Hps].
  apply Ascii.eqb_eq in Hab. subst b.
  rewrite Ascii.eqb_refl. simpl. now apply IH.
Qed.

Lemma contains_lower (needle hay : string) :
  contains needle hay = true -> contains (lower needle) (lower hay) = true.
Proof.
  induction hay as [|c hay IH].
  - simpl. rewrite !orb_false_r. apply (startswith_lower needle EmptyString).
  - intros H.
    change (startswith needle (String c hay) || contains needle hay = true)
      in H.
    change (startswith (lower needle) (lower (String c hay))
            || contains (lower needle) (lower hay) = true).
    apply orb_true_iff in H. apply orb_true_iff. destruct H as [H|H].
    + left. now apply startswith_lower.
    + right. now apply IH.
Qed.

(** A keyword that is its own lower-case form and occurs in a text also
    occurs in the lower-cased text. *)
Lemma contains_lower_keyword (k text : string) :
  lower k = k -> contains k text = true -> contains k (lower text) = true.
Proof.
  intros Hk H. rewrite <- Hk. now apply contains_lower.
Qed.

Lemma any_in_true (words : list string) (text k : string) :
  In k words -> contains k text = true -> NLPService.any_in words text = true.
Proof.
  intros Hin Hc. unfold NLPService.any_in. apply existsb_exists.
  exists k. now split.
Qed.

Lemma any_in_app (ws1 ws2 : list string) (text : string) :
  NLPService.any_in (ws1 ++ ws2) text
  = NLPService.any_in ws1 text || NLPService.any_in ws2 text.
Proof. unfold NLPService.any_in. apply existsb_app. Qed.

Lemma count_in_range (words : list string) (text : string) :
  (0 <= NLPService.count_in words text <= Z.of_nat (List.length words))%Z.
Proof.
  unfold NLPService.count_in. split; [lia|].
  apply Nat2Z.inj_le. apply filter_length_le.
Qed.

Lemma count_in_none (words : list string) (text : string) :
  NLPService.any_in words text = false -> NLPService.count_in words text = 0%Z.
Proof.
  unfold NLPService.any_in, NLPService.count_in.
  induction words as [|k words IH]; simpl; [easy|].
  intros H. apply orb_false_iff in H. destruct H as [Hk Hw].
  rewrite Hk. now apply IH.
Qed.

End StringFacts.

(* ================================================================== *)
(** * The sentiment scorer *)
(* ================================================================== *)

Section Sentiment.

Import PyStr NLPService.

Lemma calculate_sentiment_range (text : string) :
  (-100 <= _calculate_sentiment text <= 100)%Z.
Proof.
  unfold _calculate_sentiment.
  pose proof (count_in_range positive_words (lower text)) as [Hp _].
  pose proof (count_in_range negative_words (lower text)) as [Hn _].
  destruct (Z.ltb_spec (count_in negative_words (lower text))
              (count_in positive_words (lower text)));
    [lia|].
  destruct (Z.ltb_spec (count_in positive_words (lower text))
              (count_in negative_words (lower text)));
    lia.
Qed.

(** C2, as the code has it: a word of a list counts once however often it
    occurs, so that the text [great great good] holds two positive words
    and scores 40. *)
Theorem calculate_sentiment_spec :
  (forall text,
      let p := count_in positive_words (lower text) in
      let n := count_in negative_words (lower text) in
      let score := _calculate_sentiment text in
      ((n < p)%Z -> score = Z.min 100 ((p - n) * 20))
      /\ ((p < n)%Z -> score = Z.max (-100) ((n - p) * -20))
      /\ (p = n -> score = 0%Z)
      /\ (0 <= p <= 7)%Z /\ (0 <= n <= 7)%Z
      /\ (-100 <= score <= 100)%Z
      /\ (any_in (positive_words ++ negative_words) (lower text) = false ->
          score = 0%Z))
  /\ count_in positive_words (lower "great great good") = 2%Z
  /\ count_in negative_words (lower "great great good") = 0%Z
  /\ _calculate_sentiment "great great good" = 40%Z.
Proof.
  split; [|now vm_compute].
  intros text p n score.
  pose proof (count_in_range positive_words (lower text)) as Hp.
  pose proof (count_in_range negative_words (lower text)) as Hn.
  change (Z.of_nat (List.length positive_words)) with 7%Z in Hp.
  change (Z.of_nat (List.length negative_words)) with 7%Z in Hn.
  fold p in Hp. fold n in Hn.
  assert (score =
          if (n <? p)%Z then Z.min 100 ((p - n) * 20)
          else if (p <? n)%Z then Z.max (-100) ((n - p) * -20) else 0%Z)
    as Hs by reflexivity.
  repeat split; try lia; try apply calculate_sentiment_range.
  - intros H. rewrite Hs. destruct (Z.ltb_spec n p); [reflexivity|lia].
  - intros H. rewrite Hs. destruct (Z.ltb_spec n p); [lia|].
    destruct (Z.ltb_spec p n); [reflexivity|lia].
  - intros H. rewrite Hs. destruct (Z.ltb_spec n p); [lia|].
    destruct (Z.ltb_spec p n); [lia|reflexivity].
  - intros H. rewrite any_in_app in H. apply orb_false_iff in H.
    destruct H as [H1 H2].
    rewrite Hs. unfold p, n.
    rewrite (count_in_none _ _ H1), (count_in_none _ _ H2). reflexivity.
Qed.

(** An instance of C2: three positive words and one negative word. *)
Lemma calculate_sentiment_spec_witness :
  _calculate_sentiment "Good and happy, pleased; one problem" = 40%Z.
Proof.
  apply (proj1 (proj1 calculate_sentiment_spec
                  "Good and happy, pleased; one problem")).
  vm_compute. reflexivity.
Defined.

(** C2 at the text of the claim: the score is not 60. *)
Lemma calculate_sentiment_great_great_good :
  _calculate_sentiment "great great good" <> 60%Z.
Proof. vm_compute. discriminate. Qed.

End Sentiment.

(* ================================================================== *)
(** * The document classifier *)
(* ================================================================== *)

Section Classifier.

Import PyStr NLPService.

Lemma detect_document_type_first_match (text : string) :
  _detect_document_type text
  = first_match type_table "general_document" (lower text).
Proof. reflexivity. Qed.

(** In a priority table the first row wins whatever the later rows do. *)
Lemma first_match_head (label : string) (words : list string)
  (rest : list (string * list string)) (default text : string) :
  (exists k, In k words /\ contains k text = true) ->
  first_match ((label, words) :: rest) default text = label.
Proof.
  intros H. apply existsb_exists in H. simpl. now rewrite H.
Qed.

Lemma first_match_skip (label : string) (words : list string)
  (rest : list (string * list string)) (default text : string) :
  (forall k, In k words -> contains k text = false) ->
  first_match ((label, words) :: rest) default text
  = first_match rest default text.
Proof.
  intros H. simpl.
  destruct (existsb (fun keyword => contains keyword text) words) eqn:E;
    [|reflexivity].
  apply existsb_exists in E. destruct E as [k [Hin Hc]].
  rewrite (H k Hin) in Hc. discriminate.
Qed.

Lemma keywords_lower_case :
  forall k,
    In k (invoice_words ++ contract_words ++ report_words ++ resume_words) ->
    lower k = k.
Proof.
  intros k Hin. simpl in Hin.
  repeat (destruct Hin as [<-|Hin]; [reflexivity|]). destruct Hin.
Qed.

(** C8: the classifier tests the lower-cased text against the four
    keyword sets in the order invoice, contract, report, resume.  A
    keyword of a set occurring in the lower-cased text gives the label of
    the set when no keyword of an earlier set occurs; a text in which no
    keyword occurs is a [general_document]; the classifier is the
    first-match classifier over the table; and a text holding an invoice
    keyword and a contract keyword (as it is or once lower-cased) is an
    invoice. *)
Theorem detect_document_type_priority (text : string) :
  let occurs := fun k => contains k (lower text) = true in
  let absent := fun k => contains k (lower text) = false in
  let invoice := ["invoice"; "bill"; "payment"; "amount due"] in
  let contract := ["contract"; "agreement"; "terms"; "conditions"] in
  let report := ["report"; "analysis"; "findings"; "conclusion"] in
  let resume := ["resume"; "cv"; "curriculum vitae"; "experience"] in
  _detect_document_type text
  = first_match type_table "general_document" (lower text)
  /\ (forall ki kc,
         In ki invoice -> In kc contract ->
         contains ki text = true \/ contains ki (lower text) = true ->
         contains kc text = true \/ contains kc (lower text) = true ->
         _detect_document_type text = "invoice")
  /\ (Exists occurs invoice -> _detect_document_type text = "invoice")
  /\ (Forall absent invoice -> Exists occurs contract ->
      _detect_document_type text = "contract")
  /\ (Forall absent (invoice ++ contract) -> Exists occurs report ->
      _detect_document_type text = "report")
  /\ (Forall absent (invoice ++ contract ++ report) ->
      Exists occurs resume ->
      _detect_document_type text = "resume")
  /\ (Forall absent (invoice ++ contract ++ report ++ resume) ->
      _detect_document_type text = "general_document").
Proof.
  intros occurs absent invoice contract report resume.
  split; [reflexivity|].
  rewrite detect_document_type_first_match. unfold type_table.
  fold invoice contract report resume.
  assert (forall words, Exists occurs words ->
                        exists k, In k words
                                  /\ contains k (lower text) = true) as Hex
    by (intros words H; now apply Exists_exists in H).
  assert (forall words, Forall absent words ->
                        forall k, In k words
                                  -> contains k (lower text) = false) as Hall
    by (intros words H; now apply Forall_forall).
  repeat split.
  - intros ki kc Hi _ Hci _.
    apply first_match_head. exists ki. split; [exact Hi|].
    destruct Hci as [H|H]; [|exact H].
    apply contains_lower_keyword; [|exact H].
    apply keywords_lower_case. apply in_or_app. now left.
  - intros H. apply first_match_head. now apply Hex.
  - intros H1 H2.
    rewrite (first_match_skip _ _ _ _ _ (Hall _ H1)).
    apply first_match_head. now apply Hex.
  - intros H H3. apply Forall_app in H. destruct H as [H1 H2].
    rewrite (first_match_skip _ _ _ _ _ (Hall _ H1)),
      (first_match_skip _ _ _ _ _ (Hall _ H2)).
    apply first_match_head. now apply Hex.
  - intros H H4. apply Forall_app in H. destruct H as [H1 H].
    apply Forall_app in H. destruct H as [H2 H3].
    rewrite (first_match_skip _ _ _ _ _ (Hall _ H1)),
      (first_match_skip _ _ _ _ _ (Hall _ H2)),
      (first_match_skip _ _ _ _ _ (Hall _ H3)).
    apply first_match_head. now apply Hex.
  - intros H. apply Forall_app in H. destruct H as [H1 H].
    apply Forall_app in H. destruct H as [H2 H].
    apply Forall_app in H. destruct H as [H3 H4].
    rewrite (first_match_skip _ _ _ _ _ (Hall _ H1)),
      (first_match_skip _ _ _ _ _ (Hall _ H2)),
      (first_match_skip _ _ _ _ _ (Hall _ H3)),
      (first_match_skip _ _ _ _ _ (Hall _ H4)).
    reflexivity.
Qed.

(** Instances of C8: upper-case keywords of both classes; a contract
    without invoice keyword; a resume whose keyword is the last of the
    last set; a text without keyword. *)
Lemma detect_document_type_priority_witness :
  _detect_document_type "CONTRACT for the unpaid Invoice" = "invoice"
  /\ _detect_document_type "Terms of the Agreement" = "contract"
  /\ _detect_document_type "Ten years of EXPERIENCE" = "resume"
  /\ _detect_document_type "Hello, world" = "general_document".
Proof.
  split; [|split; [|split]].
  - apply (proj1 (proj2 (detect_document_type_priority
                           "CONTRACT for the unpaid Invoice"))
             "invoice" "contract").
    + simpl. tauto.
    + simpl. tauto.
    + right. vm_compute. reflexivity.
    + right. vm_compute. reflexivity.
  - apply (proj1 (proj2 (proj2 (proj2 (detect_document_type_priority
                                         "Terms of the Agreement"))))).
    + repeat constructor.
    + apply Exists_cons_tl, Exists_cons_hd. vm_compute. reflexivity.
  - apply (proj1 (proj2 (proj2 (proj2 (proj2 (proj2
             (detect_document_type_priority
                "Ten years of EXPERIENCE"))))))).
    + repeat constructor.
    + do 3 apply Exists_cons_tl. apply Exists_cons_hd.
      vm_compute. reflexivity.
  - apply (proj2 (proj2 (proj2 (proj2 (proj2 (proj2
             (detect_document_type_priority "Hello, world"))))))).
    repeat constructor.
Defined.

End Classifier.

(* ================================================================== *)
(** * The entity heuristics *)
(* ================================================================== *)

Section Entities.

Import PyStr Re NLPService.

Context {order : SetOrder}.

Lemma list_of_set_nil : list_of_set [] = [].
Proof.
  destruct (list_of_set []) as [|a l] eqn:E; [reflexivity|].
  exfalso. apply (proj1 (list_of_set_In [] a)). rewrite E. now left.
Qed.

Lemma list_of_set_singleton (x : string) : list_of_set [x] = [x].
Proof.
  pose proof (list_of_set_NoDup [x]) as N.
  pose proof (list_of_set_In [x]) as I.
  destruct (list_of_set [x]) as [|a l].
  - exfalso. apply (proj2 (I x)). now left.
  - assert (a = x) as ->.
    { destruct (proj1 (I a)) as [H|[]]; [now left|now symmetry]. }
    destruct l as [|b l]; [reflexivity|].
    assert (b = x) as ->.
    { destruct (proj1 (I b)) as [H|[]]; [right; now left|now symmetry]. }
    inversion N as [|? ? Hn _]. exfalso. apply Hn. now left.
Qed.

(** C9: the entities of the sample text, and for every text an empty
    category of names and three categories without duplicates that hold
    exactly the matches of their patterns. *)
Theorem extract_entities_regex_spec :
  _extract_entities_regex "Contact a@b.com on 2024-01-15 for $1,250.00"
  = [("names", PList []);
     ("dates", strings ["2024-01-15"]);
     ("amounts", strings ["$1,250.00"]);
     ("other", strings ["a@b.com"])]
  /\ forall text,
      exists dates amounts other,
        _extract_entities_regex text
        = [("names", PList []); ("dates", strings dates);
           ("amounts", strings amounts); ("other", strings other)]
        /\ NoDup dates /\ NoDup amounts /\ NoDup other
        /\ (forall x, In x dates <-> In x (findall date_pattern text))
        /\ (forall x, In x amounts <-> In x (findall amount_pattern text))
        /\ (forall x, In x other <-> In x (findall email_pattern text)).
Proof.
  split.
  - unfold _extract_entities_regex.
    replace (findall date_pattern _) with ["2024-01-15"]
      by (vm_compute; reflexivity).
    replace (findall amount_pattern _) with ["$1,250.00"]
      by (vm_compute; reflexivity).
    replace (findall email_pattern _) with ["a@b.com"]
      by (vm_compute; reflexivity).
    rewrite !list_of_set_singleton. reflexivity.
  - intros text.
    exists (list_of_set (findall date_pattern text)),
      (list_of_set (findall amount_pattern text)),
      (list_of_set (findall email_pattern text)).
    split; [reflexivity|].
    repeat split; try apply list_of_set_NoDup; apply list_of_set_In.
Qed.

(** C10: the rule-based analysis of the empty text. *)
Theorem fallback_analysis_empty :
  _fallback_analysis EmptyString
  = PDict [("document_type", PStr "general_document");
           ("key_entities",
            PDict [("names", PList []); ("dates", PList []);
                   ("amounts", PList []); ("other", PList [])]);
           ("summary", PStr EmptyString);
           ("sentiment_score", PInt 0)].
Proof.
  unfold _fallback_analysis, _extract_entities_regex.
  replace (findall date_pattern EmptyString) with (@nil string)
    by (vm_compute; reflexivity).
  replace (findall amount_pattern EmptyString) with (@nil string)
    by (vm_compute; reflexivity).
  replace (findall email_pattern EmptyString) with (@nil string)
    by (vm_compute; reflexivity).
  rewrite list_of_set_nil. reflexivity.
Qed.

End Entities.

(* ================================================================== *)
(** * The OCR service *)
(* ================================================================== *)

Section OCR.

Import PyStr PyFloat OCRService.

(** [round_half_even n d] is an integer nearest to [n / d]. *)
Lemma round_half_even_nearest (n d : Z) :
  (0 < d)%Z ->
  (- d <= 2 * (round_half_even n d * d - n) <= d)%Z.
Proof.
  intros Hd. unfold round_half_even.
  pose proof (Z.div_mod n d ltac:(lia)) as Hn.
  pose proof (Z.mod_pos_bound n d Hd) as Hr.
  destruct (Z.ltb_spec (2 * (n mod d)) d); [nia|].
  destruct (Z.ltb_spec d (2 * (n mod d))); [nia|].
  destruct (Z.even (n / d)); nia.
Qed.

(** The hundredths of a float are within half a hundredth of its value
    [m * 2^e]; stated for a negative exponent [- p]. *)
Lemma hundredths_nearest (m p : positive) :
  (- 2 ^ Zpos p
   <= 2 * (hundredths m (Zneg p) * 2 ^ Zpos p - 100 * Zpos m)
   <= 2 ^ Zpos p)%Z.
Proof.
  unfold hundredths. apply round_half_even_nearest.
  apply Z.pow_pos_nonneg; lia.
Qed.

Lemma sum_from (l : list Z) (acc : Z) :
  fold_left Z.add l acc = (acc + sum l)%Z.
Proof.
  unfold sum. revert acc. induction l as [|a l IH]; intros acc; simpl.
  - lia.
  - rewrite IH, (IH a). lia.
Qed.

Lemma sum_cons (a : Z) (l : list Z) : sum (a :: l) = (a + sum l)%Z.
Proof. unfold sum at 1. simpl. now rewrite sum_from. Qed.

Lemma positive_confidences_positive (conf : list Z) :
  Forall (fun c => (0 < c)%Z) (positive_confidences conf).
Proof.
  apply Forall_forall. intros c Hc. apply filter_In in Hc.
  destruct Hc as [_ Hc]. now apply Z.ltb_lt.
Qed.

Lemma positive_confidences_le (conf : list Z) (hi : Z) :
  Forall (fun c => (c <= hi)%Z) conf ->
  Forall (fun c => (c <= hi)%Z) (positive_confidences conf).
Proof.
  rewrite !Forall_forall. intros H c Hc. apply H.
  apply filter_In in Hc. tauto.
Qed.

Lemma sum_between (l : list Z) (lo hi : Z) :
  Forall (fun c => (lo <= c)%Z) l -> Forall (fun c => (c <= hi)%Z) l ->
  (lo * Z.of_nat (List.length l) <= sum l <= hi * Z.of_nat (List.length l))%Z.
Proof.
  induction l as [|a l IH]; intros Hlo Hhi.
  - unfold sum. simpl. lia.
  - inversion Hlo; inversion Hhi; subst. rewrite sum_cons.
    destruct (IH ltac:(assumption) ltac:(assumption)).
    change (List.length (a :: l)) with (S (List.length l)). lia.
Qed.

Lemma overflow_bound_large : (100 < overflow_bound)%Z.
Proof. apply Z.ltb_lt. vm_compute. reflexivity. Qed.

(** The mean of at least one confidence between 1 and 100 is computed
    without a division error. *)
Lemma truediv_mean (l : list Z) :
  l <> [] ->
  Forall (fun c => (0 < c)%Z) l -> Forall (fun c => (c <= 100)%Z) l ->
  truediv (sum l) (Z.of_nat (List.length l))
  = Ok (SpecFloat.SFdiv prec emax (of_int (sum l))
          (of_int (Z.of_nat (List.length l)))).
Proof.
  intros Hne Hpos Hle.
  assert (Forall (fun c => (1 <= c)%Z) l) as Hone.
  { rewrite Forall_forall in *. intros c Hc. specialize (Hpos c Hc). lia. }
  pose proof (sum_between l 1 100 Hone Hle) as [Hlo Hhi].
  assert (0 < Z.of_nat (List.length l))%Z as Hlen.
  { destruct l; [congruence|]. simpl List.length. lia. }
  pose proof overflow_bound_large as Hb.
  unfold truediv.
  destruct (Z.eqb_spec (Z.of_nat (List.length l)) 0); [lia|].
  destruct (Z.leb_spec (Z.abs (Z.of_nat (List.length l)) * overflow_bound)
              (Z.abs (sum l))) as [Hov|_]; [|reflexivity].
  exfalso. rewrite !Z.abs_eq in Hov by lia.
  assert (Z.of_nat (List.length l) * 100
          < Z.of_nat (List.length l) * overflow_bound)%Z
    by (apply Z.mul_lt_mono_pos_l; lia).
  lia.
Qed.

(** The dictionary of an extraction whose engine calls succeed. *)
Lemma extract_text_cases (w : World) (image_path : string) (t : Trace) :
  (exists e,
      extract_text w image_path t = (Ok (PDict (failed_extraction e)), t))
  \/ (exists image conf text confidence,
         decoded w image_path = Ok image
         /\ image_to_data w image tesseract_config = Ok conf
         /\ image_to_string w image tesseract_config = Ok text
         /\ extract_text w image_path t
            = (Ok (PDict
                     [("text", PStr (strip text));
                      ("confidence", confidence);
                      ("word_count",
                       PInt (Z.of_nat (List.length (split_ws text))));
                      ("character_count", PInt (len text))]), t)).
Proof.
  unfold extract_text, try_except, extract_text_try, decoded, bind,
    of_result, ret.
  destruct (image_open w image_path) as [opened|e]; [|left; now exists e].
  destruct (to_rgb w opened) as [image|e]; [|left; now exists e].
  destruct (image_to_data w image tesseract_config) as [conf|e] eqn:Ed;
    [|left; now exists e].
  destruct (positive_confidences conf) as [|c cs].
  - destruct (image_to_string w image tesseract_config) as [text|e] eqn:Et;
      [|left; now exists e].
    right. exists image, conf, text, (PInt 0). now repeat split.
  - destruct (truediv (sum (c :: cs)) (Z.of_nat (List.length (c :: cs))))
      as [q|e]; [|left; now exists e].
    destruct (image_to_string w image tesseract_config) as [text|e] eqn:Et;
      [|left; now exists e].
    right. exists image, conf, text, (PFloat (round2 q)). now repeat split.
Qed.

End OCR.

(* ================================================================== *)
(** * Trimming and splitting *)
(* ================================================================== *)

Section StripFacts.

Import PyStr.

Lemma lstrip_length (s : string) :
  (String.length (lstrip s) <= String.length s)%nat.
Proof.
  induction s as [|c s IH]; simpl; [lia|].
  destruct (isspace c); simpl; lia.
Qed.

Lemma lstrip_same_length (s : string) :
  String.length (lstrip s) = String.length s -> lstrip s = s.
Proof.
  destruct s as [|c s]; simpl; [reflexivity|].
  destruct (isspace c); [|reflexivity].
  pose proof (lstrip_length s). lia.
Qed.

Lemma rstrip_length (s : string) :
  (String.length (rstrip s) <= String.length s)%nat.
Proof.
  induction s as [|c s IH]; simpl; [lia|].
  destruct (rstrip s) as [|d r].
  - destruct (isspace c); simpl; lia.
  - simpl in *. lia.
Qed.

Lemma rstrip_same_length (s : string) :
  String.length (rstrip s) = String.length s -> rstrip s = s.
Proof.
  induction s as [|c s IH]; simpl; [reflexivity|].
  pose proof (rstrip_length s) as L.
  destruct (rstrip s) as [|d r].
  - destruct (isspace c); simpl in *; intros H; [lia|].
    destruct s; [reflexivity|simpl in H; lia].
  - simpl in *. intros H. f_equal. apply IH. lia.
Qed.

Lemma strip_length (s : string) : (len (strip s) <= len s)%Z.
Proof.
  unfold len, strip. apply Nat2Z.inj_le.
  pose proof (rstrip_length (lstrip s)). pose proof (lstrip_length s). lia.
Qed.

Lemma strip_same_length (s : string) : len s = len (strip s) <-> strip s = s.
Proof.
  unfold len, strip. split.
  - intros H. apply Nat2Z.inj in H.
    pose proof (rstrip_length (lstrip s)). pose proof (lstrip_length s).
    rewrite rstrip_same_length by lia. apply lstrip_same_length. lia.
  - intros ->. reflexivity.
Qed.

Lemma split_ws_lstrip (s : string) : split_ws (lstrip s) = split_ws s.
Proof.
  unfold split_ws. induction s as [|c s IH]; simpl; [reflexivity|].
  destruct (isspace c) eqn:E; [exact IH|].
  simpl. now rewrite E.
Qed.

Lemma split_ws_aux_rstrip (s : string) (cur : list ascii) :
  split_ws_aux (rstrip s) cur = split_ws_aux s cur.
Proof.
  revert cur. induction s as [|c s IH]; intros cur; simpl; [reflexivity|].
  destruct (rstrip s) as [|d r].
  - destruct (isspace c) eqn:E.
    + simpl. rewrite <- IH. reflexivity.
    + simpl. rewrite E. rewrite <- IH. reflexivity.
  - change (split_ws_aux (String c (String d r)) cur)
      with (if isspace c then flush cur (split_ws_aux (String d r) [])
            else split_ws_aux (String d r) (c :: cur)).
    now rewrite !IH.
Qed.

(** Trimming does not change the tokens of a text. *)
Lemma split_ws_strip (s : string) : split_ws (strip s) = split_ws s.
Proof.
  unfold strip, split_ws at 1. rewrite split_ws_aux_rstrip.
  apply split_ws_lstrip.
Qed.

End StripFacts.

(* ================================================================== *)
(** * The extraction result *)
(* ================================================================== *)

Section Extraction.

Import PyStr PyFloat OCRService.

Lemma mean_confidence_unfold (conf : list Z) :
  mean_confidence conf
  = match positive_confidences conf with
    | [] => PInt 0
    | positive =>
        PFloat
          (round2
             (SpecFloat.SFdiv prec emax (of_int (sum positive))
                (of_int (Z.of_nat (List.length positive)))))
    end.
Proof. reflexivity. Qed.

(** The extraction of an image that the engine reads, with confidences of
    at most 100. *)
Lemma extract_text_success (w : World) (image_path : string) (t : Trace)
  (image : Image) (conf : list Z) (text : string) :
  decoded w image_path = Ok image ->
  image_to_data w image tesseract_config = Ok conf ->
  image_to_string w image tesseract_config = Ok text ->
  Forall (fun c => (c <= 100)%Z) conf ->
  extract_text w image_path t
  = (Ok (PDict
           [("text", PStr (strip text));
            ("confidence", mean_confidence conf);
            ("word_count", PInt (Z.of_nat (List.length (split_ws text))));
            ("character_count", PInt (len text))]), t).
Proof.
  intros Hd Hc Ht Hle.
  rewrite mean_confidence_unfold.
  unfold extract_text, try_except, extract_text_try, bind, of_result, ret.
  unfold decoded in Hd.
  destruct (image_open w image_path) as [opened|e]; [|discriminate].
  rewrite Hd, Hc.
  pose proof (positive_confidences_positive conf) as Hpos.
  pose proof (positive_confidences_le conf 100 Hle) as Hhi.
  destruct (positive_confidences conf) as [|c cs] eqn:E.
  - now rewrite Ht.
  - rewrite (truediv_mean (c :: cs)) by (congruence || assumption).
    now rewrite Ht.
Qed.

(** C5: when the engine reads the image and reports confidences of at
    most 100, the extraction reports no error and its confidence is the
    mean of the confidences above 0, divided as floats and rounded to two
    places; the division is performed only on a non-empty list and does
    not raise; without a confidence above 0 the confidence is the integer
    0. *)
Theorem extract_text_confidence (w : World) (image_path : string)
  (t : Trace) (image : Image) (conf : list Z) (text : string) :
  decoded w image_path = Ok image ->
  image_to_data w image tesseract_config = Ok conf ->
  image_to_string w image tesseract_config = Ok text ->
  Forall (fun c => (c <= 100)%Z) conf ->
  exists o,
    extract_text w image_path t = (Ok (PDict o), t)
    /\ lookup "error" o = None
    /\ lookup "confidence" o = Some (mean_confidence conf)
    /\ (positive_confidences conf = [] ->
        lookup "confidence" o = Some (PInt 0))
    /\ (positive_confidences conf <> [] ->
        exists q,
          truediv (sum (positive_confidences conf))
            (Z.of_nat (List.length (positive_confidences conf))) = Ok q
          /\ lookup "confidence" o = Some (PFloat (round2 q))).
Proof.
  intros Hd Hc Ht Hle.
  eexists. split; [now apply (extract_text_success w image_path t image conf text)|].
  split; [reflexivity|]. split; [reflexivity|].
  rewrite mean_confidence_unfold. split.
  - intros ->. reflexivity.
  - intros Hne. eexists. split.
    + apply truediv_mean;
        [exact Hne | apply positive_confidences_positive
         | now apply positive_confidences_le].
    + simpl. destruct (positive_confidences conf); [congruence|reflexivity].
Qed.

(** An instance of C5: the confidences 90, 95 and 96 (with -1 and 0 left
    out) have the mean 93.666..., reported as the float nearest to 93.67;
    a blank image has confidence 0. *)
Lemma extract_text_confidence_witness :
  (exists o,
      extract_text scan_world "scan.png" no_effects
      = (Ok (PDict o), no_effects)
      /\ lookup "confidence" o
         = Some (PFloat
                   (SpecFloat.S754_finite false 6591440267121787 (-46))))
  /\ (exists o,
         extract_text blank_image_world "blank.png" no_effects
         = (Ok (PDict o), no_effects)
         /\ lookup "error" o = None
         /\ lookup "confidence" o = Some (PInt 0)).
Proof.
  split.
  - destruct (extract_text_confidence scan_world "scan.png" no_effects
                {| mode := "RGB"; pixels := 0 |}
                [90; 95; -1; 0; 96]%Z ("hi" ++ NLPService.nl))
      as [o [H1 [_ [H3 _]]]].
    + reflexivity.
    + reflexivity.
    + reflexivity.
    + repeat constructor; lia.
    + exists o. split; [exact H1|]. rewrite H3. vm_compute. reflexivity.
  - destruct (extract_text_confidence blank_image_world "blank.png"
                no_effects {| mode := "RGB"; pixels := 0 |} [] "   ")
      as [o [H1 [H2 [_ [H4 _]]]]].
    + reflexivity.
    + reflexivity.
    + reflexivity.
    + constructor.
    + exists o. split; [exact H1|]. split; [exact H2|].
      apply H4. reflexivity.
Defined.

(** C3, as the code has it: the word count is that of the trimmed text
    (trimming does not change the tokens), while the character count is
    the length of the text before trimming, which is the length of the
    trimmed text only if there was nothing to trim.  [raw] is the text of
    the engine, or the empty text when the extraction failed. *)
Theorem extract_text_counts (w : World) (image_path : string) (t : Trace) :
  exists o raw,
    extract_text w image_path t = (Ok (PDict o), t)
    /\ lookup "text" o = Some (PStr (strip raw))
    /\ lookup "word_count" o
       = Some (PInt (Z.of_nat (List.length (split_ws (strip raw)))))
    /\ lookup "character_count" o = Some (PInt (len raw))
    /\ (len (strip raw) <= len raw)%Z
    /\ (len raw = len (strip raw) <-> strip raw = raw)
    /\ ((exists image,
            decoded w image_path = Ok image
            /\ image_to_string w image tesseract_config = Ok raw)
        \/ (raw = EmptyString /\ lookup "error" o <> None)).
Proof.
  destruct (extract_text_cases w image_path t)
    as [[e H]|[image [conf [text [c [Hd [Hc [Ht H]]]]]]]].
  - exists (failed_extraction e), EmptyString.
    split; [exact H|]. repeat split; try reflexivity; try (simpl; lia).
    right. split; [reflexivity|discriminate].
  - eexists. exists text. split; [exact H|].
    split; [reflexivity|]. split; [now rewrite split_ws_strip|].
    split; [reflexivity|]. split; [apply strip_length|].
    split; [apply strip_same_length|].
    left. now exists image.
Qed.

(** C3 at an image read as [hi] and a newline: the text field is [hi],
    of length 2, and the character count is 3. *)
Lemma extract_text_character_count_untrimmed :
  exists o,
    extract_text scan_world "scan.png" no_effects
    = (Ok (PDict o), no_effects)
    /\ lookup "text" o = Some (PStr "hi")
    /\ lookup "character_count" o = Some (PInt 3)
    /\ lookup "character_count" o <> Some (PInt (len "hi")).
Proof.
  eexists. split; [vm_compute; reflexivity|].
  repeat split. vm_compute. discriminate.
Qed.

End Extraction.

(* ================================================================== *)
(** * The analysis engine *)
(* ================================================================== *)

Section Analysis.

Import PyStr NLPService.

Context {order : SetOrder}.

Lemma analyze_document_no_client (w : World) (text : string) (t : Trace) :
  client w = None ->
  analyze_document w text t = (Ok (_fallback_analysis text), t).
Proof. intros H. unfold analyze_document. now rewrite H. Qed.

Lemma analyze_document_client (w : World) (text : string) (t : Trace)
  (key : string) :
  client w = Some key ->
  analyze_document w text t
  = (Ok match remote_reply w (List.length (calls t)) text with
        | Ok parsed => parsed
        | Raise _ => _fallback_analysis text
        end,
     {| calls := calls t ++ [prompt text]; ticks := ticks t |}).
Proof.
  intros H. unfold analyze_document. rewrite H.
  unfold try_except, bind, create, of_result, ret, remote_reply.
  destruct (chat_create w (List.length (calls t)) (prompt text))
    as [choices|e]; [|reflexivity].
  destruct (first_content choices) as [content|e]; [|reflexivity].
  destruct (loads w content) as [parsed|e]; reflexivity.
Qed.

(** Whenever the rule-based path is the one taken, the analysis is the
    rule-based analysis of the text. *)
Lemma analyze_document_fallback (w : World) (text : string) (t : Trace) :
  fallback_active w t text ->
  fst (analyze_document w text t) = Ok (_fallback_analysis text)
  /\ ticks (snd (analyze_document w text t)) = ticks t.
Proof.
  intros [H|H].
  - now rewrite analyze_document_no_client.
  - destruct (client w) as [key|] eqn:E.
    + rewrite (analyze_document_client w text t key E).
      unfold remote_fails in H.
      destruct (remote_reply w (List.length (calls t)) text);
        [discriminate|]. now split.
    + now rewrite analyze_document_no_client.
Qed.

Lemma fallback_analysis_shape (text : string) :
  is_analysis_result (_fallback_analysis text) = true.
Proof. reflexivity. Qed.

(** C7, as the code has it: the call always returns; without a client it
    returns the rule-based analysis and leaves the trace as it was (no
    call to the backend); with a client it makes one call, and returns
    the rule-based analysis when the call, the access to the first choice
    or the decoding raises, and otherwise the decoded reply as it is.
    The rule-based analysis has the shape of an AnalysisResult. *)
Theorem analyze_document_never_raises (w : World) (text : string)
  (t : Trace) :
  exists v t',
    analyze_document w text t = (Ok v, t')
    /\ ticks t' = ticks t
    /\ (client w = None -> v = _fallback_analysis text /\ t' = t)
    /\ (client w <> None ->
        calls t' = (calls t ++ [prompt text])%list
        /\ match remote_reply w (List.length (calls t)) text with
           | Raise _ => v = _fallback_analysis text
           | Ok parsed => v = parsed
           end)
    /\ is_analysis_result (_fallback_analysis text) = true.
Proof.
  destruct (client w) as [key|] eqn:E.
  - rewrite (analyze_document_client w text t key E).
    eexists. eexists. split; [reflexivity|]. split; [reflexivity|].
    split; [discriminate|]. split; [|reflexivity].
    intros _. split; [reflexivity|].
    now destruct (remote_reply w (List.length (calls t)) text).
  - rewrite (analyze_document_no_client w text t E).
    exists (_fallback_analysis text), t. repeat split; congruence.
Qed.

End Analysis.

(* ================================================================== *)
(** * The steps of the pipeline *)
(* ================================================================== *)

Section Steps.

Import PyStr NLPService DocumentProcessor.

Context {order : SetOrder}.

Ltac run_monad :=
  unfold try_except, bind, ret, of_result, lift, set_key, append, modify,
    raise, now_isoformat;
  cbv beta; cbn [record effects calls ticks fst snd].

Lemma step_extract_file (w : World) (path mime : string) (f : Frame)
  (text : string) :
  startswith "image/" mime = false -> read_text w path = Ok text ->
  step_extract w path mime f
  = (Ok (Some (None, text)),
     {| record :=
          append_to "steps_completed" (PStr "text_extraction") (record f);
        effects := effects f |}).
Proof.
  intros Hm Hr. unfold step_extract. rewrite Hm. run_monad. now rewrite Hr.
Qed.

Lemma step_extract_file_error (w : World) (path mime : string) (f : Frame)
  (e : exn) :
  startswith "image/" mime = false -> read_text w path = Raise e ->
  step_extract w path mime f = (Raise e, f).
Proof.
  intros Hm Hr. unfold step_extract. rewrite Hm. run_monad. now rewrite Hr.
Qed.

Lemma step_extract_image (w : World) (path mime : string) (f : Frame)
  (o : dict) :
  startswith "image/" mime = true ->
  OCRService.extract_text w path (effects f) = (Ok (PDict o), effects f) ->
  step_extract w path mime f
  = let logged :=
      append_to "steps_completed" (PStr "ocr")
        (store "ocr_result" (PDict o) (record f)) in
    if truth (get_default "error" PNone o) then
      match str_item (PDict o) "error" with
      | Ok message =>
          (Ok None,
           {| record :=
                append_to "errors" (PStr ("OCR failed: " ++ message)) logged;
              effects := effects f |})
      | Raise e => (Raise e, {| record := logged; effects := effects f |})
      end
    else
      match str_item (PDict o) "text" with
      | Ok text =>
          (Ok (Some (Some (PDict o), text)),
           {| record := logged; effects := effects f |})
      | Raise e => (Raise e, {| record := logged; effects := effects f |})
      end.
Proof.
  intros Hm He. unfold step_extract. rewrite Hm. run_monad. rewrite He.
  unfold py_get.
  destruct (truth (get_default "error" PNone o)).
  - now destruct (str_item (PDict o) "error").
  - now destruct (str_item (PDict o) "text").
Qed.

Lemma step_analyze_blank (w : World) (mime : string) (ocr : option pyval)
  (text : string) (f : Frame) :
  truthy (strip text) = false ->
  step_analyze w mime ocr text f
  = (Ok tt,
     {| record :=
          append_to "errors" (PStr "No text extracted from document")
            (record f);
        effects := effects f |}).
Proof. intros H. unfold step_analyze. now rewrite H. Qed.

Lemma step_analyze_dict (w : World) (mime : string) (ocr : option pyval)
  (text : string) (f : Frame) (nlp : dict) (t' : Trace) (c : pyval) :
  truthy (strip text) = true ->
  analyze_document w text (effects f) = (Ok (PDict nlp), t') ->
  confidence_of mime ocr = Ok c ->
  step_analyze w mime ocr text f
  = (Ok tt,
     {| record :=
          store "status" (PStr "completed")
            (store "processing_completed_at" (PStr (clock w (ticks t')))
               (store "confidence_score" c
                  (store "sentiment_score"
                     (get_default "sentiment_score" (PInt 0) nlp)
                     (store "summary"
                        (get_default "summary" (PStr EmptyString) nlp)
                        (store "key_entities"
                           (get_default "key_entities" (PDict []) nlp)
                           (store "document_type"
                              (get_default "document_type" (PStr "unknown")
                                 nlp)
                              (store "extracted_text" (PStr text)
                                 (append_to "steps_completed"
                                    (PStr "nlp_analysis")
                                    (store "nlp_result" (PDict nlp)
                                       (record f))))))))));
        effects := tick t' |}).
Proof.
  intros Hs Ha Hc. unfold step_analyze. rewrite Hs. run_monad. rewrite Ha.
  unfold py_get at 1 2 3 4. cbv iota. unfold confidence_of in Hc.
  destruct (startswith "image/" mime).
  - destruct ocr as [o|]; [|discriminate]. run_monad. now rewrite Hc.
  - injection Hc as <-. reflexivity.
Qed.

Lemma on_exception_run (w : World) (e : exn) (f : Frame) :
  on_exception w e f
  = (Ok tt,
     {| record :=
          store "processing_completed_at"
            (PStr (clock w (ticks (effects f))))
            (store "status" (PStr "failed")
               (append_to "errors" (PStr e) (record f)));
        effects := tick (effects f) |}).
Proof. reflexivity. Qed.

(** [process_document] in terms of its steps. *)
Lemma process_document_steps (w : World) (path mime : string) (t : Trace) :
  process_document w path mime t
  = let init :=
      {| record := initial_record w path mime t; effects := tick t |} in
    match step_extract w path mime init with
    | (Ok None, f) => (Ok (PDict (record f)), effects f)
    | (Ok (Some (ocr, text)), f) =>
        match step_analyze w mime ocr text f with
        | (Ok _, f') => (Ok (PDict (record f')), effects f')
        | (Raise e, f') =>
            let f'' := snd (on_exception w e f') in
            (Ok (PDict (record f'')), effects f'')
        end
    | (Raise e, f) =>
        let f'' := snd (on_exception w e f) in
        (Ok (PDict (record f'')), effects f'')
    end.
Proof.
  unfold process_document, steps, try_except, bind at 1, now_isoformat at 1.
  cbv beta iota. fold (tick t). fold (initial_record w path mime t).
  unfold bind.
  destruct (step_extract w path mime _) as [[[[ocr text]|]|e] f];
    cbv iota beta.
  - destruct (step_analyze w mime ocr text f) as [[u|e] f']; reflexivity.
  - reflexivity.
  - reflexivity.
Qed.

End Steps.

(* ================================================================== *)
(** * Runs of the pipeline *)
(* ================================================================== *)

Section Pipeline.

Import PyStr Re NLPService DocumentProcessor.

Context {order : SetOrder}.

(** The extraction has no effect and does not depend on the trace. *)
Lemma extract_text_pure (w : World) (path : string) (t : Trace) :
  OCRService.extract_text w path t
  = (fst (OCRService.extract_text w path no_effects), t).
Proof.
  unfold OCRService.extract_text, try_except, OCRService.extract_text_try,
    bind, of_result, ret.
  destruct (image_open w path) as [opened|e]; [|reflexivity].
  destruct (OCRService.to_rgb w opened) as [image|e]; [|reflexivity].
  destruct (image_to_data w image OCRService.tesseract_config) as [conf|e];
    [|reflexivity].
  destruct (OCRService.positive_confidences conf) as [|c cs].
  - destruct (image_to_string w image OCRService.tesseract_config);
      reflexivity.
  - destruct (PyFloat.truediv _ _); [|reflexivity].
    destruct (image_to_string w image OCRService.tesseract_config);
      reflexivity.
Qed.

Lemma extract_text_dict (w : World) (path : string) :
  exists o, fst (OCRService.extract_text w path no_effects) = Ok (PDict o).
Proof.
  destruct (extract_text_cases w path no_effects)
    as [[e H]|[image [conf [text [c [_ [_ [_ H]]]]]]]];
    rewrite H; eexists; reflexivity.
Qed.

(** The rule-based analysis of the sample text of C4. *)
Lemma fallback_analysis_quarter :
  _fallback_analysis quarter_text
  = PDict [("document_type", PStr "general_document");
           ("key_entities",
            PDict [("names", PList []);
                   ("dates", strings ["2024-01-15"]);
                   ("amounts", strings ["$2.5"]);
                   ("other", PList [])]);
           ("summary", PStr quarter_text);
           ("sentiment_score", PInt 20)].
Proof.
  unfold _fallback_analysis, _extract_entities_regex.
  replace (findall date_pattern quarter_text) with ["2024-01-15"]
    by (vm_compute; reflexivity).
  replace (findall amount_pattern quarter_text) with ["$2.5"]
    by (vm_compute; reflexivity).
  replace (findall email_pattern quarter_text) with (@nil string)
    by (vm_compute; reflexivity).
  rewrite !list_of_set_singleton, list_of_set_nil. reflexivity.
Qed.

(** C1, as the code has it: for an image, after an extraction that
    reports a non-empty error the run returns a record with the step log
    [ocr] and the single error [OCR failed:] followed by the error; after
    an extraction without such an error whose text is blank it returns a
    record with the step log [ocr] and the single error
    [No text extracted from document].  In both cases the analysis has
    not run and the backend has not been called. *)
Theorem process_document_image_without_text (w : World)
  (path mime : string) (t : Trace) (o : dict) :
  startswith "image/" mime = true ->
  fst (OCRService.extract_text w path no_effects) = Ok (PDict o) ->
  (forall e,
      lookup "error" o = Some (PStr e) -> e <> EmptyString ->
      exists r,
        process_document w path mime t = (Ok (PDict r), tick t)
        /\ lookup "steps_completed" r = Some (strings ["ocr"])
        /\ lookup "errors" r = Some (strings ["OCR failed: " ++ e])
        /\ lookup "nlp_result" r = None)
  /\ (forall s,
         truth (get_default "error" PNone o) = false ->
         lookup "text" o = Some (PStr s) -> strip s = EmptyString ->
         exists r,
           process_document w path mime t = (Ok (PDict r), tick t)
           /\ lookup "steps_completed" r = Some (strings ["ocr"])
           /\ lookup "errors" r
              = Some (strings ["No text extracted from document"])
           /\ lookup "nlp_result" r = None).
Proof.
  intros Hm Ho.
  assert (OCRService.extract_text w path (tick t) = (Ok (PDict o), tick t))
    as He by (rewrite extract_text_pure; now rewrite Ho).
  pose proof (step_extract_image w path mime
                {| record := initial_record w path mime t;
                   effects := tick t |} o Hm He) as Hx.
  cbv zeta in Hx. cbn [record effects] in Hx.
  split.
  - intros e El Hne.
    rewrite process_document_steps. cbv zeta. rewrite Hx.
    unfold get_default, str_item. rewrite El.
    destruct e as [|c e]; [congruence|]. cbn [truth truthy].
    eexists. split; [reflexivity|]. now repeat split.
  - intros s Et El Hs.
    rewrite process_document_steps. cbv zeta. rewrite Hx, Et.
    unfold str_item. rewrite El.
    rewrite step_analyze_blank by now rewrite Hs.
    eexists. split; [reflexivity|]. now repeat split.
Qed.

(** C4: the text file of the specification, with no backend configured. *)
Theorem process_document_quarter_text (w : World) (path mime : string)
  (t : Trace) :
  startswith "image/" mime = false ->
  read_text w path = Ok quarter_text ->
  client w = None ->
  exists r,
    process_document w path mime t = (Ok (PDict r), tick (tick t))
    /\ lookup "status" r = Some (PStr "completed")
    /\ lookup "document_type" r = Some (PStr "general_document")
    /\ any_in report_words (lower quarter_text) = false
    /\ (exists score,
           lookup "sentiment_score" r = Some (PInt score) /\ (0 < score)%Z)
    /\ (exists entities dates amounts,
           lookup "key_entities" r = Some (PDict entities)
           /\ strings_of (lookup "dates" entities) = Some dates
           /\ In "2024-01-15" dates
           /\ strings_of (lookup "amounts" entities) = Some amounts
           /\ amounts = findall amount_pattern "$2.5M"
           /\ amounts = ["$2.5"]
           /\ ~ In "$2.5M" amounts)
    /\ lookup "steps_completed" r
       = Some (strings ["text_extraction"; "nlp_analysis"])
    /\ lookup "errors" r = Some (PList [])
    /\ lookup "confidence_score" r = Some (PInt 100).
Proof.
  intros Hm Hr Hc.
  rewrite process_document_steps. cbv zeta.
  rewrite (step_extract_file w path mime _ quarter_text Hm Hr).
  cbn [record effects].
  pose proof (analyze_document_no_client w quarter_text (tick t) Hc) as Ha.
  rewrite fallback_analysis_quarter in Ha.
  erewrite step_analyze_dict;
    [ | reflexivity | exact Ha | unfold confidence_of; now rewrite Hm ].
  eexists. split; [reflexivity|].
  split; [reflexivity|]. split; [reflexivity|].
  split; [vm_compute; reflexivity|].
  split; [exists 20%Z; split; [reflexivity|lia]|].
  split; [|now repeat split].
  eexists. exists ["2024-01-15"], ["$2.5"].
  split; [reflexivity|]. split; [reflexivity|]. split; [now left|].
  split; [reflexivity|]. split; [vm_compute; reflexivity|].
  split; [reflexivity|].
  intros [H|[]]. discriminate.
Qed.

(** ** Independence of the analysis from the world *)

Lemma analyze_document_on_fallback (w : World) (text : string) (t : Trace) :
  fallback_active w t text ->
  exists t',
    analyze_document w text t = (Ok (_fallback_analysis text), t').
Proof.
  intros H. destruct (analyze_document_fallback w text t H) as [H1 _].
  destruct (analyze_document w text t) as [v t']. simpl in H1. subst v.
  now exists t'.
Qed.

Lemma process_document_on_fallback (w : World) (path mime : string)
  (t : Trace) :
  (forall text, fallback_active w t text) ->
  exists r,
    returned (process_document w path mime t) = Some r
    /\ analysis_of r = pipeline_analysis (usable_text w path mime).
Proof.
  intros Hf.
  assert (forall text, exists t',
             analyze_document w text (tick t)
             = (Ok (_fallback_analysis text), t')) as Ha.
  { intros text. apply analyze_document_on_fallback. exact (Hf text). }
  rewrite process_document_steps. cbv zeta. unfold usable_text.
  destruct (startswith "image/" mime) eqn:Hm.
  - destruct (extract_text_dict w path) as [o Ho]. rewrite Ho.
    assert (OCRService.extract_text w path (tick t)
            = (Ok (PDict o), tick t))
      as He by (rewrite extract_text_pure; now rewrite Ho).
    rewrite (step_extract_image w path mime
               {| record := initial_record w path mime t;
                  effects := tick t |} o Hm He).
    cbv zeta. cbn [record effects].
    destruct (truth (get_default "error" PNone o)).
    + destruct (str_item (PDict o) "error") as [message|e];
        eexists; split; reflexivity.
    + destruct (str_item (PDict o) "text") as [s|e];
        [|eexists; split; reflexivity].
      destruct (truthy (strip s)) eqn:Es.
      * destruct (Ha s) as [t' Hs]. unfold _fallback_analysis in Hs.
        erewrite step_analyze_dict;
          [ | exact Es | exact Hs
            | unfold confidence_of, py_get; rewrite Hm; reflexivity ].
        eexists. split; reflexivity.
      * rewrite step_analyze_blank by exact Es.
        eexists. split; reflexivity.
  - destruct (read_text w path) as [s|e] eqn:Hr.
    + rewrite (step_extract_file w path mime _ s Hm Hr).
      cbn [record effects].
      destruct (truthy (strip s)) eqn:Es.
      * destruct (Ha s) as [t' Hs]. unfold _fallback_analysis in Hs.
        erewrite step_analyze_dict;
          [ | exact Es | exact Hs
            | unfold confidence_of; rewrite Hm; reflexivity ].
        eexists. split; reflexivity.
      * rewrite step_analyze_blank by exact Es.
        eexists. split; reflexivity.
    + rewrite (step_extract_file_error w path mime _ e Hm Hr).
      eexists. split; reflexivity.
Qed.

Lemma extract_text_same_documents (w1 w2 : World) (path : string) :
  same_documents w1 w2 ->
  fst (OCRService.extract_text w1 path no_effects)
  = fst (OCRService.extract_text w2 path no_effects).
Proof.
  intros (Ho & Hc & Hd & Hs & _).
  unfold OCRService.extract_text, try_except, OCRService.extract_text_try,
    bind, of_result, ret, OCRService.to_rgb.
  rewrite <- Ho.
  destruct (image_open w1 path) as [opened|e]; [|reflexivity].
  rewrite <- Hc.
  destruct (if negb (mode opened =? "RGB")%string
            then image_convert w1 opened "RGB" else Ok opened)
    as [image|e]; [|reflexivity].
  rewrite <- Hd.
  destruct (image_to_data w1 image OCRService.tesseract_config)
    as [conf|e]; [|reflexivity].
  rewrite <- Hs.
  destruct (OCRService.positive_confidences conf) as [|c cs].
  - destruct (image_to_string w1 image OCRService.tesseract_config);
      reflexivity.
  - destruct (PyFloat.truediv _ _); [|reflexivity].
    destruct (image_to_string w1 image OCRService.tesseract_config);
      reflexivity.
Qed.

Lemma usable_text_same_documents (w1 w2 : World) (path mime : string) :
  same_documents w1 w2 -> usable_text w1 path mime = usable_text w2 path mime.
Proof.
  intros H. unfold usable_text.
  rewrite (extract_text_same_documents w1 w2 path H).
  destruct H as (_ & _ & _ & _ & Hr). now rewrite Hr.
Qed.

(** Under one iteration order the analysis on the rule-based path does
    not depend on the world, on the trace or on the time of the call. *)
Lemma fallback_same_order :
  (forall w1 w2 t1 t2 text,
      fallback_active w1 t1 text -> fallback_active w2 t2 text ->
      fst (analyze_document w1 text t1) = fst (analyze_document w2 text t2)
      /\ fst (analyze_document w1 text t1) = Ok (_fallback_analysis text))
  /\ (forall w1 w2 t1 t2 path mime,
         same_documents w1 w2 ->
         (forall text, fallback_active w1 t1 text) ->
         (forall text, fallback_active w2 t2 text) ->
         exists r1 r2,
           returned (process_document w1 path mime t1) = Some r1
           /\ returned (process_document w2 path mime t2) = Some r2
           /\ analysis_of r1 = analysis_of r2).
Proof.
  split.
  - intros w1 w2 t1 t2 text H1 H2.
    destruct (analyze_document_fallback w1 text t1 H1) as [E1 _].
    destruct (analyze_document_fallback w2 text t2 H2) as [E2 _].
    split; congruence.
  - intros w1 w2 t1 t2 path mime Hd H1 H2.
    destruct (process_document_on_fallback w1 path mime t1 H1)
      as [r1 [R1 A1]].
    destruct (process_document_on_fallback w2 path mime t2 H2)
      as [r2 [R2 A2]].
    exists r1, r2. split; [exact R1|]. split; [exact R2|].
    rewrite A1, A2. now rewrite (usable_text_same_documents w1 w2).
Qed.

End Pipeline.

(* ================================================================== *)
(** * The library models on sample inputs *)
(* ================================================================== *)

(** Values computed by the interpreter, for the models of [re], [str]
    and [float]. *)

Section Conformance.

Import PyStr Re NLPService PyFloat SpecFloat.

Example findall_dates :
  findall date_pattern "12/31/2024 1-2-34567 2024-1-5x 1/2/03/04/05"
  = ["12/31/2024"; "1/2/03"].
Proof. vm_compute. reflexivity. Qed.

Example findall_amounts :
  findall amount_pattern "3.14 3.141 $ $, $1. x$5,,.7 99.99.99"
  = ["3.14"; "$,"; "$1."; "$5,,.7"; "99.99"].
Proof. vm_compute. reflexivity. Qed.

Example findall_emails :
  findall email_pattern "a.b@c.de.f foo@bar.c|m x@y.z"
  = ["a.b@c.de"; "foo@bar.c|m"].
Proof. vm_compute. reflexivity. Qed.

Example findall_amount_abbreviated :
  findall amount_pattern "$2.5M" = ["$2.5"].
Proof. vm_compute. reflexivity. Qed.

Example split_and_strip :
  split_ws "  a b  " = ["a"; "b"]
  /\ split_on "." "a.b..c." = ["a"; "b"; EmptyString; "c"; EmptyString]
  /\ split_on "." EmptyString = [EmptyString]
  /\ strip "  a b  " = "a b".
Proof. vm_compute. now repeat split. Qed.

Example summary_of_sentences :
  _generate_summary "One. Two. Three. Four" = "One.  Two."
  /\ _generate_summary "One. Two. Three" = "One. Two. Three".
Proof. vm_compute. now split. Qed.

(** [281 / 3] and [round(281 / 3, 2)], the float nearest to 93.67. *)
Example mean_of_three :
  truediv 281 3 = Ok (S754_finite false 6591205704641195 (-46))
  /\ round2 (S754_finite false 6591205704641195 (-46))
     = S754_finite false 6591440267121787 (-46).
Proof. vm_compute. now split. Qed.

(** [round(2.675, 2)] is 2.67: the float 2.675 lies below the tie;
    [round(0.125, 2)] is 0.12: an exact tie goes to the even digit. *)
Example round_near_ties :
  round2 (S754_finite false 6023564501608038 (-51))
  = S754_finite false 6012305502539612 (-51)
  /\ round2 (S754_finite false 4503599627370496 (-55))
     = S754_finite false 8646911284551352 (-56).
Proof. vm_compute. now split. Qed.

Example division_errors :
  truediv 1 0 = Raise "division by zero"
  /\ truediv (2 ^ 1024) 1
     = Raise "integer division result too large for a float".
Proof. vm_compute. now split. Qed.

End Conformance.

(* ================================================================== *)
(** * Runs in the sample worlds *)
(* ================================================================== *)

(** The runs below use the order of first occurrences. *)

Section Samples.

Import PyStr Re NLPService DocumentProcessor.

(** C7 at a backend that replies with the empty JSON object: the call
    returns the empty dictionary, which is no AnalysisResult. *)
Lemma analyze_document_returns_reply_unchecked :
  fst (analyze_document empty_object_world quarter_text no_effects)
  = Ok (PDict [])
  /\ is_analysis_result (PDict []) = false.
Proof. split; vm_compute; reflexivity. Qed.

(** The reply is returned as it is, and the orchestrator fills the
    fields it lacks with its defaults. *)
Example process_document_empty_object :
  exists r,
    returned
      (process_document empty_object_world "q1.txt" "text/plain" no_effects)
    = Some r
    /\ lookup "status" r = Some (PStr "completed")
    /\ lookup "nlp_result" r = Some (PDict [])
    /\ lookup "document_type" r = Some (PStr "unknown")
    /\ lookup "key_entities" r = Some (PDict [])
    /\ lookup "sentiment_score" r = Some (PInt 0).
Proof. eexists. split; [vm_compute; reflexivity|]. now repeat split. Qed.

(** Instances of C1: an image that cannot be opened, and a blank image. *)
Lemma process_document_image_without_text_witness :
  (exists r,
      process_document broken_image_world "scan.png" "image/png" no_effects
      = (Ok (PDict r), tick no_effects)
      /\ lookup "steps_completed" r = Some (strings ["ocr"])
      /\ lookup "errors" r
         = Some (strings ["OCR failed: cannot identify image file"])
      /\ lookup "nlp_result" r = None)
  /\ (exists r,
         process_document blank_image_world "blank.png" "image/png"
           no_effects
         = (Ok (PDict r), tick no_effects)
         /\ lookup "steps_completed" r = Some (strings ["ocr"])
         /\ lookup "errors" r
            = Some (strings ["No text extracted from document"])
         /\ lookup "nlp_result" r = None).
Proof.
  split.
  - apply (proj1 (process_document_image_without_text broken_image_world
                    "scan.png" "image/png" no_effects
                    (failed_extraction "cannot identify image file")
                    eq_refl eq_refl)
             "cannot identify image file").
    + reflexivity.
    + discriminate.
  - apply (proj2 (process_document_image_without_text blank_image_world
                    "blank.png" "image/png" no_effects
                    [("text", PStr EmptyString); ("confidence", PInt 0);
                     ("word_count", PInt 0); ("character_count", PInt 3)]
                    eq_refl eq_refl)
             EmptyString).
    + reflexivity.
    + reflexivity.
    + reflexivity.
Defined.

(** C1 at an image that cannot be opened: the record has no status and
    its only error is the OCR failure, so it is not as C1 states. *)
Lemma process_document_ocr_failure_record :
  exists r,
    returned
      (process_document broken_image_world "scan.png" "image/png" no_effects)
    = Some r
    /\ lookup "errors" r
       = Some (strings ["OCR failed: cannot identify image file"])
    /\ lookup "status" r = None
    /\ ~ failed_without_text r.
Proof.
  eexists. split; [vm_compute; reflexivity|].
  split; [reflexivity|]. split; [reflexivity|].
  intros [_ [[errs [m [He [Hin Hc]]]] _]].
  vm_compute in He. injection He as <-.
  destruct Hin as [[= <-]|[]].
  vm_compute in Hc. discriminate.
Qed.

(** An instance of C4. *)
Lemma process_document_quarter_text_witness :
  exists r,
    process_document text_file_world "q1.txt" "text/plain" no_effects
    = (Ok (PDict r), tick (tick no_effects))
    /\ lookup "status" r = Some (PStr "completed")
    /\ lookup "document_type" r = Some (PStr "general_document")
    /\ lookup "sentiment_score" r = Some (PInt 20)
    /\ lookup "key_entities" r
       = Some (PDict [("names", PList []);
                      ("dates", strings ["2024-01-15"]);
                      ("amounts", strings ["$2.5"]);
                      ("other", PList [])]).
Proof.
  destruct (process_document_quarter_text text_file_world "q1.txt"
              "text/plain" no_effects eq_refl eq_refl eq_refl)
    as [r [H _]].
  exists r. split; [exact H|].
  vm_compute in H. injection H as <-. now repeat split.
Defined.

Lemma same_documents_sample (k1 k2 : option string)
  (ocr : result (list Z * string)) (file : result string)
  (r1 r2 : result (list (option string))) (d1 d2 : string -> result pyval) :
  same_documents (sample_world k1 ocr file r1 d1)
    (sample_world k2 ocr file r2 d2).
Proof. now repeat split. Qed.

End Samples.

(* ================================================================== *)
(** * Two iteration orders *)
(* ================================================================== *)

Section Orders.

Import NLPService.

(** Under two iteration orders the categories hold the same strings,
    possibly in another order. *)
Lemma list_of_set_orders (o1 o2 : SetOrder) (l : list string) :
  Permutation (@list_of_set o1 l) (@list_of_set o2 l).
Proof.
  apply NoDup_Permutation; try apply list_of_set_NoDup.
  intros x. now rewrite !list_of_set_In.
Qed.

End Orders.

Section MoreStringFacts.

Import PyStr.

Lemma lstrip_blank (s : string) : blank s = true -> lstrip s = EmptyString.
Proof.
  induction s as [|c s IH]; simpl; [reflexivity|].
  intros H. apply andb_true_iff in H. destruct H as [Hc Hs].
  rewrite Hc. now apply IH.
Qed.

Lemma rstrip_empty_blank (s : string) :
  rstrip s = EmptyString <-> blank s = true.
Proof.
  induction s as [|c s IH]; simpl; [tauto|].
  destruct (rstrip s) as [|d r].
  - destruct (isspace c); simpl.
    + tauto.
    + split; discriminate.
  - split; [discriminate|].
    intros H. apply andb_true_iff in H. destruct H as [_ H].
    apply IH in H. discriminate.
Qed.

Lemma blank_lstrip (s : string) : blank (lstrip s) = blank s.
Proof.
  induction s as [|c s IH]; simpl; [reflexivity|].
  destruct (isspace c) eqn:E; simpl; [exact IH|now rewrite E].
Qed.

(** The trimmed text is empty exactly for a blank text. *)
Lemma strip_empty_blank (s : string) :
  strip s = EmptyString <-> blank s = true.
Proof.
  unfold strip. rewrite rstrip_empty_blank. now rewrite blank_lstrip.
Qed.

Lemma split_ws_aux_blank (s : string) (cur : list ascii) :
  blank s = true -> split_ws_aux s cur = flush cur [].
Proof.
  revert cur. induction s as [|c s IH]; intros cur; simpl; [reflexivity|].
  intros H. apply andb_true_iff in H. destruct H as [Hc Hs].
  rewrite Hc. now rewrite IH.
Qed.

Lemma split_ws_aux_nonempty (s : string) (cur : list ascii) :
  cur <> [] -> split_ws_aux s cur <> [].
Proof.
  revert cur. induction s as [|c s IH]; intros cur Hc; simpl.
  - destruct cur; [congruence|discriminate].
  - destruct (isspace c).
    + destruct cur; [congruence|discriminate].
    + apply IH. discriminate.
Qed.

(** A text has no token exactly when it is blank. *)
Lemma split_ws_nil_blank (s : string) :
  split_ws s = [] <-> blank s = true.
Proof.
  unfold split_ws. induction s as [|c s IH]; simpl; [tauto|].
  destruct (isspace c); simpl.
  - exact IH.
  - split; [|discriminate].
    intros H. exfalso. revert H. apply split_ws_aux_nonempty. discriminate.
Qed.

Lemma split_ws_aux_length (s : string) (cur : list ascii) :
  (List.length (split_ws_aux s cur)
   <= String.length s + match cur with [] => 0 | _ => 1 end)%nat.
Proof.
  revert cur. induction s as [|c s IH]; intros cur; simpl.
  - destruct cur; simpl; lia.
  - destruct (isspace c).
    + specialize (IH []). simpl in IH. destruct cur; simpl; lia.
    + specialize (IH (c :: cur)). simpl in IH. destruct cur; lia.
Qed.

(** A text has at most as many tokens as characters. *)
Lemma split_ws_length (s : string) :
  (List.length (split_ws s) <= String.length s)%nat.
Proof.
  pose proof (split_ws_aux_length s []) as H. simpl in H.
  unfold split_ws. lia.
Qed.

Lemma rstrip_idempotent (s : string) : rstrip (rstrip s) = rstrip s.
Proof.
  induction s as [|c s IH]; simpl; [reflexivity|].
  destruct (rstrip s) as [|d r] eqn:E.
  - destruct (isspace c) eqn:Ec; simpl; [reflexivity|now rewrite Ec].
  - change (rstrip (String c (String d r)))
      with (match rstrip (String d r) with
            | EmptyString =>
                if isspace c then EmptyString else String c EmptyString
            | x => String c x
            end).
    now rewrite IH.
Qed.

Lemma rstrip_head (c : ascii) (s : string) :
  isspace c = false -> exists r, rstrip (String c s) = String c r.
Proof.
  intros Hc. simpl. destruct (rstrip s) as [|d r].
  - rewrite Hc. now exists EmptyString.
  - now exists (String d r).
Qed.

Lemma lstrip_head (s : string) :
  lstrip s = EmptyString
  \/ exists c r, lstrip s = String c r /\ isspace c = false.
Proof.
  induction s as [|c s IH]; simpl; [now left|].
  destruct (isspace c) eqn:E; [exact IH|].
  right. now exists c, s.
Qed.

(** Trimming a trimmed text changes nothing. *)
Lemma strip_idempotent (s : string) : strip (strip s) = strip s.
Proof.
  unfold strip.
  destruct (lstrip_head s) as [H|[c [r [H Hc]]]]; rewrite H.
  - reflexivity.
  - destruct (rstrip_head c r Hc) as [r' Hr]. rewrite Hr.
    simpl lstrip. rewrite Hc. rewrite <- Hr. apply rstrip_idempotent.
Qed.

End MoreStringFacts.

Section Summary.

Import PyStr NLPService.

Lemma string_of_list_ascii_app (l1 l2 : list ascii) :
  string_of_list_ascii (l1 ++ l2)
  = string_of_list_ascii l1 ++ string_of_list_ascii l2.
Proof. induction l1 as [|a l1 IH]; simpl; [reflexivity|now rewrite IH]. Qed.

Lemma append_assoc (a b c : string) : (a ++ b) ++ c = a ++ (b ++ c).
Proof. induction a as [|x a IH]; simpl; [reflexivity|now rewrite IH]. Qed.

Lemma append_empty_r (a : string) : a ++ EmptyString = a.
Proof. induction a as [|x a IH]; simpl; [reflexivity|now rewrite IH]. Qed.

Lemma append_length (a b : string) :
  String.length (a ++ b) = String.length a + String.length b.
Proof. induction a as [|x a IH]; simpl; [reflexivity|now rewrite IH]. Qed.

Lemma split_on_aux_cur (sep : ascii) (s : string) (cur : list ascii) :
  split_on_aux sep s cur
  = match split_on sep s with
    | x :: rest => (rev_string cur ++ x) :: rest
    | [] => []
    end.
Proof.
  unfold split_on. revert cur. induction s as [|c s IH]; intros cur; simpl.
  - now rewrite append_empty_r.
  - destruct (Ascii.eqb c sep).
    + now rewrite append_empty_r.
    + rewrite (IH (c :: cur)), (IH [c]).
      destruct (split_on_aux sep s []) as [|x rest]; [reflexivity|].
      unfold rev_string. simpl rev. rewrite string_of_list_ascii_app.
      simpl. now rewrite append_assoc.
Qed.

(** [split_on] by recursion on the text. *)
Lemma split_on_cons (sep c : ascii) (s : string) :
  split_on sep (String c s)
  = if Ascii.eqb c sep then EmptyString :: split_on sep s
    else match split_on sep s with
         | x :: rest => String c x :: rest
         | [] => []
         end.
Proof.
  unfold split_on at 1. simpl. destruct (Ascii.eqb c sep); [reflexivity|].
  rewrite split_on_aux_cur. now destruct (split_on sep s).
Qed.

Lemma split_on_length (sep : ascii) (s : string) :
  List.length (split_on sep s) = S (count_char sep s).
Proof.
  induction s as [|c s IH]; [reflexivity|].
  rewrite split_on_cons. simpl count_char.
  destruct (Ascii.eqb c sep); simpl; [now rewrite IH|].
  destruct (split_on sep s); simpl in *; lia.
Qed.

(** Joining the segments with the separator gives the text back. *)
Lemma join_split_on (sep : ascii) (s : string) :
  join (String sep EmptyString) (split_on sep s) = s.
Proof.
  induction s as [|c s IH]; [reflexivity|].
  rewrite split_on_cons.
  pose proof (split_on_length sep s) as L.
  destruct (Ascii.eqb_spec c sep) as [->|Hne].
  - destruct (split_on sep s) as [|x rest]; [discriminate|].
    change (join (String sep EmptyString) (EmptyString :: x :: rest))
      with (String sep (join (String sep EmptyString) (x :: rest))).
    now rewrite IH.
  - destruct (split_on sep s) as [|x rest]; [discriminate|].
    destruct rest as [|y rest]; simpl in *; now rewrite <- IH.
Qed.

Lemma split_on_no_sep (sep : ascii) (s x : string) :
  In x (split_on sep s) -> count_char sep x = 0.
Proof.
  revert x. induction s as [|c s IH]; intros x.
  - intros [<-|[]]. reflexivity.
  - rewrite split_on_cons.
    destruct (Ascii.eqb c sep) eqn:E.
    + intros [<-|H]; [reflexivity|now apply IH].
    + destruct (split_on sep s) as [|y rest]; [intros []|].
      intros [<-|H].
      * simpl. rewrite E. apply IH. now left.
      * apply IH. now right.
Qed.

Lemma count_char_app (c : ascii) (a b : string) :
  count_char c (a ++ b) = count_char c a + count_char c b.
Proof. induction a as [|x a IH]; simpl; [reflexivity|rewrite IH; lia]. Qed.

Lemma join_length_le (sep : string) (l : list string) :
  (List.length l - 1) * String.length sep <= String.length (join sep l).
Proof.
  induction l as [|x l IH]; simpl; [lia|].
  destruct l as [|y l]; [simpl; lia|].
  rewrite !append_length. simpl in *. lia.
Qed.

Lemma take_length (n : nat) (s : string) :
  String.length (take n s) = Nat.min n (String.length s).
Proof.
  revert s. induction n as [|n IH]; intros [|c s]; simpl; try reflexivity.
  now rewrite IH.
Qed.

Lemma take_prefix (n : nat) (s : string) : startswith (take n s) s = true.
Proof.
  revert s. induction n as [|n IH]; intros [|c s]; simpl; try reflexivity.
  now rewrite Ascii.eqb_refl, IH.
Qed.

Lemma count_char_length (c : ascii) (s : string) :
  count_char c s <= String.length s.
Proof.
  induction s as [|a s IH]; simpl; [lia|]. destruct (Ascii.eqb a c); lia.
Qed.

Lemma summary_by_periods (text : string) :
  (count_char "." text < 3 -> String.length text <= 200 ->
   _generate_summary text = text)
  /\ (count_char "." text < 3 -> 200 < String.length text ->
      _generate_summary text = take 200 text ++ "..."
      /\ String.length (_generate_summary text) = 203)
  /\ (3 <= count_char "." text ->
      exists first second rest,
        text = first ++ "." ++ second ++ "." ++ rest
        /\ count_char "." first = 0
        /\ count_char "." second = 0
        /\ _generate_summary text = first ++ ". " ++ second ++ ".").
Proof.
  unfold _generate_summary.
  pose proof (split_on_length "." text) as L.
  split; [|split].
  - intros Hc Hl.
    destruct (Nat.ltb_spec 3 (List.length (split_on "." text)));
      [clear Hl; lia|].
    apply Nat.ltb_ge in Hl. now rewrite Hl.
  - intros Hc Hl.
    destruct (Nat.ltb_spec 3 (List.length (split_on "." text)));
      [clear Hl; lia|].
    pose proof Hl as Hb. apply Nat.ltb_lt in Hb. rewrite Hb.
    split; [reflexivity|].
    rewrite append_length, take_length.
    rewrite Nat.min_l by (apply Nat.lt_le_incl; exact Hl). reflexivity.
  - intros Hc.
    destruct (Nat.ltb_spec 3 (List.length (split_on "." text))); [|lia].
    pose proof (join_split_on "." text) as J.
    pose proof (split_on_no_sep "." text) as N.
    destruct (split_on "." text) as [|a [|b [|c rest]]];
      try (simpl in L; lia).
    exists a, b, (join "." (c :: rest)).
    split; [|split; [apply N; now left|split; [apply N; right; now left|]]].
    + rewrite <- J at 1. reflexivity.
    + simpl. now rewrite !append_assoc.
Qed.

(** The summary by the number of periods of the text: with fewer than
    three periods the text itself, cut after 200 characters and followed
    by three periods when it is longer; with three periods or more the
    first two segments, joined by a period and a space and closed by a
    period.  In every case the summary is at most two characters longer
    than the text. *)
Theorem generate_summary_cases (text : string) :
  (count_char "." text < 3 -> String.length text <= 200 ->
   _generate_summary text = text)
  /\ (count_char "." text < 3 -> 200 < String.length text ->
      _generate_summary text = take 200 text ++ "..."
      /\ String.length (_generate_summary text) = 203)
  /\ (3 <= count_char "." text ->
      exists first second rest,
        text = first ++ "." ++ second ++ "." ++ rest
        /\ count_char "." first = 0
        /\ count_char "." second = 0
        /\ _generate_summary text = first ++ ". " ++ second ++ ".")
  /\ String.length (_generate_summary text) <= String.length text + 2.
Proof.
  destruct (summary_by_periods text) as (H1 & H2 & H3).
  split; [exact H1|]. split; [exact H2|]. split; [exact H3|].
  destruct (Nat.lt_ge_cases (count_char "." text) 3) as [Hc|Hc].
  - destruct (Nat.le_gt_cases (String.length text) 200) as [Hl|Hl].
    + rewrite (H1 Hc Hl). lia.
    + destruct (H2 Hc Hl) as [_ ->]. lia.
  - destruct (H3 Hc) as (a & b & rest & Et & Ha & Hb & ->).
    pose proof (count_char_length "." rest) as Hr.
    rewrite Et in Hc. rewrite Et.
    rewrite !count_char_app in Hc. rewrite !append_length.
    simpl in *. lia.
Qed.

End Summary.

(* ================================================================== *)
(** * Substrings *)
(* ================================================================== *)

Section Substrings.

Import PyStr.

Lemma lower_char_idempotent (c : ascii) :
  lower_char (lower_char c) = lower_char c.
Proof.
  destruct c as [[] [] [] [] [] [] [] []]; vm_compute; reflexivity.
Qed.

Lemma lower_idempotent (s : string) : lower (lower s) = lower s.
Proof.
  induction s as [|c s IH]; simpl; [reflexivity|].
  now rewrite lower_char_idempotent, IH.
Qed.

Lemma lower_app (a b : string) : lower (a ++ b) = lower a ++ lower b.
Proof. induction a as [|c a IH]; simpl; [reflexivity|now rewrite IH]. Qed.

Lemma startswith_app (k t b : string) :
  startswith k t = true -> startswith k (t ++ b) = true.
Proof.
  revert t. induction k as [|x k IH]; intros [|y t]; simpl; try easy.
  intros H. apply andb_true_iff in H. destruct H as [Hx Hk].
  rewrite Hx. simpl. now apply IH.
Qed.

Lemma startswith_self_app (k b : string) : startswith k (k ++ b) = true.
Proof.
  induction k as [|x k IH]; simpl; [reflexivity|].
  now rewrite Ascii.eqb_refl.
Qed.

Lemma contains_app_r (k t b : string) :
  contains k t = true -> contains k (t ++ b) = true.
Proof.
  induction t as [|c t IH].
  - simpl. rewrite orb_false_r. intros H.
    destruct k; [|discriminate]. now destruct b.
  - intros H.
    change (startswith k (String c t) || contains k t = true) in H.
    change (startswith k (String c t ++ b) || contains k (t ++ b) = true).
    apply orb_true_iff in H. apply orb_true_iff. destruct H as [H|H].
    + left. now apply (startswith_app k (String c t) b).
    + right. now apply IH.
Qed.

Lemma contains_app_l (k a t : string) :
  contains k t = true -> contains k (a ++ t) = true.
Proof.
  intros H. induction a as [|c a IH]; [exact H|].
  change (startswith k (String c (a ++ t)) || contains k (a ++ t) = true).
  rewrite IH. apply orb_true_r.
Qed.

(** A text holds a keyword exactly when it is some text, the keyword and
    some text. *)
Lemma contains_iff (k t : string) :
  contains k t = true <-> exists a b, t = a ++ k ++ b.
Proof.
  split.
  - induction t as [|c t IH].
    + simpl. rewrite orb_false_r. intros H.
      destruct k; [|discriminate]. now exists EmptyString, EmptyString.
    + intros H.
      change (startswith k (String c t) || contains k t = true) in H.
      apply orb_true_iff in H. destruct H as [H|H].
      * exists EmptyString. simpl.
        clear IH. revert H. generalize (String c t). clear.
        induction k as [|x k IH]; intros [|y t]; simpl; try easy.
        -- now exists EmptyString.
        -- now exists (String y t).
        -- intros H. apply andb_true_iff in H. destruct H as [Hx Hk].
           apply Ascii.eqb_eq in Hx. subst y.
           destruct (IH t Hk) as [b ->]. now exists b.
      * destruct (IH H) as [a [b ->]]. now exists (String c a), b.
  - intros [a [b ->]]. apply contains_app_l.
    destruct k as [|x k].
    + now destruct b.
    + change (startswith (String x k) (String x k ++ b)
              || contains (String x k) (k ++ b) = true).
      now rewrite startswith_self_app.
Qed.

Lemma contains_trans (a b c : string) :
  contains a b = true -> contains b c = true -> contains a c = true.
Proof.
  rewrite !contains_iff. intros [p [q ->]] [p' [q' ->]].
  exists (p' ++ p), (q ++ q'). now rewrite !append_assoc.
Qed.

Lemma any_in_embedded (words : list string) (a t b : string) :
  NLPService.any_in words t = true ->
  NLPService.any_in words (a ++ t ++ b) = true.
Proof.
  unfold NLPService.any_in. rewrite !existsb_exists.
  intros [k [Hin Hc]]. exists k. split; [exact Hin|].
  apply contains_app_l. now apply contains_app_r.
Qed.

End Substrings.

(* ================================================================== *)
(** * More on the classifier and the scorer *)
(* ================================================================== *)

Section ClassifierMore.

Import PyStr NLPService.

Lemma detect_document_type_labels (text : string) :
  In (_detect_document_type text)
    ["invoice"; "contract"; "report"; "resume"; "general_document"].
Proof.
  unfold _detect_document_type.
  destruct (any_in invoice_words _); [simpl; tauto|].
  destruct (any_in contract_words _); [simpl; tauto|].
  destruct (any_in report_words _); [simpl; tauto|].
  destruct (any_in resume_words _); simpl; tauto.
Qed.

(** The label is one of five, does not depend on the case of the letters,
    and a text placed inside a larger text keeps its label or moves to a
    label of higher priority. *)
Theorem detect_document_type_embedded (text : string) :
  In (_detect_document_type text)
    ["invoice"; "contract"; "report"; "resume"; "general_document"]
  /\ _detect_document_type (lower text) = _detect_document_type text
  /\ forall before after,
      priority (_detect_document_type (before ++ text ++ after))
      <= priority (_detect_document_type text).
Proof.
  split; [apply detect_document_type_labels|].
  split; [unfold _detect_document_type; now rewrite lower_idempotent|].
  intros before after. unfold _detect_document_type.
  rewrite !lower_app.
  pose proof (fun ws =>
                any_in_embedded ws (lower before) (lower text) (lower after))
    as E.
  pose proof (E invoice_words) as E1. pose proof (E contract_words) as E2.
  pose proof (E report_words) as E3. pose proof (E resume_words) as E4.
  clear E.
  destruct (any_in invoice_words (lower text));
    destruct (any_in contract_words (lower text));
    destruct (any_in report_words (lower text));
    destruct (any_in resume_words (lower text));
    try rewrite (E1 eq_refl); try rewrite (E2 eq_refl);
    try rewrite (E3 eq_refl); try rewrite (E4 eq_refl);
    clear E1 E2 E3 E4;
    repeat match goal with
      | |- context [if ?b then _ else _] => destruct b
      end;
    vm_compute; repeat constructor.
Qed.

Lemma count_in_present (words : list string) (text k : string) :
  In k words -> contains k text = true -> (1 <= count_in words text)%Z.
Proof.
  intros Hin Hc. unfold count_in.
  assert (In k (filter (fun word => contains word text) words)) as H
    by (apply filter_In; now split).
  destruct (filter _ words); [destruct H|]. simpl List.length. lia.
Qed.

(** The score is a multiple of 20 and does not depend on the case of the
    letters. *)
Theorem calculate_sentiment_steps (text : string) :
  (exists k, _calculate_sentiment text = (20 * k)%Z /\ (-5 <= k <= 5)%Z)
  /\ _calculate_sentiment (lower text) = _calculate_sentiment text.
Proof.
  split; [|unfold _calculate_sentiment; now rewrite lower_idempotent].
  pose proof (calculate_sentiment_range text) as R.
  unfold _calculate_sentiment in *.
  set (p := count_in positive_words (lower text)) in *.
  set (n := count_in negative_words (lower text)) in *.
  destruct (Z.ltb_spec n p).
  - destruct (Z.le_gt_cases 100 ((p - n) * 20)).
    + exists 5%Z. lia.
    + exists (p - n)%Z. lia.
  - destruct (Z.ltb_spec p n).
    + destruct (Z.le_gt_cases ((n - p) * -20) (-100)).
      * exists (-5)%Z. lia.
      * exists (p - n)%Z. lia.
    + exists 0%Z. lia.
Qed.

(** The word [unhappy] holds the word [happy]: a text whose only negative
    word is [unhappy] never scores below 0. *)
Theorem calculate_sentiment_unhappy (text : string) :
  contains "unhappy" (lower text) = true ->
  count_in negative_words (lower text) = 1%Z ->
  (0 <= _calculate_sentiment text)%Z.
Proof.
  intros Hu Hn.
  assert (contains "happy" (lower text) = true) as Hh.
  { apply (contains_trans "happy" "unhappy"); [reflexivity|exact Hu]. }
  assert (1 <= count_in positive_words (lower text))%Z as Hp.
  { apply (count_in_present _ _ "happy"); [simpl; tauto|exact Hh]. }
  unfold _calculate_sentiment. rewrite Hn.
  destruct (Z.ltb_spec 1 (count_in positive_words (lower text))); [lia|].
  destruct (Z.ltb_spec (count_in positive_words (lower text)) 1); lia.
Qed.

Lemma calculate_sentiment_unhappy_witness :
  contains "unhappy" (lower "An Unhappy customer") = true
  /\ (0 <= _calculate_sentiment "An Unhappy customer")%Z.
Proof.
  split; [reflexivity|].
  apply calculate_sentiment_unhappy; reflexivity.
Defined.

End ClassifierMore.

(* ================================================================== *)
(** * The matcher and the language of a pattern *)
(* ================================================================== *)

Section Matcher.

Import PyStr Re.

Lemma last_char_app (prev : option ascii) (u v : string) :
  last_char (last_char prev u) v = last_char prev (u ++ v).
Proof.
  revert prev. induction u as [|c u IH]; intros prev; simpl; [reflexivity|].
  apply IH.
Qed.

Lemma take_app_length (u rest : string) :
  take (String.length u) (u ++ rest) = u.
Proof.
  induction u as [|c u IH]; simpl.
  - now destruct rest.
  - now rewrite IH.
Qed.

(** What a greedy repetition matches. *)
Lemma rep_greedy_sound (cs : charset) (s : string) :
  forall lo hi prev n k m,
    rep_greedy cs lo hi prev s n k = Some m ->
    exists u rest,
      s = u ++ rest
      /\ lang (RRep cs lo hi) prev u rest
      /\ k (last_char prev u) rest (n + String.length u) = Some m.
Proof.
  induction s as [|c s IH]; intros lo hi prev n k m.
  - simpl. destruct (Nat.eqb_spec lo 0) as [->|]; [|discriminate].
    intros H. exists EmptyString, EmptyString. simpl.
    rewrite Nat.add_0_r. repeat split; try lia; try exact H.
    destruct hi; simpl; [lia|exact I].
  - simpl.
    assert ((if Nat.eqb lo 0 then k prev (String c s) n else None) = Some m ->
            exists u rest,
              String c s = u ++ rest
              /\ lang (RRep cs lo hi) prev u rest
              /\ k (last_char prev u) rest (n + String.length u) = Some m)
      as Stop.
    { destruct (Nat.eqb_spec lo 0) as [->|]; [|discriminate].
      intros H. exists EmptyString, (String c s). simpl.
      rewrite Nat.add_0_r. repeat split; try lia; try exact H.
      destruct hi; simpl; [lia|exact I]. }
    destruct (may_take hi && mem c cs) eqn:E; [|exact Stop].
    apply andb_true_iff in E. destruct E as [Eh Ec].
    destruct (rep_greedy cs (pred lo) (dec_hi hi) (Some c) s (S n) k)
      as [r|] eqn:R; [|exact Stop].
    intros [= ->].
    destruct (IH _ _ _ _ _ _ R) as (u & rest & -> & (Ha & Hlo & Hhi) & Hk).
    exists (String c u), rest. simpl.
    rewrite Ec, Ha. rewrite Nat.add_succ_r. simpl in Hk.
    repeat split; try lia; try exact Hk.
    destruct hi as [[|h]|]; simpl in *; try discriminate; lia.
Qed.

(** Every match of the matcher belongs to the language of the pattern. *)
Lemma run_sound (r : regex) :
  forall prev s n k m,
    run r prev s n k = Some m ->
    exists u rest,
      s = u ++ rest
      /\ lang r prev u rest
      /\ k (last_char prev u) rest (n + String.length u) = Some m.
Proof.
  induction r as [cs|cs lo hi| |r1 IH1 r2 IH2|r1 IH1 r2 IH2];
    intros prev s n k m; simpl.
  - destruct s as [|c s]; [discriminate|].
    destruct (mem c cs) eqn:E; [|discriminate].
    intros H. exists (String c EmptyString), s. simpl.
    rewrite Nat.add_1_r. repeat split; try exact H. now exists c.
  - apply rep_greedy_sound.
  - destruct (at_boundary prev s) eqn:E; [|discriminate].
    intros H. exists EmptyString, s. simpl. rewrite Nat.add_0_r.
    now repeat split.
  - intros H.
    destruct (IH1 _ _ _ _ _ H) as (u1 & rest1 & -> & L1 & H2).
    destruct (IH2 _ _ _ _ _ H2) as (u2 & rest & -> & L2 & Hk).
    exists (u1 ++ u2), rest.
    rewrite append_assoc, append_length, Nat.add_assoc, <- last_char_app.
    split; [reflexivity|]. split; [|exact Hk].
    now exists u1, u2.
  - destruct (run r1 prev s n k) as [m1|] eqn:E1.
    + intros [= ->].
      destruct (IH1 _ _ _ _ _ E1) as (u & rest & -> & L & Hk).
      exists u, rest. tauto.
    + intros H.
      destruct (IH2 _ _ _ _ _ H) as (u & rest & -> & L & Hk).
      exists u, rest. tauto.
Qed.

Lemma match_here_sound (r : regex) (prev : option ascii) (s : string)
  (m : nat) :
  match_here r prev s = Some m ->
  exists rest, s = take m s ++ rest /\ lang r prev (take m s) rest.
Proof.
  unfold match_here. intros H.
  destruct (run_sound r _ _ _ _ _ H) as (u & rest & -> & L & [= <-]).
  simpl. rewrite take_app_length. now exists rest.
Qed.

Lemma scan_sound (r : regex) (x : string) (s : string) :
  forall prev skip,
    In x (scan r prev s skip) ->
    exists before rest,
      s = before ++ x ++ rest
      /\ lang r (last_char prev before) x rest.
Proof.
  induction s as [|c s IH]; intros prev skip.
  - destruct skip as [|j]; simpl; [|intros []].
    destruct (match_here r prev EmptyString) as [m|] eqn:E; [|intros []].
    intros [<-|[]].
    destruct (match_here_sound _ _ _ _ E) as (rest & Hs & L).
    exists EmptyString, rest. now split.
  - assert (forall j, In x (scan r (Some c) s j) ->
                      exists before rest,
                        String c s = before ++ x ++ rest
                        /\ lang r (last_char prev before) x rest) as Next.
    { intros j H. destruct (IH _ _ H) as (before & rest & -> & L).
      now exists (String c before), rest. }
    destruct skip as [|j]; simpl; [|apply Next].
    destruct (match_here r prev (String c s)) as [m|] eqn:E; [|apply Next].
    intros [<-|H]; [|now apply (Next (pred m))].
    destruct (match_here_sound _ _ _ _ E) as (rest & Hs & L).
    exists EmptyString, rest. now split.
Qed.

(** Every string returned by [findall] stands in the subject and belongs
    to the language of the pattern at that place. *)
Lemma findall_sound (r : regex) (s x : string) :
  In x (findall r s) ->
  exists before rest,
    s = before ++ x ++ rest /\ lang r (last_char None before) x rest.
Proof. apply scan_sound. Qed.

Lemma findall_contains (r : regex) (s x : string) :
  In x (findall r s) -> contains x s = true.
Proof.
  intros H. destruct (findall_sound r s x H) as (before & rest & -> & _).
  apply contains_iff. now exists before, rest.
Qed.

End Matcher.

(* ================================================================== *)
(** * The shape of the matches *)
(* ================================================================== *)

Section Shapes.

Import PyStr Re.

Lemma all_in_app (cs : charset) (u v : string) :
  all_in cs (u ++ v) = all_in cs u && all_in cs v.
Proof.
  induction u as [|c u IH]; simpl; [reflexivity|].
  now rewrite IH, andb_assoc.
Qed.

Lemma mem_app (c : ascii) (cs1 cs2 : charset) :
  mem c (cs1 ++ cs2)%list = mem c cs1 || mem c cs2.
Proof. unfold mem. apply existsb_app. Qed.

Lemma all_in_weaken (cs cs' : charset) (u : string) :
  (forall c, mem c cs = true -> mem c cs' = true) ->
  all_in cs u = true -> all_in cs' u = true.
Proof.
  intros W. induction u as [|c u IH]; simpl; [reflexivity|].
  intros H. apply andb_true_iff in H. destruct H as [Hc Hu].
  now rewrite (W c Hc), IH.
Qed.

Lemma all_in_app_l (cs1 cs2 : charset) (u : string) :
  all_in cs1 u = true -> all_in (cs1 ++ cs2)%list u = true.
Proof.
  apply all_in_weaken. intros c H. rewrite mem_app, H. reflexivity.
Qed.

Lemma all_in_app_r (cs1 cs2 : charset) (u : string) :
  all_in cs2 u = true -> all_in (cs1 ++ cs2)%list u = true.
Proof.
  apply all_in_weaken. intros c H. rewrite mem_app, H. apply orb_true_r.
Qed.

(** A text of the language of a pattern is made of the characters of the
    pattern. *)
Lemma lang_alphabet (r : regex) :
  forall prev u rest, lang r prev u rest -> all_in (alphabet r) u = true.
Proof.
  induction r as [cs|cs lo hi| |r1 IH1 r2 IH2|r1 IH1 r2 IH2];
    intros prev u rest; simpl.
  - intros [c [-> H]]. simpl. now rewrite H.
  - tauto.
  - now intros [-> _].
  - intros (u1 & u2 & -> & L1 & L2). rewrite all_in_app.
    rewrite (all_in_app_l _ _ _ (IH1 _ _ _ L1)).
    now rewrite (all_in_app_r _ _ _ (IH2 _ _ _ L2)).
  - intros [L|L].
    + apply all_in_app_l. now apply (IH1 _ _ _ L).
    + apply all_in_app_r. now apply (IH2 _ _ _ L).
Qed.

(** Its length lies between the bounds of the pattern. *)
Lemma lang_length (r : regex) :
  forall prev u rest,
    lang r prev u rest ->
    min_len r <= String.length u /\ within (max_len r) (String.length u).
Proof.
  induction r as [cs|cs lo hi| |r1 IH1 r2 IH2|r1 IH1 r2 IH2];
    intros prev u rest; simpl.
  - intros [c [-> _]]. simpl. lia.
  - tauto.
  - intros [-> _]. simpl. lia.
  - intros (u1 & u2 & -> & L1 & L2). rewrite append_length.
    destruct (IH1 _ _ _ L1) as [A1 B1]. destruct (IH2 _ _ _ L2) as [A2 B2].
    split; [lia|].
    destruct (max_len r1), (max_len r2); simpl in *; try exact I. lia.
  - intros [L|L].
    + destruct (IH1 _ _ _ L) as [A B]. split; [lia|].
      destruct (max_len r1), (max_len r2); simpl in *; try exact I. lia.
    + destruct (IH2 _ _ _ L) as [A B]. split; [lia|].
      destruct (max_len r1), (max_len r2); simpl in *; try exact I. lia.
Qed.

Lemma count_char_outside (cs : charset) (c : ascii) (u : string) :
  mem c cs = false -> all_in cs u = true -> count_char c u = 0.
Proof.
  intros Hc. induction u as [|a u IH]; simpl; [reflexivity|].
  intros H. apply andb_true_iff in H. destruct H as [Ha Hu].
  destruct (Ascii.eqb_spec a c) as [->|_]; [congruence|]. now apply IH.
Qed.

Lemma first_is_app (p : ascii -> bool) (u v : string) :
  first_is p u = true -> first_is p (u ++ v) = true.
Proof. destruct u; [discriminate|]. exact (fun H => H). Qed.

Lemma all_in_first (cs : charset) (u : string) :
  all_in cs u = true -> 1 <= String.length u ->
  first_is (fun c => mem c cs) u = true.
Proof.
  destruct u as [|c u]; simpl; [lia|].
  intros H _. apply andb_true_iff in H. tauto.
Qed.

Lemma all_in_last (cs : charset) (u : string) (prev : option ascii) :
  all_in cs u = true -> 1 <= String.length u ->
  exists c, last_char prev u = Some c /\ mem c cs = true.
Proof.
  revert prev. induction u as [|c u IH]; intros prev; simpl; [lia|].
  intros H _. apply andb_true_iff in H. destruct H as [Hc Hu].
  destruct u as [|d u].
  - now exists c.
  - apply IH; [exact Hu|simpl; lia].
Qed.

End Shapes.

(* ================================================================== *)
(** * The shape of the entities *)
(* ================================================================== *)

Section EntityShapes.

Import PyStr Re NLPService.

Context {order : SetOrder}.

Ltac break_lang :=
  repeat match goal with
    | H : exists _, _ |- _ => destruct H
    | H : _ /\ _ |- _ => destruct H
    end.

Lemma strings_of_strings (l : list string) :
  strings_of (Some (strings l)) = Some l.
Proof.
  unfold strings_of, strings. induction l as [|x l IH]; simpl;
    [reflexivity|now rewrite IH].
Qed.

(** The strings of the three categories are the matches of the three
    patterns, in the order of the interpreter. *)
Lemma extract_entities_regex_categories (text : string) :
  let entities := _extract_entities_regex text in
  strings_of (lookup "dates" entities)
  = Some (list_of_set (findall date_pattern text))
  /\ strings_of (lookup "amounts" entities)
     = Some (list_of_set (findall amount_pattern text))
  /\ strings_of (lookup "other" entities)
     = Some (list_of_set (findall email_pattern text)).
Proof.
  unfold _extract_entities_regex. cbn [store lookup String.eqb Ascii.eqb Bool.eqb].
  now rewrite !strings_of_strings.
Qed.

Lemma isdigit_isword (c : ascii) : isdigit c = true -> isword c = true.
Proof. unfold isdigit, isword. now intros ->. Qed.

Lemma mem_digit (c : ascii) : mem c digit = isdigit c.
Proof. unfold mem, digit. simpl. apply orb_false_r. Qed.

Lemma boundary_before_word (prev : option ascii) (u rest : string) :
  at_boundary prev (u ++ rest) = true ->
  first_is isword u = true ->
  isword_opt prev = false.
Proof.
  destruct u as [|c u]; [discriminate|].
  intros H Hc. unfold at_boundary in H.
  cbn [append head isword_opt first_is] in *.
  rewrite Hc in H. now destruct (isword_opt prev).
Qed.

Lemma boundary_after_word (c : ascii) (rest : string) :
  at_boundary (Some c) rest = true -> isword c = true ->
  isword_opt (head rest) = false.
Proof.
  intros H Hc. unfold at_boundary in H. cbn [isword_opt] in H.
  rewrite Hc in H. now destruct (isword_opt (head rest)).
Qed.

Lemma first_is_weaken (p q : ascii -> bool) (u : string) :
  (forall c, p c = true -> q c = true) ->
  first_is p u = true -> first_is q u = true.
Proof. intros W. destruct u; [discriminate|]. apply W. Qed.

Lemma count_separator (c : ascii) :
  mem c slash_or_dash = true ->
  count_char "/" (String c EmptyString)
  + count_char "-" (String c EmptyString) = 1.
Proof.
  unfold mem, slash_or_dash. simpl. rewrite orb_false_r.
  intros H. apply orb_true_iff in H.
  destruct H as [H|H]; apply Ascii.eqb_eq in H; subst c; reflexivity.
Qed.

Lemma digits_no_separator (u : string) :
  all_in digit u = true ->
  count_char "/" u = 0 /\ count_char "-" u = 0.
Proof.
  intros H. split; apply (count_char_outside digit); auto.
Qed.

Lemma first_digit_word (u v : string) :
  all_in digit u = true -> 1 <= String.length u ->
  first_is isdigit (u ++ v) = true /\ first_is isword (u ++ v) = true.
Proof.
  destruct u as [|c u]; cbn [all_in append first_is String.length]; [lia|].
  intros H _. apply andb_true_iff in H. destruct H as [H _].
  rewrite mem_digit in H. split; [exact H|now apply isdigit_isword].
Qed.

Lemma last_digit (p : option ascii) (u : string) :
  all_in digit u = true -> 1 <= String.length u ->
  exists c, last_char p u = Some c /\ isdigit c = true.
Proof.
  intros H L. destruct (all_in_last digit u p H L) as [c [E M]].
  exists c. now rewrite <- mem_digit.
Qed.

Lemma last_is_app (p : ascii -> bool) (u v : string) :
  1 <= String.length v -> last_is p (u ++ v) = last_is p v.
Proof.
  unfold last_is. rewrite <- last_char_app.
  destruct v as [|c v]; simpl; [lia|]. reflexivity.
Qed.

(** What a date of the text looks like. *)
Lemma date_shape (prev : option ascii) (x rest : string) :
  lang date_pattern prev x rest ->
  isword_opt prev = false
  /\ isword_opt (head rest) = false
  /\ count_char "/" x + count_char "-" x = 2
  /\ first_is isdigit x = true
  /\ last_is isdigit x = true.
Proof.
  unfold date_pattern.
  intros [L|L]; cbn [seq lang rep] in L; break_lang; subst;
    cbn [append] in *; rewrite ?append_empty_r in *.
  all: match goal with
       | B : at_boundary _ ((?d1 ++ String ?c1 (?d2 ++ String ?c2 ?d3))
                            ++ _) = true,
         E : at_boundary (last_char _ _) _ = true,
         D1 : all_in digit ?d1 = true,
         D2 : all_in digit ?d2 = true,
         D3 : all_in digit ?d3 = true,
         S1 : mem ?c1 slash_or_dash = true,
         S2 : mem ?c2 slash_or_dash = true |- _ =>
           destruct (digits_no_separator d1 D1) as [A1 B1];
           destruct (digits_no_separator d2 D2) as [A2 B2];
           destruct (digits_no_separator d3 D3) as [A3 B3];
           apply count_separator in S1; apply count_separator in S2;
           destruct (first_digit_word d1 (String c1 (d2 ++ String c2 d3)) D1
                       ltac:(lia)) as [F1 F2];
           pose proof (boundary_before_word _ _ _ B F2) as Hb;
           match type of E with
           | at_boundary (last_char ?q d3) _ = true =>
               destruct (last_digit q d3 D3 ltac:(lia)) as [c [Ec Dc]];
               rewrite Ec in E;
               pose proof (boundary_after_word _ _ E (isdigit_isword _ Dc))
                 as Ha
           end;
           destruct (last_digit None d3 D3 ltac:(lia)) as [c' [Ec' Dc']]
       end.
  all: split; [assumption|]. all: split; [assumption|].
  all: split;
    [simpl in *; repeat (rewrite count_char_app; cbn [count_char]);
     repeat match goal with
       | |- context [if ?b then _ else _] => destruct b
       end; lia|].
  all: split; [assumption|].
  all: match goal with
       | |- last_is isdigit (?d1 ++ String ?c1 (?d2 ++ String ?c2 ?d3))
            = true =>
           change (d1 ++ String c1 (d2 ++ String c2 d3))
             with (d1 ++ String c1 EmptyString ++ d2
                   ++ String c2 EmptyString ++ d3);
           rewrite !last_is_app by (rewrite ?append_length; simpl; lia)
       end.
  all: unfold last_is; rewrite Ec'; exact Dc'.
Qed.

(** What an amount of the text looks like. *)
Lemma amount_shape (prev : option ascii) (x rest : string) :
  lang amount_pattern prev x rest -> first_is dollar_or_digit x = true.
Proof.
  unfold amount_pattern.
  intros [L|L]; cbn [seq lang rep lit plus opt star] in L; break_lang; subst;
    cbn [append] in *.
  - match goal with
    | H : mem ?c [CChar "$"] = true |- _ =>
        unfold mem in H; cbn [existsb item_mem] in H;
        rewrite orb_false_r in H;
        unfold dollar_or_digit; cbn [first_is]; now rewrite H
    end.
  - match goal with
    | D : all_in digit ?d = true, N : 1 <= String.length ?d
      |- first_is _ (?d ++ ?v) = true =>
        destruct (first_digit_word d v D N) as [F _]
    end.
    revert F. apply first_is_weaken.
    intros c Hc. unfold dollar_or_digit. rewrite Hc. apply orb_true_r.
Qed.


(** What an address of the text looks like. *)
Lemma email_shape (prev : option ascii) (x rest : string) :
  lang email_pattern prev x rest ->
  count_char "@" x = 1 /\ last_is letter_or_bar x = true.
Proof.
  unfold email_pattern. fold local_class domain_class tld_class.
  cbn [seq lang lit plus at_least]. intros L. break_lang. subst.
  cbn [append] in *. rewrite ?append_empty_r in *.
  match goal with
  | A : mem ?a [CChar "@"] = true, P : mem ?p [CChar "."] = true,
    U : all_in local_class ?u = true, D : all_in domain_class ?d = true,
    T : all_in tld_class ?t = true, N : 2 <= String.length ?t |- _ =>
      unfold mem in A, P; cbn [existsb item_mem] in A, P;
      rewrite orb_false_r in A, P;
      apply Ascii.eqb_eq in A; apply Ascii.eqb_eq in P; subst a p;
      pose proof (count_char_outside local_class "@" u eq_refl U) as C1;
      pose proof (count_char_outside domain_class "@" d eq_refl D) as C2;
      pose proof (count_char_outside tld_class "@" t eq_refl T) as C3;
      destruct (all_in_last tld_class t None T ltac:(lia)) as [c [Ec Mc]];
      split;
      [ repeat (rewrite count_char_app; cbn [count_char]);
        rewrite C1, C2, C3; reflexivity
      | change (u ++ String "@" (d ++ String "." t))
          with (u ++ String "@" EmptyString ++ d
                ++ String "." EmptyString ++ t);
        rewrite !last_is_app by (rewrite ?append_length; simpl; lia);
        unfold last_is; rewrite Ec; exact Mc ]
  end.
Qed.


Ltac alphabet_incl :=
  intros c; unfold mem; cbn [existsb alphabet app seq rep lit plus opt star
                             at_least date_pattern amount_pattern
                             email_pattern date_chars amount_chars
                             email_chars digit slash_or_dash];
  repeat match goal with
    | |- context [item_mem c ?i] =>
        let b := fresh "b" in
        set (b := item_mem c i) in *; clearbody b
    end;
  repeat match goal with
    | b : bool |- _ => destruct b
    end;
  simpl; congruence.

Lemma date_alphabet :
  forall c, mem c (alphabet date_pattern) = true -> mem c date_chars = true.
Proof. alphabet_incl. Qed.

Lemma amount_alphabet :
  forall c,
    mem c (alphabet amount_pattern) = true -> mem c amount_chars = true.
Proof. alphabet_incl. Qed.

Lemma email_alphabet :
  forall c, mem c (alphabet email_pattern) = true -> mem c email_chars = true.
Proof. alphabet_incl. Qed.

(** Every date of the entities stands in the text between characters that
    are no letters, digits or underscores; it has 6 to 10 characters, all
    of them digits or separators, two of them separators, and it starts
    and ends with a digit. *)
Theorem extracted_dates_shape (text : string) (dates : list string)
  (x : string) :
  strings_of (lookup "dates" (_extract_entities_regex text)) = Some dates ->
  In x dates ->
  (exists before rest,
      text = before ++ x ++ rest
      /\ isword_opt (last_char None before) = false
      /\ isword_opt (head rest) = false)
  /\ 6 <= String.length x <= 10
  /\ all_in date_chars x = true
  /\ count_char "/" x + count_char "-" x = 2
  /\ first_is isdigit x = true
  /\ last_is isdigit x = true.
Proof.
  destruct (extract_entities_regex_categories text) as [E _].
  cbv zeta in E. rewrite E. intros [= <-] Hin.
  apply (proj1 (list_of_set_In _ _)) in Hin.
  destruct (findall_sound _ _ _ Hin) as (before & rest & Et & L).
  destruct (date_shape _ _ _ L) as (B & A & C & F & La).
  destruct (lang_length _ _ _ _ L) as [Lo Hi].
  pose proof (lang_alphabet _ _ _ _ L) as Al.
  split; [now exists before, rest|].
  split; [exact (conj Lo Hi)|].
  split; [exact (all_in_weaken _ _ _ date_alphabet Al)|].
  now repeat split.
Qed.

(** Every amount of the entities stands in the text, has at least two
    characters, all of them digits, dollar signs, commas or periods, and
    starts with a dollar sign or a digit. *)
Theorem extracted_amounts_shape (text : string) (amounts : list string)
  (x : string) :
  strings_of (lookup "amounts" (_extract_entities_regex text))
  = Some amounts ->
  In x amounts ->
  contains x text = true
  /\ 2 <= String.length x
  /\ all_in amount_chars x = true
  /\ first_is dollar_or_digit x = true.
Proof.
  destruct (extract_entities_regex_categories text) as (_ & E & _).
  cbv zeta in E. rewrite E. intros [= <-] Hin.
  apply (proj1 (list_of_set_In _ _)) in Hin.
  destruct (findall_sound _ _ _ Hin) as (before & rest & Et & L).
  destruct (lang_length _ _ _ _ L) as [Lo _].
  pose proof (lang_alphabet _ _ _ _ L) as Al.
  split; [now apply (findall_contains amount_pattern)|].
  split; [exact Lo|].
  split; [exact (all_in_weaken _ _ _ amount_alphabet Al)|].
  exact (amount_shape _ _ _ L).
Qed.

(** Every string of the category [other] stands in the text, has at least
    six characters, none of them a space, holds exactly one at sign and
    ends with a letter or a vertical bar. *)
Theorem extracted_other_shape (text : string) (other : list string)
  (x : string) :
  strings_of (lookup "other" (_extract_entities_regex text)) = Some other ->
  In x other ->
  contains x text = true
  /\ 6 <= String.length x
  /\ all_in email_chars x = true
  /\ count_char "@" x = 1
  /\ last_is letter_or_bar x = true.
Proof.
  destruct (extract_entities_regex_categories text) as (_ & _ & E).
  cbv zeta in E. rewrite E. intros [= <-] Hin.
  apply (proj1 (list_of_set_In _ _)) in Hin.
  destruct (findall_sound _ _ _ Hin) as (before & rest & Et & L).
  destruct (lang_length _ _ _ _ L) as [Lo _].
  pose proof (lang_alphabet _ _ _ _ L) as Al.
  destruct (email_shape _ _ _ L) as [C La].
  split; [now apply (findall_contains email_pattern)|].
  split; [exact Lo|].
  split; [exact (all_in_weaken _ _ _ email_alphabet Al)|].
  now split.
Qed.

End EntityShapes.

(* ================================================================== *)
(** * The ends of a run *)
(* ================================================================== *)

Section RunEnds.

Import PyStr NLPService DocumentProcessor.

Context {order : SetOrder}.

Lemma analyze_document_returns (w : World) (text : string) (t : Trace) :
  exists v ta,
    analyze_document w text t = (Ok v, ta)
    /\ ticks ta = ticks t
    /\ (calls ta = calls t
        \/ (client w <> None /\ calls ta = (calls t ++ [prompt text])%list)).
Proof.
  destruct (client w) as [key|] eqn:E.
  - rewrite (analyze_document_client w text t key E).
    eexists. eexists. split; [reflexivity|]. split; [reflexivity|].
    right. split; [discriminate|reflexivity].
  - rewrite (analyze_document_no_client w text t E).
    exists (_fallback_analysis text), t. tauto.
Qed.

Lemma step_analyze_not_dict (w : World) (mime : string)
  (ocr : option pyval) (text : string) (f : Frame) (v : pyval)
  (ta : Trace) :
  truthy (strip text) = true ->
  analyze_document w text (effects f) = (Ok v, ta) ->
  is_dict v = false ->
  step_analyze w mime ocr text f
  = (Raise ("'" ++ type_name v ++ "' object has no attribute 'get'"),
     {| record := analyzed (record f) v text; effects := ta |}).
Proof.
  intros Hs Ha Hv. unfold step_analyze. rewrite Hs.
  unfold try_except, bind, ret, of_result, lift, set_key, append, modify.
  cbv beta. rewrite Ha. cbn [record effects].
  destruct v; try discriminate; reflexivity.
Qed.

(** Every run returns a record, in one of five ways. *)
Lemma process_document_ends (w : World) (path mime : string) (t : Trace) :
  exists r t',
    process_document w path mime t = (Ok (PDict r), t')
    /\ run_end w path mime t r t'.
Proof.
  rewrite process_document_steps. cbv zeta.
  assert (forall ocr text,
             extraction w path mime = Some (ocr, text) ->
             (startswith "image/" mime = true -> ocr <> None) ->
             exists r t',
               match step_analyze w mime (option_map PDict ocr) text
                       {| record :=
                            after_extraction (initial_record w path mime t)
                              ocr;
                          effects := tick t |} with
               | (Ok _, f') => (Ok (PDict (record f')), effects f')
               | (Raise e, f') =>
                   let f'' := snd (on_exception w e f') in
                   (Ok (PDict (record f'')), effects f'')
               end = (Ok (PDict r), t')
               /\ run_end w path mime t r t') as Second.
  { intros ocr text Hx Hocr.
    destruct (truthy (strip text)) eqn:Es.
    - destruct (analyze_document_returns w text (tick t))
        as (v & ta & Ha & _).
      destruct (is_dict v) eqn:Ev.
      + destruct v as [| | | | | |nlp]; try discriminate.
        assert (exists c, confidence_of mime (option_map PDict ocr) = Ok c)
          as [c Hc].
        { unfold confidence_of. destruct (startswith "image/" mime).
          - destruct ocr as [o|]; [|now destruct Hocr].
            eexists. reflexivity.
          - eexists. reflexivity. }
        erewrite step_analyze_dict; [ | exact Es | exact Ha | exact Hc].
        eexists. eexists. split; [reflexivity|].
        now apply (Completed w path mime t _ _ ocr text nlp c ta).
      + erewrite step_analyze_not_dict; [ | exact Es | exact Ha | exact Ev].
        eexists. eexists. split; [reflexivity|].
        now apply (NotADict w path mime t _ _ ocr text v ta).
    - rewrite step_analyze_blank by exact Es.
      eexists. eexists. split; [reflexivity|].
      now apply (Blank w path mime t _ _ ocr text). }
  destruct (startswith "image/" mime) eqn:Hm.
  - destruct (extract_text_dict w path) as [o Ho].
    assert (OCRService.extract_text w path (tick t)
            = (Ok (PDict o), tick t))
      as He by (rewrite extract_text_pure; now rewrite Ho).
    rewrite (step_extract_image w path mime
               {| record := initial_record w path mime t;
                  effects := tick t |} o Hm He).
    cbv zeta. cbn [record effects].
    assert (o_shape :
             (exists e, o = failed_extraction e)
             \/ (exists s c n m,
                    o = [("text", PStr s); ("confidence", c);
                         ("word_count", n); ("character_count", m)])).
    { destruct (extract_text_cases w path no_effects)
        as [[e H]|(image & conf & text & c & _ & _ & _ & H)];
        rewrite H in Ho; injection Ho as <-.
      - left. now exists e.
      - right. eexists. eexists. eexists. eexists. reflexivity. }
    destruct o_shape as [[e ->]|(s & c & n & m & ->)].
    + destruct e as [|a e].
      * (* an error without message: the text is empty *)
        cbn.
        apply (Second (Some (failed_extraction EmptyString)) EmptyString).
        -- unfold extraction. rewrite Hm, Ho. reflexivity.
        -- discriminate.
      * cbn. eexists. eexists. split; [reflexivity|].
        apply (OcrFailed w path mime t _ _
                 (failed_extraction (String a e)) (String a e));
          try reflexivity; try assumption. discriminate.
    + cbn.
      apply (Second (Some [("text", PStr s); ("confidence", c);
                           ("word_count", n); ("character_count", m)]) s).
      * unfold extraction. rewrite Hm, Ho. reflexivity.
      * discriminate.
  - destruct (read_text w path) as [s|e] eqn:Hr.
    + rewrite (step_extract_file w path mime _ s Hm Hr).
      cbn [record effects].
      apply (Second None s).
      * unfold extraction. now rewrite Hm, Hr.
      * discriminate.
    + rewrite (step_extract_file_error w path mime _ e Hm Hr).
      eexists. eexists. split; [reflexivity|].
      now apply (Unreadable w path mime t _ _ e).
Qed.

Ltac run_cases w path mime t :=
  let r := fresh "r" in
  let t' := fresh "t'" in
  let E := fresh "E" in
  let R := fresh "R" in
  destruct (process_document_ends w path mime t) as (r & t' & E & R);
  rewrite E; exists r, t'; split; [reflexivity|];
  destruct R as [e Hm Hr -> ->
                |o e Hm Ho He Hne -> ->
                |ocr text Hx Hs -> ->
                |ocr text nlp c ta Hx Hs Ha Hc -> ->
                |ocr text v ta Hx Hs Ha Hv -> ->].

Ltac run_ends w path mime t :=
  run_cases w path mime t;
  try match goal with
    | ocr : option dict |- _ => destruct ocr
    end.

(** A run never raises: it returns a record that holds the path and the
    category it was given, the time of its start, a step log and a list
    of errors. *)
Theorem process_document_returns_record (w : World) (path mime : string)
  (t : Trace) :
  exists r t',
    process_document w path mime t = (Ok (PDict r), t')
    /\ lookup "file_path" r = Some (PStr path)
    /\ lookup "mime_type" r = Some (PStr mime)
    /\ lookup "processing_started_at" r = Some (PStr (clock w (ticks t)))
    /\ (exists steps, lookup "steps_completed" r = Some (strings steps))
    /\ (exists errors, lookup "errors" r = Some (strings errors)).
Proof.
  run_ends w path mime t;
    (split; [reflexivity|]); (split; [reflexivity|]);
    (split; [reflexivity|]);
    split;
    first [ exists []; reflexivity
          | eexists [_]; reflexivity
          | eexists [_; _]; reflexivity ].
Qed.

Lemma extraction_category (w : World) (path mime : string)
  (ocr : option dict) (text : string) :
  extraction w path mime = Some (ocr, text) ->
  (startswith "image/" mime = true
   /\ exists o,
       ocr = Some o
       /\ fst (OCRService.extract_text w path no_effects) = Ok (PDict o)
       /\ lookup "text" o = Some (PStr text)
       /\ truth (get_default "error" PNone o) = false)
  \/ (startswith "image/" mime = false
      /\ ocr = None /\ read_text w path = Ok text).
Proof.
  unfold extraction. destruct (startswith "image/" mime).
  - destruct (fst (OCRService.extract_text w path no_effects))
      as [[| | | | | |o]|]; try discriminate.
    destruct (truth (get_default "error" PNone o)) eqn:Et; [discriminate|].
    unfold str_item.
    destruct (lookup "text" o) as [[| | | |s| |]|] eqn:El; try discriminate.
    intros [= <- <-]. left. split; [reflexivity|]. now exists o.
  - destruct (read_text w path) as [s|]; [|discriminate].
    intros [= <- <-]. now right.
Qed.

Lemma first_step_image (mime : string) :
  startswith "image/" mime = true -> first_step mime = "ocr".
Proof. unfold first_step. now intros ->. Qed.

Lemma first_step_file (mime : string) :
  startswith "image/" mime = false -> first_step mime = "text_extraction".
Proof. unfold first_step. now intros ->. Qed.

Ltac category Hx :=
  let Hm := fresh "Hm" in
  let o := fresh "o" in
  destruct (extraction_category _ _ _ _ _ Hx)
    as [[Hm (o & -> & ? & ? & ?)]|(Hm & -> & ?)];
  [rewrite (first_step_image _ Hm)|rewrite (first_step_file _ Hm)].

(** The status of the record returned by a run is [completed], [failed]
    or absent.  A completed record has no error; a failed record has one
    error and the time of its end; a record without status has one error,
    which is [No text extracted from document] or starts with
    [OCR failed:], has no time of its end and no analysis. *)
Theorem process_document_status (w : World) (path mime : string)
  (t : Trace) :
  exists r t',
    process_document w path mime t = (Ok (PDict r), t')
    /\ ((lookup "status" r = Some (PStr "completed")
         /\ lookup "errors" r = Some (strings [])
         /\ lookup "processing_completed_at" r <> None)
        \/ (lookup "status" r = Some (PStr "failed")
            /\ (exists m, lookup "errors" r = Some (strings [m]))
            /\ lookup "processing_completed_at" r <> None)
        \/ (lookup "status" r = None
            /\ lookup "processing_completed_at" r = None
            /\ lookup "nlp_result" r = None
            /\ (lookup "errors" r
                = Some (strings ["No text extracted from document"])
                \/ exists e,
                    e <> EmptyString
                    /\ lookup "errors" r
                       = Some (strings ["OCR failed: " ++ e])))).
Proof.
  run_ends w path mime t.
  - right. left. split; [reflexivity|].
    split; [now eexists|discriminate].
  - right. right. repeat split. right. now exists e.
  - right. right. repeat split. now left.
  - right. right. repeat split. now left.
  - left. split; [reflexivity|]. split; [reflexivity|discriminate].
  - left. split; [reflexivity|]. split; [reflexivity|discriminate].
  - right. left. split; [reflexivity|].
    split; [now eexists|discriminate].
  - right. left. split; [reflexivity|].
    split; [now eexists|discriminate].
Qed.

(** The step log of a run is empty, or holds the first step of the
    category ([ocr] for an image, [text_extraction] otherwise), or that
    step followed by [nlp_analysis].  When it is empty the run has
    failed before any text was extracted and the document is no image:
    the run on an image always logs [ocr].  The log holds [nlp_analysis]
    exactly when the record holds the result of the analysis. *)
Theorem process_document_step_log (w : World) (path mime : string)
  (t : Trace) :
  exists r t',
    process_document w path mime t = (Ok (PDict r), t')
    /\ ((lookup "steps_completed" r = Some (strings [])
         /\ lookup "status" r = Some (PStr "failed")
         /\ lookup "extracted_text" r = None
         /\ lookup "nlp_result" r = None
         /\ startswith "image/" mime = false)
        \/ (lookup "steps_completed" r = Some (strings [first_step mime])
            /\ lookup "nlp_result" r = None)
        \/ (lookup "steps_completed" r
            = Some (strings [first_step mime; "nlp_analysis"])
            /\ lookup "nlp_result" r <> None)).
Proof.
  run_cases w path mime t.
  - left. repeat split; try assumption.
  - right. left. rewrite (first_step_image _ Hm). now split.
  - category Hx; right; left; now split.
  - category Hx; right; right; (split; [reflexivity|discriminate]).
  - category Hx; right; right; (split; [reflexivity|discriminate]).
Qed.

Lemma process_document_run_end (w : World) (path mime : string)
  (t : Trace) (r : dict) (t' : Trace) :
  process_document w path mime t = (Ok (PDict r), t') ->
  run_end w path mime t r t'.
Proof.
  destruct (process_document_ends w path mime t) as (r0 & t0 & E & R).
  rewrite E. now intros [= <- <-].
Qed.

(** The record of a completed run holds the text that was analysed: for
    a document that is no image the content of the file as it was read,
    with the confidence 100; for an image the text field of the OCR
    result, with the confidence of the OCR result. *)
Theorem process_document_completed (w : World) (path mime : string)
  (t : Trace) (r : dict) (t' : Trace) :
  process_document w path mime t = (Ok (PDict r), t') ->
  lookup "status" r = Some (PStr "completed") ->
  exists text,
    lookup "extracted_text" r = Some (PStr text)
    /\ truthy (strip text) = true
    /\ (startswith "image/" mime = false ->
        read_text w path = Ok text
        /\ lookup "confidence_score" r = Some (PInt 100)
        /\ lookup "ocr_result" r = None)
    /\ (startswith "image/" mime = true ->
        exists o,
          lookup "ocr_result" r = Some (PDict o)
          /\ lookup "text" o = Some (PStr text)
          /\ lookup "confidence_score" r
             = Some (get_default "confidence" (PInt 100) o)).
Proof.
  intros E Hst. apply process_document_run_end in E.
  destruct E as [e Hm Hr -> ->
                |o e Hm Ho He Hne -> ->
                |ocr text Hx Hs -> ->
                |ocr text nlp c ta Hx Hs Ha Hc -> ->
                |ocr text v ta Hx Hs Ha Hv -> ->];
    try (destruct ocr; discriminate Hst); try discriminate Hst.
  exists text.
  destruct (extraction_category _ _ _ _ _ Hx)
    as [[Hm (o & -> & Ho & Ht & He)]|(Hm & -> & Hr)].
  - split; [reflexivity|]. split; [exact Hs|]. split; [congruence|].
    intros _. exists o. split; [reflexivity|]. split; [exact Ht|].
    unfold confidence_of in Hc. rewrite Hm in Hc. simpl in Hc.
    injection Hc as <-. reflexivity.
  - split; [reflexivity|]. split; [exact Hs|]. split; [|congruence].
    intros _. split; [exact Hr|].
    unfold confidence_of in Hc. rewrite Hm in Hc. injection Hc as <-.
    now split.
Qed.

(** A run reads the clock once when it returns a record without status
    and twice otherwise, and it sends at most one prompt to the backend;
    it sends one only when a client is configured, and then the step
    [nlp_analysis] is in the log. *)
Theorem process_document_effects (w : World) (path mime : string)
  (t : Trace) :
  exists r t',
    process_document w path mime t = (Ok (PDict r), t')
    /\ (ticks t'
        = match lookup "status" r with
          | None => 1 + ticks t
          | Some _ => 2 + ticks t
          end)
    /\ (calls t' = calls t
        \/ (exists text,
               calls t' = (calls t ++ [prompt text])%list
               /\ client w <> None
               /\ lookup "steps_completed" r
                  = Some (strings [first_step mime; "nlp_analysis"]))).
Proof.
  run_cases w path mime t.
  - split; [reflexivity|now left].
  - split; [reflexivity|now left].
  - split; [now destruct ocr|now left].
  - destruct (analyze_document_returns w text (tick t))
      as (v & ta' & Ha' & Ht & Hcalls).
    rewrite Ha in Ha'. injection Ha' as <- <-.
    split; [destruct ocr; simpl; now rewrite Ht|].
    destruct Hcalls as [Hcalls|[Hcl Hcalls]]; [now left|].
    right. exists text. split; [exact Hcalls|]. split; [exact Hcl|].
    category Hx; reflexivity.
  - destruct (analyze_document_returns w text (tick t))
      as (v' & ta' & Ha' & Ht & Hcalls).
    rewrite Ha in Ha'. injection Ha' as <- <-.
    split; [destruct ocr; simpl; now rewrite Ht|].
    destruct Hcalls as [Hcalls|[Hcl Hcalls]]; [now left|].
    right. exists text. split; [exact Hcalls|]. split; [exact Hcl|].
    category Hx; reflexivity.
Qed.

(** When the backend replies with JSON that is no object, the run fails
    after the step [nlp_analysis] was logged: the reply is kept under
    [nlp_result] and the error says that the object has no attribute
    [get]. *)
Theorem process_document_reply_not_object (w : World)
  (path mime : string) (t : Trace) (ocr : option dict) (text : string)
  (key : string) (v : pyval) :
  extraction w path mime = Some (ocr, text) ->
  truthy (strip text) = true ->
  client w = Some key ->
  remote_reply w (List.length (calls t)) text = Ok v ->
  is_dict v = false ->
  exists r t',
    process_document w path mime t = (Ok (PDict r), t')
    /\ lookup "status" r = Some (PStr "failed")
    /\ lookup "errors" r
       = Some (strings ["'" ++ type_name v
                        ++ "' object has no attribute 'get'"])
    /\ lookup "nlp_result" r = Some v
    /\ lookup "steps_completed" r
       = Some (strings [first_step mime; "nlp_analysis"])
    /\ lookup "document_type" r = None.
Proof.
  intros Hx0 Hs0 Hk Hrep Hv0.
  assert (analyze_document w text (tick t)
          = (Ok v, {| calls := calls (tick t) ++ [prompt text];
                      ticks := ticks (tick t) |})) as Ha0.
  { rewrite (analyze_document_client w text (tick t) key Hk).
    cbn [calls tick]. now rewrite Hrep. }
  destruct (process_document_ends w path mime t) as (r & t' & E & R).
  exists r, t'. split; [exact E|].
  destruct R as [e Hm Hr -> ->
                |o e Hm Ho He Hne -> ->
                |ocr' text' Hx Hs -> ->
                |ocr' text' nlp c ta Hx Hs Ha Hc -> ->
                |ocr' text' v' ta Hx Hs Ha Hv -> ->].
  - exfalso. unfold extraction in Hx0. rewrite Hm, Hr in Hx0. discriminate.
  - exfalso. unfold extraction in Hx0. rewrite Hm, Ho in Hx0.
    unfold get_default in Hx0. rewrite He in Hx0.
    destruct e; [congruence|discriminate].
  - exfalso. rewrite Hx0 in Hx. injection Hx as <- <-. congruence.
  - exfalso. rewrite Hx0 in Hx. injection Hx as <- <-.
    rewrite Ha0 in Ha. injection Ha as -> _. discriminate.
  - rewrite Hx0 in Hx. injection Hx as <- <-.
    rewrite Ha0 in Ha. injection Ha as <- _.
    category Hx0; now repeat split.
Qed.

(** When the file of a document that is no image cannot be read, the run
    fails with the message of the exception as its only error and an
    empty step log, without calling the backend. *)
Theorem process_document_unreadable_file (w : World) (path mime : string)
  (t : Trace) (e : exn) :
  startswith "image/" mime = false ->
  read_text w path = Raise e ->
  exists r,
    process_document w path mime t = (Ok (PDict r), tick (tick t))
    /\ lookup "status" r = Some (PStr "failed")
    /\ lookup "errors" r = Some (strings [e])
    /\ lookup "steps_completed" r = Some (strings [])
    /\ lookup "processing_completed_at" r
       = Some (PStr (clock w (S (ticks t)))).
Proof.
  intros Hm Hr.
  rewrite process_document_steps. cbv zeta.
  rewrite (step_extract_file_error w path mime _ e Hm Hr).
  eexists. split; [reflexivity|]. now repeat split.
Qed.

End RunEnds.

(* ================================================================== *)
(** * More on the extraction result and on the prompt *)
(* ================================================================== *)

Section ExtractionMore.

Import PyStr PyFloat OCRService NLPService.

(** The extraction never raises and has no effect; its result always
    holds a text, a confidence and the two counts, and when it holds an
    error the text is empty and the confidence and the counts are 0. *)
Theorem extract_text_never_raises (w : World) (path : string) (t : Trace) :
  exists o,
    extract_text w path t = (Ok (PDict o), t)
    /\ (exists s c n m,
           lookup "text" o = Some (PStr s)
           /\ lookup "confidence" o = Some c
           /\ lookup "word_count" o = Some (PInt n)
           /\ lookup "character_count" o = Some (PInt m))
    /\ (lookup "error" o <> None ->
        lookup "text" o = Some (PStr EmptyString)
        /\ lookup "confidence" o = Some (PInt 0)
        /\ lookup "word_count" o = Some (PInt 0)
        /\ lookup "character_count" o = Some (PInt 0)).
Proof.
  destruct (extract_text_cases w path t)
    as [[e H]|(image & conf & text & c & _ & _ & _ & H)];
    rewrite H; eexists; (split; [reflexivity|]); split.
  - now repeat eexists.
  - intros _. now repeat split.
  - now repeat eexists.
  - intros Habs. now destruct Habs.
Qed.

(** The text of an extraction result is trimmed; the word count is 0
    exactly when the text is empty, and it never exceeds the character
    count. *)
Theorem extract_text_trimmed (w : World) (path : string) (t : Trace) :
  exists o s n m,
    extract_text w path t = (Ok (PDict o), t)
    /\ lookup "text" o = Some (PStr s)
    /\ lookup "word_count" o = Some (PInt n)
    /\ lookup "character_count" o = Some (PInt m)
    /\ strip s = s
    /\ (n = 0%Z <-> s = EmptyString)
    /\ (0 <= n <= m)%Z
    /\ (len s <= m)%Z.
Proof.
  destruct (extract_text_cases w path t)
    as [[e H]|(image & conf & text & c & _ & _ & _ & H)]; rewrite H.
  - exists (failed_extraction e), EmptyString, 0%Z, 0%Z.
    repeat split; try reflexivity; lia.
  - eexists. exists (strip text). eexists. eexists.
    split; [reflexivity|]. split; [reflexivity|]. split; [reflexivity|].
    split; [reflexivity|]. split; [apply strip_idempotent|].
    split; [|split; [|apply strip_length]].
    + rewrite strip_empty_blank, <- split_ws_nil_blank.
      destruct (split_ws text); simpl List.length; split;
        try discriminate; try reflexivity; lia.
    + pose proof (split_ws_length text). unfold len. lia.
Qed.

Lemma head_tail_length :
  String.length prompt_head + String.length prompt_tail = 645.
Proof. vm_compute. reflexivity. Qed.

Lemma take_take (n : nat) (s : string) : take n (take n s) = take n s.
Proof.
  revert s. induction n as [|n IH]; intros [|c s]; simpl; try reflexivity.
  now rewrite IH.
Qed.

Lemma prompt_bounded (text : string) :
  prompt text = prompt (take 4000 text)
  /\ String.length (prompt text) <= 4645.
Proof.
  unfold prompt. rewrite take_take. split; [reflexivity|].
  rewrite !append_length, take_length.
  pose proof head_tail_length.
  pose proof (Nat.le_min_l 4000 (String.length text)). lia.
Qed.

Section Prompt.

Context {order : SetOrder}.

(** A call of the analysis sends at most one prompt to the backend, and
    none without a client; the prompt is that of the first 4000
    characters of the text and has at most 4645 characters, however long
    the text is. *)
Theorem analyze_document_prompt (w : World) (text : string) (t : Trace) :
  exists sent,
    calls (snd (analyze_document w text t)) = (calls t ++ sent)%list
    /\ List.length sent <= 1
    /\ (client w = None -> sent = [])
    /\ (forall p,
           In p sent ->
           p = prompt (take 4000 text) /\ String.length p <= 4645).
Proof.
  destruct (prompt_bounded text) as [P L].
  destruct (client w) as [key|] eqn:E.
  - rewrite (analyze_document_client w text t key E).
    exists [prompt text]. cbn [snd calls].
    split; [reflexivity|]. split; [simpl; lia|]. split; [discriminate|].
    intros p [<-|[]]. now split.
  - rewrite (analyze_document_no_client w text t E).
    exists []. cbn [snd]. rewrite app_nil_r.
    split; [reflexivity|]. split; [simpl; lia|]. split; [reflexivity|].
    intros p [].
Qed.

End Prompt.

End ExtractionMore.

(* ================================================================== *)
(** * Dictionaries *)
(* ================================================================== *)

Section Dictionaries.

Lemma lookup_store_same (k : string) (v : pyval) (d : dict) :
  lookup k (store k v d) = Some v.
Proof.
  induction d as [|[k' v'] d IH]; simpl.
  - now rewrite String.eqb_refl.
  - destruct (String.eqb k k') eqn:E; simpl.
    + now rewrite String.eqb_refl.
    + now rewrite E.
Qed.

Lemma lookup_store_other (k k' : string) (v : pyval) (d : dict) :
  k <> k' -> lookup k (store k' v d) = lookup k d.
Proof.
  intros Hne. induction d as [|[k'' v''] d IH]; simpl.
  - destruct (String.eqb_spec k k'); [contradiction|reflexivity].
  - destruct (String.eqb_spec k' k'') as [<-|Hk]; simpl.
    + destruct (String.eqb_spec k k'); [contradiction|reflexivity].
    + destruct (String.eqb k k''); [reflexivity|exact IH].
Qed.

End Dictionaries.

(* ================================================================== *)
(** * The background task *)
(* ================================================================== *)

Section Task.

Import PyStr NLPService DocumentProcessor Main.

Context {order : SetOrder}.

Ltac dict_lookup :=
  repeat match goal with
    | |- context [lookup ?k (store ?k ?v ?d)] =>
        rewrite (lookup_store_same k v d)
    | |- context [lookup ?k (store ?k' ?v ?d)] =>
        rewrite (lookup_store_other k k' v d) by discriminate
    end.

Ltac run_task :=
  unfold try_except, bind, ret, of_result, db_first, db_commit, now,
    run_pipeline, copy_field, finally;
  cbv beta; cbn [pipeline db_calls commits].

(** The [except] clause of the task does not raise. *)
Lemma mark_failed_returns (w : World) (db : Session) (id : Z)
  (s : TaskState) :
  exists s', mark_failed w db id s = (Ok tt, s').
Proof.
  unfold mark_failed. run_task.
  destruct (query_first db (db_calls s) id) as [[document|]|e];
    try (eexists; reflexivity).
  cbn [pipeline db_calls commits].
  destruct (commit db (S (db_calls s))) as [[]|e]; eexists; reflexivity.
Qed.

Lemma task_body_returns (w : World) (db : Session) (id : Z)
  (path mime : string) (s : TaskState) :
  exists s',
    try_except (process_document_task_try w db id path mime)
      (fun e => mark_failed w db id) s = (Ok tt, s').
Proof.
  unfold try_except.
  destruct (process_document_task_try w db id path mime s) as [[[]|e] s1].
  - now exists s1.
  - apply mark_failed_returns.
Qed.

(** The task raises only when the session cannot be obtained or cannot
    be closed: every other exception is caught. *)
Theorem process_document_task_raises (w : World)
  (get_db : result Session) (id : Z) (path mime : string)
  (s : TaskState) :
  match get_db with
  | Raise e => process_document_task w get_db id path mime s = (Raise e, s)
  | Ok db =>
      exists s',
        process_document_task w get_db id path mime s
        = (match close db with Ok _ => Ok tt | Raise e => Raise e end, s')
  end.
Proof.
  unfold process_document_task. destruct get_db as [db|e]; [|reflexivity].
  unfold bind at 1, of_result at 1. unfold finally.
  destruct (task_body_returns w db id path mime s) as [s' ->].
  unfold of_result. exists s'. now destruct (close db).
Qed.

Lemma run_record_no_structured_data (w : World) (path mime : string)
  (t : Trace) (r : dict) (t' : Trace) :
  process_document w path mime t = (Ok (PDict r), t') ->
  lookup "structured_data" r = None.
Proof.
  intros E. apply process_document_run_end in E.
  destruct E as [e Hm Hr -> ->
                |o e Hm Ho He Hne -> ->
                |ocr text Hx Hs -> ->
                |ocr text nlp c ta Hx Hs Ha Hc -> ->
                |ocr text v ta Hx Hs Ha Hv -> ->];
    try destruct ocr; reflexivity.
Qed.

(** When the calls on the session succeed and the document exists, the
    task commits twice: first the status [processing] with the time of
    the start, then the outcome.  The outcome is [completed], with the
    fields of the record copied and no structured data, exactly when the
    record of the pipeline has the status [completed]; otherwise it is
    [failed], with no field of the record copied, also when the record
    has no status at all, in which case the task reads the document a
    second time. *)
Theorem process_document_task_outcome (w : World) (db : Session) (id : Z)
  (path mime : string) (s : TaskState) (doc : nat -> dict) (r : dict)
  (t' : Trace) :
  (forall n, query_first db n id = Ok (Some (doc n))) ->
  (forall n, commit db n = Ok tt) ->
  close db = Ok tt ->
  process_document w path mime (tick (pipeline s)) = (Ok (PDict r), t') ->
  exists s' first last,
    process_document_task w (Ok db) id path mime s = (Ok tt, s')
    /\ commits s' = (commits s ++ [first; last])%list
    /\ lookup "status" first = Some (PStr "processing")
    /\ lookup "processing_started_at" first
       = Some (PStr (clock w (ticks (pipeline s))))
    /\ lookup "processing_completed_at" last
       = Some (PStr (clock w (ticks t')))
    /\ (lookup "status" r = Some (PStr "completed") ->
        lookup "status" last = Some (PStr "completed")
        /\ lookup "structured_data" last = Some PNone
        /\ (forall k,
               In k ["extracted_text"; "confidence_score"; "document_type";
                     "key_entities"; "summary"; "sentiment_score"] ->
               lookup k last = Some (get_default k PNone r))
        /\ db_calls s' = 3 + db_calls s)
    /\ (lookup "status" r <> Some (PStr "completed") ->
        lookup "status" last = Some (PStr "failed")
        /\ (forall k,
               In k ["extracted_text"; "structured_data";
                     "confidence_score"; "document_type"; "key_entities";
                     "summary"; "sentiment_score"] ->
               lookup k last
               = lookup k
                   (doc (match lookup "status" r with
                         | None => 2 + db_calls s
                         | Some _ => db_calls s
                         end)))
        /\ db_calls s'
           = match lookup "status" r with
             | None => 4 + db_calls s
             | Some _ => 3 + db_calls s
             end).
Proof.
  intros Hq Hc Hcl Hpd.
  pose proof (run_record_no_structured_data _ _ _ _ _ _ Hpd) as Hsd.
  unfold process_document_task, process_document_task_try, mark_failed.
  run_task. rewrite Hq. cbn [pipeline db_calls commits].
  rewrite Hc. cbn [pipeline db_calls commits]. rewrite Hpd.
  cbn [pipeline db_calls commits].
  unfold py_index.
  destruct (lookup "status" r) as [v|] eqn:Est.
  - destruct (eq_str v "completed") eqn:Ev.
    + run_task. cbn [py_get]. rewrite Hc, Hcl.
      cbn [pipeline db_calls commits].
      eexists. eexists. eexists.
      split; [reflexivity|]. cbn [commits].
      split; [now rewrite <- app_assoc|].
      assert (v = PStr "completed") as ->.
      { destruct v; try discriminate. simpl in Ev.
        apply String.eqb_eq in Ev. now subst. }
      dict_lookup.
      split; [reflexivity|]. split; [reflexivity|].
      split; [reflexivity|]. split.
      * intros _. split; [reflexivity|].
        split; [unfold get_default; now rewrite Hsd|].
        split; [|reflexivity].
        intros k Hk. simpl in Hk.
        repeat (destruct Hk as [<-|Hk]; [dict_lookup; reflexivity|]).
        destruct Hk.
      * intros Hn. now destruct Hn.
    + run_task. rewrite Hc, Hcl. cbn [pipeline db_calls commits].
      eexists. eexists. eexists.
      split; [reflexivity|]. cbn [commits].
      split; [now rewrite <- app_assoc|].
      dict_lookup.
      split; [reflexivity|]. split; [reflexivity|].
      split; [reflexivity|]. split.
      * intros [= ->]. discriminate.
      * intros _. split; [reflexivity|]. split; [|reflexivity].
        intros k Hk. simpl in Hk.
        repeat (destruct Hk as [<-|Hk]; [dict_lookup; reflexivity|]).
        destruct Hk.
  - run_task. rewrite Hq. cbn [pipeline db_calls commits].
    rewrite Hc, Hcl. cbn [pipeline db_calls commits].
    eexists. eexists. eexists.
    split; [reflexivity|]. cbn [commits].
    split; [now rewrite <- app_assoc|].
    dict_lookup.
    split; [reflexivity|]. split; [reflexivity|].
    split; [reflexivity|]. split.
    + discriminate.
    + intros _. split; [reflexivity|]. split; [|reflexivity].
      intros k Hk. simpl in Hk.
      repeat (destruct Hk as [<-|Hk]; [dict_lookup; reflexivity|]).
      destruct Hk.
Qed.

(** When the document does not exist, the task runs no pipeline and
    commits nothing: it reads the database once and closes the
    session. *)
Theorem process_document_task_missing (w : World) (db : Session) (id : Z)
  (path mime : string) (s : TaskState) :
  query_first db (db_calls s) id = Ok None ->
  exists s',
    process_document_task w (Ok db) id path mime s
    = (match close db with Ok _ => Ok tt | Raise e => Raise e end, s')
    /\ commits s' = commits s
    /\ pipeline s' = pipeline s
    /\ db_calls s' = S (db_calls s).
Proof.
  intros Hq.
  unfold process_document_task, process_document_task_try.
  run_task. rewrite Hq.
  destruct (close db) as [[]|e]; eexists; now repeat split.
Qed.

End Task.

(* ================================================================== *)
(** * Further runs in the sample worlds *)
(* ================================================================== *)

Section MoreSamples.

Import PyStr Re NLPService DocumentProcessor Main.

Lemma generate_summary_cases_witness :
  _generate_summary "One. Two. Three. Four" = "One.  Two.".
Proof.
  destruct (proj1 (proj2 (proj2 (generate_summary_cases
                                   "One. Two. Three. Four"))))
    as (a & b & rest & _ & _ & _ & H).
  - vm_compute. repeat constructor.
  - reflexivity.
Defined.

Lemma extracted_dates_shape_witness :
  6 <= String.length "2024-01-15" <= 10
  /\ count_char "/" "2024-01-15" + count_char "-" "2024-01-15" = 2.
Proof.
  destruct (extracted_dates_shape sample_entities ["2024-01-15"]
              "2024-01-15")
    as (_ & L & _ & C & _).
  - vm_compute. reflexivity.
  - now left.
  - now split.
Defined.

Lemma extracted_amounts_shape_witness :
  contains "$1,250.00" sample_entities = true
  /\ first_is dollar_or_digit "$1,250.00" = true.
Proof.
  destruct (extracted_amounts_shape sample_entities ["$1,250.00"]
              "$1,250.00")
    as (C & _ & _ & F).
  - vm_compute. reflexivity.
  - now left.
  - now split.
Defined.

Lemma extracted_other_shape_witness :
  contains "a@b.com" sample_entities = true
  /\ count_char "@" "a@b.com" = 1.
Proof.
  destruct (extracted_other_shape sample_entities ["a@b.com"] "a@b.com")
    as (C & _ & _ & A & _).
  - vm_compute. reflexivity.
  - now left.
  - now split.
Defined.

Lemma process_document_completed_witness :
  exists r t',
    process_document text_file_world "q1.txt" "text/plain" no_effects
    = (Ok (PDict r), t')
    /\ lookup "extracted_text" r = Some (PStr quarter_text)
    /\ lookup "confidence_score" r = Some (PInt 100).
Proof.
  destruct (process_document text_file_world "q1.txt" "text/plain"
              no_effects) as [[[| | | | | |r]|e] t'] eqn:E;
    try (vm_compute in E; discriminate E).
  exists r, t'. split; [reflexivity|].
  destruct (process_document_completed text_file_world "q1.txt"
              "text/plain" no_effects r t' E)
    as (text & Ht & _ & Hf & _).
  - vm_compute in E. injection E as <- _. reflexivity.
  - destruct (Hf eq_refl) as (Hr & Hc & _).
    injection Hr as <-. now split.
Defined.

Lemma process_document_reply_not_object_witness :
  exists r t',
    process_document array_reply_world "q1.txt" "text/plain" no_effects
    = (Ok (PDict r), t')
    /\ lookup "status" r = Some (PStr "failed")
    /\ lookup "errors" r
       = Some (strings ["'list' object has no attribute 'get'"])
    /\ lookup "nlp_result" r = Some (PList []).
Proof.
  destruct (process_document_reply_not_object array_reply_world "q1.txt"
              "text/plain" no_effects None quarter_text "sk-test"
              (PList []) eq_refl eq_refl eq_refl eq_refl eq_refl)
    as (r & t' & E & S & Er & N & _).
  exists r, t'. now repeat split.
Defined.

Lemma process_document_unreadable_file_witness :
  exists r,
    process_document missing_file_world "q1.txt" "text/plain" no_effects
    = (Ok (PDict r), tick (tick no_effects))
    /\ lookup "status" r = Some (PStr "failed")
    /\ lookup "errors" r
       = Some (strings ["[Errno 2] No such file or directory: 'q1.txt'"]).
Proof.
  destruct (process_document_unreadable_file missing_file_world "q1.txt"
              "text/plain" no_effects
              "[Errno 2] No such file or directory: 'q1.txt'"
              eq_refl eq_refl)
    as (r & E & S & Er & _).
  exists r. now repeat split.
Defined.

(** The task on a blank image: the record of the pipeline has no
    status, and the document is committed as failed. *)
Lemma process_document_task_outcome_witness :
  exists s' first last,
    process_document_task blank_image_world
      (Ok (sample_session pending_document)) 7 "blank.png" "image/png"
      fresh_task
    = (Ok tt, s')
    /\ commits s' = [first; last]
    /\ lookup "status" first = Some (PStr "processing")
    /\ lookup "status" last = Some (PStr "failed")
    /\ db_calls s' = 4.
Proof.
  destruct (process_document blank_image_world "blank.png" "image/png"
              (tick (pipeline fresh_task)))
    as [[[| | | | | |r]|e] t'] eqn:E;
    try (vm_compute in E; discriminate E).
  destruct (process_document_task_outcome blank_image_world
              (sample_session pending_document) 7 "blank.png" "image/png"
              fresh_task (fun _ => pending_document) r t'
              (fun _ => eq_refl) (fun _ => eq_refl) eq_refl E)
    as (s' & first & last & Et & Ec & Sf & _ & _ & _ & Hn).
  assert (lookup "status" r = None) as Hs
    by (vm_compute in E; injection E as <- _; reflexivity).
  destruct Hn as (Sl & _ & Hd); [rewrite Hs; discriminate|].
  rewrite Hs in Hd.
  exists s', first, last. now repeat split.
Defined.

Lemma process_document_task_missing_witness :
  exists s',
    process_document_task blank_image_world
      (Ok {| query_first := fun _ _ => Ok None;
             commit := fun _ => Ok tt;
             close := Ok tt |})
      7 "blank.png" "image/png" fresh_task
    = (Ok tt, s')
    /\ commits s' = []
    /\ pipeline s' = no_effects.
Proof.
  destruct (process_document_task_missing blank_image_world
              {| query_first := fun _ _ => Ok None;
                 commit := fun _ => Ok tt;
                 close := Ok tt |}
              7 "blank.png" "image/png" fresh_task eq_refl)
    as (s' & E & C & P & _).
  exists s'. now repeat split.
Defined.

End MoreSamples.

(* ================================================================== *)
(** * The rule-based path across interpreters *)
(* ================================================================== *)

Section Determinism.

Import PyStr Re NLPService DocumentProcessor.

Lemma list_of_set_single (order : SetOrder) (l : list string) :
  (forall x y, In x l -> In y l -> x = y) ->
  list_of_set l = match l with [] => [] | x :: _ => [x] end.
Proof.
  intros H.
  pose proof (list_of_set_NoDup l) as N.
  pose proof (list_of_set_In l) as I.
  destruct l as [|a l].
  - destruct (list_of_set []) as [|b m]; [reflexivity|].
    exfalso. apply (proj1 (I b)). now left.
  - assert (forall z, In z (list_of_set (a :: l)) -> z = a) as Ha.
    { intros z Hz. apply (H z a); [now apply I|now left]. }
    destruct (list_of_set (a :: l)) as [|b m].
    + exfalso. apply (proj2 (I a)). now left.
    + assert (b = a) as -> by (apply Ha; now left).
      destruct m as [|c m]; [reflexivity|].
      assert (c = a) as -> by (apply Ha; right; now left).
      inversion N as [|? ? Hn _]. exfalso. apply Hn. now left.
Qed.

Lemma list_of_set_single_orders (o1 o2 : SetOrder) (l : list string) :
  (forall x y, In x l -> In y l -> x = y) ->
  @list_of_set o1 l = @list_of_set o2 l.
Proof.
  intros H.
  now rewrite (list_of_set_single o1 l H), (list_of_set_single o2 l H).
Qed.

Lemma extract_entities_regex_unfold (order : SetOrder) (text : string) :
  _extract_entities_regex text
  = [("names", PList []);
     ("dates", strings (list_of_set (findall date_pattern text)));
     ("amounts", strings (list_of_set (findall amount_pattern text)));
     ("other", strings (list_of_set (findall email_pattern text)))].
Proof. reflexivity. Qed.

Lemma same_strings_orders (o1 o2 : SetOrder) (l : list string) :
  same_strings (Some (strings (@list_of_set o1 l)))
    (Some (strings (@list_of_set o2 l))).
Proof.
  unfold same_strings. rewrite !strings_of_strings.
  split; [apply list_of_set_NoDup|].
  split; [apply list_of_set_NoDup|]. apply list_of_set_orders.
Qed.

Lemma same_entities_orders (o1 o2 : SetOrder) (text : string) :
  same_entities (Some (PDict (@_extract_entities_regex o1 text)))
    (Some (PDict (@_extract_entities_regex o2 text))).
Proof.
  rewrite !extract_entities_regex_unfold. split; [reflexivity|].
  intros k Hk. simpl in Hk.
  destruct Hk as [<-|[<-|[<-|[<-|[]]]]];
    cbn [lookup String.eqb Ascii.eqb Bool.eqb];
    try apply same_strings_orders.
  unfold same_strings. simpl. repeat split; constructor.
Qed.

Lemma extract_entities_regex_single (o1 o2 : SetOrder) (text : string) :
  single_matches text ->
  @_extract_entities_regex o1 text = @_extract_entities_regex o2 text.
Proof.
  intros H. rewrite !extract_entities_regex_unfold.
  rewrite (list_of_set_single_orders o1 o2 (findall date_pattern text)),
    (list_of_set_single_orders o1 o2 (findall amount_pattern text)),
    (list_of_set_single_orders o1 o2 (findall email_pattern text));
    [reflexivity| | |];
    intros x y; apply H; simpl; tauto.
Qed.

Lemma fallback_analysis_orders (o1 o2 : SetOrder) (text : string) :
  same_analysis (@_fallback_analysis o1 text) (@_fallback_analysis o2 text)
  /\ (single_matches text ->
      @_fallback_analysis o1 text = @_fallback_analysis o2 text).
Proof.
  split.
  - unfold _fallback_analysis, same_analysis.
    split; [reflexivity|]. split.
    + intros k Hk. cbn [lookup].
      destruct (String.eqb k "document_type"); [reflexivity|].
      destruct (String.eqb k "key_entities") eqn:E.
      * apply String.eqb_eq in E. contradiction.
      * reflexivity.
    + cbn [lookup String.eqb Ascii.eqb Bool.eqb].
      apply same_entities_orders.
  - intros H. unfold _fallback_analysis.
    now rewrite (extract_entities_regex_single o1 o2 text H).
Qed.

Lemma pipeline_analysis_orders (o1 o2 : SetOrder) (text : option string)
  (r1 r2 : dict) :
  analysis_of r1 = @pipeline_analysis o1 text ->
  analysis_of r2 = @pipeline_analysis o2 text ->
  same_analysis_fields r1 r2
  /\ ((forall s, text = Some s -> single_matches s) ->
      analysis_of r1 = analysis_of r2).
Proof.
  intros E1 E2. split.
  - unfold analysis_of, pipeline_analysis in E1, E2.
    destruct text as [s|].
    + unfold _fallback_analysis in E1, E2.
      cbn [map get_default lookup String.eqb Ascii.eqb Bool.eqb] in E1, E2.
      injection E1 as N1 D1 K1 S1 C1. injection E2 as N2 D2 K2 S2 C2.
      unfold same_analysis_fields.
      rewrite N1, N2, D1, D2, K1, K2, S1, S2, C1, C2.
      split; [|now repeat split].
      split; [|apply same_entities_orders].
      apply (proj1 (fallback_analysis_orders o1 o2 s)).
    + cbn [map] in E1, E2.
      injection E1 as N1 D1 K1 S1 C1. injection E2 as N2 D2 K2 S2 C2.
      unfold same_analysis_fields.
      rewrite N1, N2, D1, D2, K1, K2, S1, S2, C1, C2. now repeat split.
  - intros H. rewrite E1, E2. destruct text as [s|]; [|reflexivity].
    unfold pipeline_analysis.
    now rewrite (proj2 (fallback_analysis_orders o1 o2 s) (H s eq_refl)).
Qed.

(** C6: under one iteration order of sets the analysis on the rule-based
    path does not depend on the world, on the trace or on the time of
    the call: two calls on the same text return the same value, and two
    runs of the pipeline on the same documents, path and category return
    records with the same analysis.  Under two iteration orders the
    results have the same keys and the same document type, summary and
    sentiment score, and under each entity category the same strings,
    each once, in an order that may differ; they are equal when no
    entity pattern has two different matches in the text. *)
Theorem fallback_deterministic :
  (forall (order : SetOrder) w1 w2 t1 t2 text,
      fallback_active w1 t1 text -> fallback_active w2 t2 text ->
      fst (analyze_document w1 text t1) = fst (analyze_document w2 text t2)
      /\ fst (analyze_document w1 text t1) = Ok (_fallback_analysis text))
  /\ (forall (order : SetOrder) w1 w2 t1 t2 path mime,
         same_documents w1 w2 ->
         (forall text, fallback_active w1 t1 text) ->
         (forall text, fallback_active w2 t2 text) ->
         exists r1 r2,
           returned (process_document w1 path mime t1) = Some r1
           /\ returned (process_document w2 path mime t2) = Some r2
           /\ analysis_of r1 = analysis_of r2)
  /\ (forall (o1 o2 : SetOrder) w1 w2 t1 t2 text,
         fallback_active w1 t1 text -> fallback_active w2 t2 text ->
         exists a1 a2,
           fst (@analyze_document o1 w1 text t1) = Ok a1
           /\ fst (@analyze_document o2 w2 text t2) = Ok a2
           /\ same_analysis a1 a2
           /\ (single_matches text -> a1 = a2))
  /\ (forall (o1 o2 : SetOrder) w1 w2 t1 t2 path mime,
         same_documents w1 w2 ->
         (forall text, fallback_active w1 t1 text) ->
         (forall text, fallback_active w2 t2 text) ->
         exists r1 r2,
           returned (@process_document o1 w1 path mime t1) = Some r1
           /\ returned (@process_document o2 w2 path mime t2) = Some r2
           /\ same_analysis_fields r1 r2
           /\ ((forall text,
                   usable_text w1 path mime = Some text ->
                   single_matches text) ->
               analysis_of r1 = analysis_of r2)).
Proof.
  split; [intros order; apply (proj1 (@fallback_same_order order))|].
  split; [intros order; apply (proj2 (@fallback_same_order order))|].
  split.
  - intros o1 o2 w1 w2 t1 t2 text H1 H2.
    destruct (@analyze_document_fallback o1 w1 text t1 H1) as [E1 _].
    destruct (@analyze_document_fallback o2 w2 text t2 H2) as [E2 _].
    exists (@_fallback_analysis o1 text), (@_fallback_analysis o2 text).
    split; [exact E1|]. split; [exact E2|].
    apply fallback_analysis_orders.
  - intros o1 o2 w1 w2 t1 t2 path mime Hd H1 H2.
    destruct (@process_document_on_fallback o1 w1 path mime t1 H1)
      as (r1 & R1 & A1).
    destruct (@process_document_on_fallback o2 w2 path mime t2 H2)
      as (r2 & R2 & A2).
    rewrite <- (usable_text_same_documents w1 w2 path mime Hd) in A2.
    exists r1, r2. split; [exact R1|]. split; [exact R2|].
    apply (pipeline_analysis_orders o1 o2 _ r1 r2 A1 A2).
Qed.

End Determinism.

Section DeterminismSamples.

Import PyStr Re NLPService DocumentProcessor.

(** An instance of C6: a text with two dates, analysed under two
    iteration orders, in a world without backend and in a world whose
    backend is unreachable, at different traces. *)
Lemma fallback_deterministic_witness :
  (exists a1 a2,
      fst (@analyze_document first_occurrence_order two_dates_world
             two_dates no_effects) = Ok a1
      /\ fst (@analyze_document reverse_occurrence_order
                two_dates_unreachable_world two_dates earlier) = Ok a2
      /\ same_analysis a1 a2)
  /\ (exists r1 r2,
         returned
           (@process_document first_occurrence_order two_dates_world
              "dates.txt" "text/plain" no_effects) = Some r1
         /\ returned
              (@process_document reverse_occurrence_order
                 two_dates_unreachable_world "dates.txt" "text/plain"
                 earlier) = Some r2
         /\ same_analysis_fields r1 r2)
  /\ fst (@analyze_document first_occurrence_order text_file_world
            quarter_text no_effects)
     = fst (@analyze_document reverse_occurrence_order unreachable_world
              quarter_text earlier).
Proof.
  destruct fallback_deterministic as (_ & _ & Ha & Hp).
  split; [|split].
  - destruct (Ha first_occurrence_order reverse_occurrence_order
                two_dates_world two_dates_unreachable_world no_effects
                earlier two_dates)
      as (a1 & a2 & E1 & E2 & S & _).
    + left. reflexivity.
    + right. reflexivity.
    + exists a1, a2. split; [exact E1|]. split; [exact E2|exact S].
  - destruct (Hp first_occurrence_order reverse_occurrence_order
                two_dates_world two_dates_unreachable_world no_effects
                earlier "dates.txt" "text/plain")
      as (r1 & r2 & E1 & E2 & S & _).
    + apply same_documents_sample.
    + intros text. left. reflexivity.
    + intros text. right. reflexivity.
    + exists r1, r2. split; [exact E1|]. split; [exact E2|exact S].
  - destruct (Ha first_occurrence_order reverse_occurrence_order
                text_file_world unreachable_world no_effects earlier
                quarter_text)
      as (a1 & a2 & E1 & E2 & _ & Eq).
    + left. reflexivity.
    + right. reflexivity.
    + rewrite E1, E2. f_equal. apply Eq.
      intros p x y Hp' Hx Hy. simpl in Hp'.
      destruct Hp' as [<-|[<-|[<-|[]]]];
        vm_compute in Hx, Hy;
        repeat match goal with
          | H : _ \/ _ |- _ => destruct H as [H|H]
          | H : False |- _ => destruct H
          end;
        congruence.
Defined.

(** The claim as it is written fails across interpreters: on a text with
    two dates the rule-based analysis, and with it the analysis of the
    record of the pipeline, differs between two iteration orders. *)
Lemma fallback_analysis_order_dependent :
  @_fallback_analysis first_occurrence_order two_dates
  <> @_fallback_analysis reverse_occurrence_order two_dates
  /\ fst (@analyze_document first_occurrence_order two_dates_world
            two_dates no_effects)
     <> fst (@analyze_document reverse_occurrence_order two_dates_world
               two_dates no_effects)
  /\ option_map analysis_of
       (returned (@process_document first_occurrence_order two_dates_world
                    "dates.txt" "text/plain" no_effects))
     <> option_map analysis_of
          (returned (@process_document reverse_occurrence_order
                       two_dates_world "dates.txt" "text/plain"
                       no_effects)).
Proof.
  repeat split; vm_compute; discriminate.
Qed.

End DeterminismSamples.
